(** * Perishable supply chain: batch-allocation simulation and production optimizer

    A shallow embedding of [PerishableSupplyChain] (src/Archive/main_v2.py):
    [run_simulation] and [optimize_production], and of the handlers of
    [SupplyChainApp] that write the configuration and start a run.

    Python numbers ([int] and [float]) are embedded as exact rationals [Q];
    integer-valued results of [int(...)] and [round(...)] are [Z].  Python
    dictionaries keyed by the production day are [gmap Z _]: the source sorts the
    keys where their order shows in a table ([sorted_batches], the snapshots),
    and so does the model; the other loops over the keys (expiry, the sum of the
    valid quantities, the removal of empty batches) give the same ledger in any
    order.  The batch dictionaries stored in [batches] are shared by reference
    with [valid_batches] and [sorted_batches]; the model keeps one store, the
    ledger [batches], and the allocation loops read and update it through the
    batch day. *)

From Stdlib Require Import ZArith QArith Qround Qminmax Qabs Lqa Lia.
From stdpp Require Import gmap strings list fin_maps sorting.

Local Open Scope Z_scope.

(** ** Python primitives *)

Module Py.

(** [a < b] on numbers, as a boolean. *)
Definition ltb (a b : Q) : bool := negb (Qle_bool b a).

(** [round(x)] with one argument: nearest integer, ties to even. *)
Definition round (x : Q) : Z :=
  let f := Qfloor x in
  match (x - inject_Z f ?= 1 # 2)%Q with
  | Lt => f
  | Gt => f + 1
  | Eq => if Z.even f then f else f + 1
  end.

(** [round(x, 2)]: nearest multiple of 1/100, ties to even. *)
Definition round2 (x : Q) : Q := (inject_Z (round (x * 100)) / 100)%Q.

(** [int(x)]: truncation toward zero. *)
Definition int (x : Q) : Z := Z.quot (Qnum x) (Zpos (Qden x)).

(** [min(a, b, c)]: the first smallest argument. *)
Definition min3 (a b c : Q) : Q := Qmin (Qmin a b) c.

(** [sum(...)] over numbers. *)
Definition sum (l : list Q) : Q := foldl Qplus 0%Q l.

(** [sorted(l, key=key)]: a stable sort by an integer key. *)
Section Sorted.
Context {A : Type} (key : A → Z).

Fixpoint insert_by (x : A) (l : list A) : list A :=
  match l with
  | [] => [x]
  | y :: l' => if key x <=? key y then x :: l else y :: insert_by x l'
  end.

Definition sorted : list A → list A := foldr insert_by [].
End Sorted.

(** [l[:-1]]; [l[-1]] is [last l]. *)
Definition but_last {A} (l : list A) : list A := removelast l.

(** [range(a, b)]. *)
Definition range (a b : Z) : list Z := seqZ a (b - a).

(** [v or 0] for a number or [None]. *)
Definition or_zero (v : option Q) : Q :=
  match v with
  | Some q => if Qeq_bool q 0 then 0%Q else q
  | None => 0%Q
  end.

End Py.

(** ** Data model *)

(** A value of the [batches] dictionary. *)
Record batch := Batch {
  initial : Q;
  current : Q;
  expiry : Z
}.

(** An element of [self.distributors]. *)
Record distributor := Distributor_ {
  name : string;
  policy_days : Z;
  proportion : Q;
  distance_km : Q;
  purchase_days : list bool;
  preferred_products : list string
}.

(** A value of [self.products]. *)
Record product := Product_ {
  shelf_life : Z;
  production_plan : gmap Z Q
}.

(** A row of [purchases]. *)
Record purchase := Purchase {
  Product : string;
  Day : Z;
  Distributor : string;
  Batch_Day : Z;
  Quantity : Q;
  Shelf_Age : Z;
  Policy : Z;
  Proportion : Q;
  Transport_Cost : Q
}.

Inductive phase := Start | End_.

(** A row of [inventory_log]: the columns [Q<b_day>] in ascending batch day. *)
Record log_entry := LogEntry {
  log_Day : Z;
  log_Phase : phase;
  log_Q : list (Z * Z)
}.

(** A row of [waste_data] (the display string repeats [Waste_Pct]). *)
Record waste_row := WasteRow {
  w_Product : string;
  w_Batch_Day : Z;
  w_Initial : Q;
  w_Waste : Q;
  w_Waste_Pct : Q
}.

(** The mutable variables of the day loop of one product, with the running
    transport total of the object. *)
Record sim_state := SimState {
  batches : gmap Z batch;
  purchases : list purchase;
  inventory_log : list log_entry;
  waste : gmap Z Q;
  total_transport_cost : Q
}.

Definition set_batches (bs : gmap Z batch) (st : sim_state) : sim_state :=
  SimState bs (purchases st) (inventory_log st) (waste st) (total_transport_cost st).

Definition set_current (c : Q) (b : batch) : batch :=
  Batch (initial b) c (expiry b).

(** ** The day loop of [run_simulation] *)

Section DayLoop.
Variable prod_name : string.
Variable prod_data : product.
Variable transport_rate : Q.

(** Lines 46-52: add the batch produced today. *)
Definition add_batch (current_day : Z) (st : sim_state) : sim_state :=
  match production_plan prod_data !! current_day with
  | Some qty =>
      if Py.ltb 0 qty
      then set_batches
             (<[current_day := Batch qty qty (current_day + shelf_life prod_data - 1)]>
                (batches st)) st
      else st
  | None => st
  end.

(** Lines 55-58 and 153-156: one inventory snapshot. *)
Definition snapshot (current_day : Z) (ph : phase) (bs : gmap Z batch) : log_entry :=
  LogEntry current_day ph
    (omap (λ b_day, (λ b, (b_day, Py.int (current b))) <$> bs !! b_day)
          (Py.sorted id (map_to_list bs).*1)).

Definition log_inventory (current_day : Z) (ph : phase) (st : sim_state) : sim_state :=
  SimState (batches st) (purchases st)
           (inventory_log st ++ [snapshot current_day ph (batches st)])
           (waste st) (total_transport_cost st).

(** Lines 61-65: batches whose expiry is today become waste. *)
Definition expired_days (current_day : Z) (bs : gmap Z batch) : list Z :=
  (filter (λ kb, expiry kb.2 = current_day) (map_to_list bs)).*1.

Definition expire_one (st : sim_state) (p_day : Z) : sim_state :=
  match batches st !! p_day with
  | Some b =>
      SimState (delete p_day (batches st)) (purchases st) (inventory_log st)
               (<[p_day := current b]> (waste st)) (total_transport_cost st)
  | None => st
  end.

Definition expire (current_day : Z) (st : sim_state) : sim_state :=
  foldl expire_one st (expired_days current_day (batches st)).

(** Lines 81-83: the distributor does not buy today. *)
Definition closed_today (dist : distributor) (current_day : Z) : bool :=
  (Z.of_nat (length (purchase_days dist)) <? current_day)
  || negb (default false (purchase_days dist !! Z.to_nat (current_day - 1)))
  || (current_day mod 7 =? 0).

(** Lines 87-90. *)
Definition valid_batches (current_day policy : Z) (bs : gmap Z batch) : gmap Z batch :=
  filter (λ kb, current_day - kb.1 < policy ∧ Py.ltb 0 (current kb.2) = true) bs.

(** Line 96. *)
Definition total_available (valid : gmap Z batch) : Q :=
  Py.sum ((λ kb, current kb.2) <$> map_to_list valid).

(** Line 97. *)
Definition total_purchase (prop : Q) (valid : gmap Z batch) : Z :=
  Py.round (prop * total_available valid).

(** Line 101: the batch days of [sorted_batches]. *)
Definition sorted_batches (valid : gmap Z batch) : list Z :=
  Py.sorted id (map_to_list valid).*1.

Section Visit.
Variable current_day : Z.
Variable dist : distributor.

(** Lines 109-123 and 131-145: the purchase row and the transport cost
    of a positive share. *)
Definition purchase_row (p_day : Z) (share : Q) : purchase :=
  Purchase prod_name current_day (name dist) p_day share
           (current_day - p_day) (policy_days dist)
           (Py.round2 (proportion dist))
           (share * distance_km dist * transport_rate).

Definition record_purchase (p_day : Z) (share : Q) (st : sim_state) : sim_state :=
  if Py.ltb 0 share then
    let transport_cost := (share * distance_km dist * transport_rate)%Q in
    SimState (batches st)
             (purchases st ++ [purchase_row p_day share])
             (inventory_log st) (waste st)
             (total_transport_cost st + transport_cost)%Q
  else st.

(** Line 104: the rounded proportional share of a batch. *)
Definition rounded_share (T : Q) (P : Z) (b : batch) : Q :=
  inject_Z (Py.round ((current b / T) * inject_Z P)).

(** Lines 103-123: the body of the loop over [sorted_batches[:-1]]; the
    state carries [remaining_purchase]. *)
Definition allocate_share (T : Q) (P : Z) (acc : sim_state * Q) (p_day : Z)
  : sim_state * Q :=
  let '(st, remaining_purchase) := acc in
  match batches st !! p_day with
  | Some b =>
      let share := Py.min3 (rounded_share T P b) (current b) remaining_purchase in
      let st' := set_batches (<[p_day := set_current (current b - share) b]> (batches st)) st in
      (record_purchase p_day share st', (remaining_purchase - share)%Q)
  | None => acc (* not reached: the batch days are keys of the ledger *)
  end.

(** Lines 126-145: the last batch takes the remainder. *)
Definition allocate_last (acc : sim_state * Q) (p_day : Z) : sim_state :=
  let '(st, remaining_purchase) := acc in
  match batches st !! p_day with
  | Some b =>
      let final_share := Qmin remaining_purchase (current b) in
      let st' := set_batches (<[p_day := set_current (current b - final_share) b]> (batches st)) st in
      record_purchase p_day final_share st'
  | None => st
  end.

(** Lines 148-150. *)
Definition remove_empty (st : sim_state) (p_day : Z) : sim_state :=
  match batches st !! p_day with
  | Some b => if Qle_bool (current b) 0 then set_batches (delete p_day (batches st)) st else st
  | None => st
  end.

(** Lines 100-123: the state and [remaining_purchase] after the loop over
    [sorted_batches[:-1]]. *)
Definition allocate_shares (valid : gmap Z batch) (st : sim_state) : sim_state * Q :=
  let T := total_available valid in
  let P := total_purchase (Py.round2 (proportion dist)) valid in
  foldl (allocate_share T P) (st, inject_Z P) (Py.but_last (sorted_batches valid)).

(** Lines 95-150: the allocation among the valid batches. *)
Definition allocate (valid : gmap Z batch) (st : sim_state) : sim_state :=
  let sorted := sorted_batches valid in
  let acc := allocate_shares valid st in
  let st' := match last sorted with
             | Some p_day => allocate_last acc p_day
             | None => acc.1
             end in
  foldl remove_empty st' (map_to_list valid).*1.

(** Lines 70-150: the body of the loop over the distributors. *)
Definition process_distributor (st : sim_state) : sim_state :=
  if negb (bool_decide (prod_name ∈ preferred_products dist)) then st
  else if closed_today dist current_day then st
  else
    let valid := valid_batches current_day (policy_days dist) (batches st) in
    if bool_decide (valid = ∅) then st
    else allocate valid st.
End Visit.

Variable distributors : list distributor.

(** Line 68. *)
Definition sorted_distributors : list distributor :=
  Py.sorted policy_days distributors.

(** Lines 70-150: the loop over distributors [ds]. *)
Definition visits (current_day : Z) (ds : list distributor) (st : sim_state) : sim_state :=
  foldl (λ s dist, process_distributor current_day dist s) st ds.

(** Lines 44-156: one iteration of the day loop. *)
Definition day_step (st : sim_state) (current_day : Z) : sim_state :=
  let st := add_batch current_day st in
  let st := log_inventory current_day Start st in
  let st := expire current_day st in
  let st := visits current_day sorted_distributors st in
  log_inventory current_day End_ st.

Definition initial_state (ttc : Q) : sim_state := SimState ∅ [] [] ∅ ttc.

(** [range(1, total_days + 1)]. *)
Definition days (total_days : Z) : list Z := Py.range 1 (total_days + 1).

Definition day_loop (total_days : Z) (ttc : Q) : sim_state :=
  foldl day_step (initial_state ttc) (days total_days).

(** Lines 162-185: the waste table. *)
Definition waste_data_row (w : gmap Z Q) (day : Z) : waste_row :=
  let initial := default 0%Q (production_plan prod_data !! day) in
  if Py.ltb 0 initial then
    let expired := default 0%Q (w !! day) in
    let waste_pct := ((expired / initial) * 100)%Q in
    WasteRow prod_name day initial expired (Py.round2 waste_pct)
  else WasteRow prod_name day 0 0 0.

Definition waste_data (total_days : Z) (w : gmap Z Q) : list waste_row :=
  waste_data_row w <$> days total_days.

End DayLoop.

(** ** [run_simulation] on the object *)

(** The tables stored per product in [all_results] (the pivot table is a
    presentation of [purchases] and is not part of the model). *)
Record product_result := ProductResult {
  r_purchases : list purchase;
  r_waste : list waste_row;
  r_inventory_log : list log_entry
}.

(** The attributes of a [PerishableSupplyChain] object.  [self.products] is a
    dictionary in insertion order: a list of items with distinct names. *)
Record supply_chain := SupplyChain {
  self_products : list (string * product);
  self_distributors : list distributor;
  self_transport_rate : Q;
  self_sim_days_override : Z;
  self_all_results : list (string * product_result);
  self_total_transport_cost : Q;
  self_total_waste_cost : Q
}.

(** Lines 158-209: the tables of one product. *)
Definition product_tables (prod_name : string) (prod_data : product) (total_days : Z)
    (st : sim_state) : product_result :=
  ProductResult (purchases st)
                (waste_data prod_name prod_data total_days (waste st))
                (inventory_log st).

(** Lines 33-209: the body of the loop over the products; the accumulator is
    [all_results] with the running transport total. *)
Definition simulate_product (self : supply_chain)
    (acc : list (string * product_result) * Q) (item : string * product)
  : list (string * product_result) * Q :=
  let '(prod_name, prod_data) := item in
  let total_days := self_sim_days_override self in
  let st := day_loop prod_name prod_data (self_transport_rate self)
                     (self_distributors self) total_days acc.2 in
  (acc.1 ++ [(prod_name, product_tables prod_name prod_data total_days st)],
   total_transport_cost st).

(** Lines 27-211: the new object state; [run_simulation] returns its
    [self_all_results]. *)
Definition run_simulation (self : supply_chain) : supply_chain :=
  let '(results, ttc) := foldl (simulate_product self) ([], 0%Q) (self_products self) in
  SupplyChain (self_products self) (self_distributors self) (self_transport_rate self)
              (self_sim_days_override self) results ttc 0.

Definition new_supply_chain (products : list (string * product))
    (distributors : list distributor) (transport_rate : Q) (sim_days : Z) : supply_chain :=
  SupplyChain products distributors transport_rate sim_days [] 0 0.

(** ** [optimize_production] *)

(** What the source builds of a PuLP problem: the variables [Produce_<day>]
    with their lower bound and category, the objective (a linear expression
    in the variables, embedded as its value under an assignment) and the
    constraints [x[day] == 0]. *)
Record lp_problem := LpProblem {
  lp_variables : list Z;
  lp_lowBound : Q;
  lp_integer : bool;
  lp_objective : (Z → Q) → Q;
  lp_zero_constraints : list Z
}.

Section Optimizer.
(** [prob.solve(pl.PULP_CBC_CMD(msg=False))] is the external solver: it
    leaves in every variable a [varValue], a number or [None]. *)
Variable solve : lp_problem → Z → option Q.
Variable self : supply_chain.
Variable sim_days : Z.

(** Lines 221-222. *)
Definition opt_transport_rate : Q := 1 # 100.
Definition waste_cost_per_unit : Q := 1.

(** Lines 226-235: the body of the loop over the days. *)
Definition add_day_cost (x : Z → Q) (total_cost : Q) (day : Z) : Q :=
  let total_cost := (total_cost + waste_cost_per_unit * x day * (1 # 10))%Q in
  foldl (λ total_cost dist,
           foldl (λ total_cost d,
                    if negb (d mod 7 =? 0)
                    then (total_cost + x day * proportion dist * opt_transport_rate)%Q
                    else total_cost)
                 total_cost
                 (Py.range day (Z.min (day + policy_days dist) (sim_days + 1))))
        total_cost (self_distributors self).

(** Lines 225-237: the objective. *)
Definition total_cost (x : Z → Q) : Q :=
  foldl (add_day_cost x) 0%Q (days sim_days).

(** Lines 215-242. *)
Definition build_problem : lp_problem :=
  LpProblem (days sim_days) 0 true total_cost
            (filter (λ day, day mod 7 = 0) (days sim_days)).

(** Lines 213-248; [shelf_life] is not used by the source. *)
Definition optimize_production (shelf_life : Z) : list (Z * Z) :=
  let varValue := solve build_problem in
  (λ day, (day, Py.int (Py.or_zero (varValue day)))) <$> days sim_days.

(** The days from [day] to before [upper] that are not closure days. *)
Definition charged_days (day upper : Z) : list Z :=
  filter (λ d, d mod 7 ≠ 0) (Py.range day upper).

(** What a formula of the objective charges to a production day, for a
    transport rate and an end of the interval of days. *)
Definition day_charge (rate : Q) (upper : Z → Z → Z) (x : Z → Q) (day : Z) : Q :=
  (waste_cost_per_unit * x day * (1 # 10) +
   Py.sum ((λ dist,
     Py.sum ((λ _ : Z, x day * proportion dist * rate) <$>
               charged_days day (upper day (policy_days dist))))
     <$> self_distributors self))%Q.

Definition objective_formula (rate : Q) (upper : Z → Z → Z) (x : Z → Q) : Q :=
  Py.sum (day_charge rate upper x <$> days sim_days).

(** The objective in the words of the specification: every day of
    [day, day + policy_window) that is not a closure day, at the configured
    transport rate. *)
Definition spec_objective : (Z → Q) → Q :=
  objective_formula (self_transport_rate self) (λ day policy, day + policy).

(** The objective of the source: the interval ends with the horizon, and the
    rate is the constant of the optimizer. *)
Definition clipped_objective : (Z → Q) → Q :=
  objective_formula opt_transport_rate
                    (λ day policy, Z.min (day + policy) (sim_days + 1)).
End Optimizer.

(** An assignment satisfies the bounds, the category and the constraints. *)
Definition lp_feasible (prob : lp_problem) (x : Z → Q) : Prop :=
  ∀ day, day ∈ lp_variables prob →
    (lp_lowBound prob <= x day)%Q ∧
    (lp_integer prob = true → ∃ n : Z, (x day == inject_Z n)%Q) ∧
    (day ∈ lp_zero_constraints prob → (x day == 0)%Q).

(** A feasible assignment of least objective. *)
Definition lp_optimal (prob : lp_problem) (x : Z → Q) : Prop :=
  lp_feasible prob x ∧
  ∀ y, lp_feasible prob y → (lp_objective prob x <= lp_objective prob y)%Q.

(** The solver left no value in any variable. *)
Definition no_solution (prob : lp_problem) (varValue : Z → option Q) : Prop :=
  ∀ day, day ∈ lp_variables prob → varValue day = None.

(** The solver left an optimal assignment in the variables. *)
Definition optimal_solution (prob : lp_problem) (varValue : Z → option Q) : Prop :=
  ∃ x, lp_optimal prob x ∧ ∀ day, day ∈ lp_variables prob → varValue day = Some (x day).

(** ** Quantities the properties speak about *)

Definition sum_quantity (l : list purchase) : Q := Py.sum (Quantity <$> l).

(** The purchase rows added between two states. *)
Definition new_purchases (st st' : sim_state) : list purchase :=
  drop (length (purchases st)) (purchases st').

(** A row of the visit of [dist] on [current_day], drawn from the ledger [bs]. *)
Definition drawn_from (prod_name : string) (transport_rate : Q) (current_day : Z)
    (dist : distributor) (bs : gmap Z batch) (r : purchase) : Prop :=
  ∃ b, bs !! Batch_Day r = Some b ∧
       (0 < Quantity r)%Q ∧ (Quantity r <= current b)%Q ∧
       r = purchase_row prod_name transport_rate current_day dist (Batch_Day r) (Quantity r).

(** Purchased so far from the batch of day [d]. *)
Definition purchased (st : sim_state) (d : Z) : Q :=
  sum_quantity (filter (λ r, Batch_Day r = d) (purchases st)).

(** Waste recorded for the batch of day [d]. *)
Definition wasted (st : sim_state) (d : Z) : Q := default 0%Q (waste st !! d).

(** What remains in the ledger of the batch of day [d]. *)
Definition remaining (st : sim_state) (d : Z) : Q :=
  default 0%Q (current <$> batches st !! d).

(** The initial quantity of the batch created on day [d], once day [n] has
    begun; 0 when no batch was created. *)
Definition produced (prod_data : product) (n d : Z) : Q :=
  if bool_decide (1 ≤ d ≤ n) then
    match production_plan prod_data !! d with
    | Some qty => if Py.ltb 0 qty then qty else 0%Q
    | None => 0%Q
    end
  else 0%Q.

(** Conservation at a state in which day [n] is the last day begun: every
    live batch holds between 0 and its initial quantity, and every initial
    quantity is the waste recorded for the batch plus the purchases from it
    plus what remains of it in the ledger. *)
Definition conserved (prod_data : product) (n : Z) (st : sim_state) : Prop :=
  (∀ d b, batches st !! d = Some b →
     (0 <= current b ∧ current b <= initial b ∧ initial b == produced prod_data n d)%Q) ∧
  (∀ d, (produced prod_data n d == wasted st d + purchased st d + remaining st d)%Q).

(** The invariant of the day loop: conservation, with the days of the batches,
    of the purchase rows and of the waste entries bounded by the day begun,
    and no waste recorded for a live batch. *)
Definition ledger_inv (prod_data : product) (n : Z) (st : sim_state) : Prop :=
  conserved prod_data n st ∧
  (∀ d b, batches st !! d = Some b → 1 ≤ d ≤ n ∧ waste st !! d = None) ∧
  (∀ d q, waste st !! d = Some q → d ≤ n) ∧
  (∀ r, r ∈ purchases st → Batch_Day r ≤ n).

(** A purchase row written on one of the days 1..[n] by the visit of a
    distributor of the list that carries the product and buys on that day,
    from a batch within the policy window of the distributor. *)
Definition emitted (prod_name : string) (transport_rate : Q)
    (distributors : list distributor) (n : Z) (r : purchase) : Prop :=
  ∃ day dist k share,
    1 ≤ day ≤ n ∧ dist ∈ distributors ∧
    prod_name ∈ preferred_products dist ∧ closed_today dist day = false ∧
    day - k < policy_days dist ∧ (0 < share)%Q ∧
    r = purchase_row prod_name transport_rate day dist k share.

(** The row was bought on a day that is not the weekly closure day and that
    the calendar of a distributor of that name marks as a purchase day. *)
Definition bought_on_open_day (distributors : list distributor) (r : purchase) : Prop :=
  1 ≤ Day r ∧ Day r mod 7 ≠ 0 ∧
  ∃ dist, dist ∈ distributors ∧ name dist = Distributor r ∧
          purchase_days dist !! Z.to_nat (Day r - 1) = Some true.

(** The shelf age of the row is the age of the batch on the day of the
    purchase and is less than the policy window of the distributor. *)
Definition within_policy (distributors : list distributor) (r : purchase) : Prop :=
  Shelf_Age r = Day r - Batch_Day r ∧ Shelf_Age r < Policy r ∧ (0 < Quantity r)%Q ∧
  ∃ dist, dist ∈ distributors ∧ name dist = Distributor r ∧ policy_days dist = Policy r.

(** The batch of the row is in the ledger [bs] with a positive quantity that
    covers the row, and within the policy window of [dist] on [current_day]. *)
Definition valid_at_allocation (current_day : Z) (dist : distributor)
    (bs : gmap Z batch) (r : purchase) : Prop :=
  ∃ b, bs !! Batch_Day r = Some b ∧ (0 < current b)%Q ∧ (Quantity r <= current b)%Q ∧
       Day r = current_day ∧ Policy r = policy_days dist ∧
       Shelf_Age r = current_day - Batch_Day r ∧ Shelf_Age r < policy_days dist.

(** ** Concrete configurations *)

(** The state in which the visits of [current_day] begin. *)
Definition before_visits (prod_name : string) (prod_data : product) (transport_rate : Q)
    (distributors : list distributor) (current_day : Z) : sim_state :=
  expire current_day
    (log_inventory current_day Start
       (add_batch prod_data current_day
          (day_loop prod_name prod_data transport_rate distributors (current_day - 1) 0))).

(** One product of shelf life 3 produced once, one distributor buying half of
    what it may, every day of a horizon of 5 days. *)
Definition single_batch : product := Product_ 3 {[ 1 := 100%Q ]}.

Definition half_buyer : distributor :=
  Distributor_ "D" 2 (1 # 2) 10 [true; true; true; true; true] ["P"%string].

Definition scenario : supply_chain :=
  new_supply_chain [("P"%string, single_batch)] [half_buyer] (1 # 100) 5.

Definition scenario_ledger : sim_state :=
  before_visits "P" single_batch (1 # 100) [half_buyer] 1.

(** Five batches of one unit, and a distributor that first buys on day 5. *)
Definition unit_batches : product :=
  Product_ 10 (<[1 := 1%Q]> (<[2 := 1%Q]> (<[3 := 1%Q]> (<[4 := 1%Q]> {[ 5 := 1%Q ]})))).

Definition late_buyer : distributor :=
  Distributor_ "D" 10 (4 # 10) 10 [false; false; false; false; true] ["P"%string].

Definition unit_config : supply_chain :=
  new_supply_chain [("P"%string, unit_batches)] [late_buyer] (1 # 100) 5.

(** The ledger of [unit_config] at the visit of day 5. *)
Definition unit_ledger : sim_state :=
  before_visits "P" unit_batches (1 # 100) [late_buyer] 5.

(** Day, batch day and quantity of the purchase rows of every product. *)
Definition purchase_summary (self : supply_chain) : list (list (Z * Z * Q)) :=
  (λ pr, (λ r, (Day r, Batch_Day r, Qred (Quantity r))) <$> r_purchases pr.2)
    <$> self_all_results self.

(** The oldest valid batch holds stock and gets no row of the visit, while a
    younger batch gets one. *)
Definition oldest_skipped (V : gmap Z batch) (news : list purchase) : Prop :=
  ∃ k0 b0 r,
    head (sorted_batches V) = Some k0 ∧ V !! k0 = Some b0 ∧ (0 < current b0)%Q ∧
    (∀ r', r' ∈ news → Batch_Day r' ≠ k0) ∧
    r ∈ news ∧ k0 < Batch_Day r ∧ (0 < Quantity r)%Q.

(** A horizon of one day with a policy window of one day and a configured
    transport rate of 0.05, and with a policy window of three days and a
    configured rate of 0.01. *)
Definition rate_config : supply_chain :=
  new_supply_chain [("P"%string, single_batch)]
                   [Distributor_ "D" 1 (2 # 10) 10 [true] ["P"%string]] (5 # 100) 1.

Definition window_config : supply_chain :=
  new_supply_chain [("P"%string, single_batch)]
                   [Distributor_ "D" 3 (2 # 10) 10 [true] ["P"%string]] (1 # 100) 1.

(** A solver that leaves 0 in every variable, and one that leaves nothing. *)
Definition zero_solver : lp_problem → Z → option Q := λ _ _, Some 0%Q.
Definition failing_solver : lp_problem → Z → option Q := λ _ _, None.

(** ** Further invariants of the ledger *)

(** Every batch of [bs'] is a batch of [bs] with the same initial quantity
    and expiry day. *)
Definition ledger_shrunk (bs' bs : gmap Z batch) : Prop :=
  ∀ k b', bs' !! k = Some b' →
    ∃ b, bs !! k = Some b ∧ initial b' = initial b ∧ expiry b' = expiry b.

(** Every batch of the ledger holds a positive quantity. *)
Definition all_positive (st : sim_state) : Prop :=
  ∀ k b, batches st !! k = Some b → (0 < current b)%Q.

(** Once day [n] is over: every batch of the ledger was created on one of the
    days 1..[n] with the planned quantity and has its expiry day ahead, and
    waste is recorded only for batches whose expiry day has come. *)
Definition within_shelf_life (prod_data : product) (n : Z) (st : sim_state) : Prop :=
  (∀ k b, batches st !! k = Some b →
     1 ≤ k ≤ n ∧ production_plan prod_data !! k = Some (initial b) ∧
     expiry b = k + shelf_life prod_data - 1 ∧ n < expiry b) ∧
  (∀ d q, waste st !! d = Some q → 1 ≤ d ∧ d + shelf_life prod_data - 1 ≤ n).

(** A number that is an integer. *)
Definition integral (q : Q) : Prop := ∃ n : Z, (q == inject_Z n)%Q.

(** The transport cost of the rows of a purchase table. *)
Definition sum_transport_cost (l : list purchase) : Q := Py.sum (Transport_Cost <$> l).

(** The order of the purchase table: by day, then by policy window. *)
Definition ledger_order (r1 r2 : purchase) : Prop :=
  Day r1 < Day r2 ∨ (Day r1 = Day r2 ∧ Policy r1 ≤ Policy r2).

(** What the running transport total holds beyond the rows of the table. *)
Definition cost_gap (st : sim_state) : Q :=
  (total_transport_cost st - sum_transport_cost (purchases st))%Q.

(** Day and phase of the rows of an inventory log. *)
Definition log_index (l : list log_entry) : list (Z * phase) :=
  (λ e, (log_Day e, log_Phase e)) <$> l.

(** Lines 920-922 of [_export_to_excel]: the transport total of the summary
    sheet, summed over [all_results].  The purchase table of a product without
    purchases is a frame built from an empty list: it has no column
    [Transport_Cost], and the lookup of the column raises. *)
Definition summary_transport_cost (results : list (string * product_result)) : option Q :=
  foldl (λ acc pr,
           total ← acc;
           if bool_decide (r_purchases pr.2 = [])
           then None
           else Some (total + Py.sum (Transport_Cost <$> r_purchases pr.2))%Q)
        (Some 0%Q) results.

(** A product whose shelf life is not positive. *)
Definition stale_batch : product := Product_ 0 {[ 1 := 100%Q ]}.

(** Every quantity of the state is an integer: the stock of the batches,
    the purchase rows and the recorded waste. *)
Definition integral_state (st : sim_state) : Prop :=
  (∀ k b, batches st !! k = Some b → integral (current b)) ∧
  Forall (λ r, integral (Quantity r)) (purchases st) ∧
  (∀ d q, waste st !! d = Some q → integral q).

(** The row belongs to the product and to a distributor of the list that
    carries the product, with the policy window, the rounded proportion and
    the transport cost of that distributor. *)
Definition row_of_carrier (prod_name : string) (transport_rate : Q)
    (distributors : list distributor) (r : purchase) : Prop :=
  Product r = prod_name ∧
  ∃ dist, dist ∈ distributors ∧ name dist = Distributor r ∧
          prod_name ∈ preferred_products dist ∧
          Policy r = policy_days dist ∧
          Proportion r = Py.round2 (proportion dist) ∧
          Transport_Cost r = (Quantity r * distance_km dist * transport_rate)%Q.

(** The solver left a feasible assignment in the variables. *)
Definition feasible_solution (prob : lp_problem) (varValue : Z → option Q) : Prop :=
  ∃ x, lp_feasible prob x ∧ ∀ day, day ∈ lp_variables prob → varValue day = Some (x day).

(** A solver that leaves 3 in the variables of the days that are not closure
    days, and 0 in the others. *)
Definition weekday_solver : lp_problem → Z → option Q :=
  λ _ day, Some (if day mod 7 =? 0 then 0%Q else 3%Q).

(** A product that is never produced. *)
Definition idle_product : product := Product_ 3 {[ 1 := 0%Q ]}.

(** ** The configuration screens of [SupplyChainApp] *)

(** A dictionary with string keys in insertion order: [d[k] = v] and
    [d.get(k)]. *)
Fixpoint dict_set {V} (k : string) (v : V) (d : list (string * V)) : list (string * V) :=
  match d with
  | [] => [(k, v)]
  | (k', v') :: d' =>
      if decide (k' = k) then (k, v) :: d' else (k', v') :: dict_set k v d'
  end.

Fixpoint dict_get {V} (k : string) (d : list (string * V)) : option V :=
  match d with
  | [] => None
  | (k', v) :: d' => if decide (k' = k) then Some v else dict_get k d'
  end.

(** The configuration held by the application, the variables of its entry
    widgets and of its check boxes (lines 263-279, 439, 446-453).  The fields
    of the simulation days and of the transport rate hold numbers. *)
Record app := App {
  app_products : list (string * product);
  app_distributors : list distributor;
  app_transport_rate : Q;
  app_sim_days : Z;
  prod_name_var : string;
  prod_shelf_life_var : string;
  dist_name_var : string;
  dist_policy_var : string;
  dist_prop_var : string;
  dist_dist_var : string;
  prod_var : string;
  prod_day_var : string;
  prod_qty_var : string;
  prod_vars : list bool;
  day_vars : list bool
}.

(** What a handler does: it shows a warning or an error and changes nothing,
    raises an exception that nothing catches, or returns with a new
    configuration. *)
Inductive outcome :=
  | Warned
  | Failed
  | Raised
  | Done (a : app).

(** Lines 556-576 of [update_ui]: the product box shows the first product, and
    there is one cleared check box for every product. *)
Definition update_ui (a : app) : app :=
  App (app_products a) (app_distributors a) (app_transport_rate a) (app_sim_days a)
      (prod_name_var a) (prod_shelf_life_var a)
      (dist_name_var a) (dist_policy_var a) (dist_prop_var a) (dist_dist_var a)
      (match app_products a with (k, _) :: _ => k | [] => prod_var a end)
      (prod_day_var a) (prod_qty_var a)
      (replicate (length (app_products a)) false)
      (day_vars a).

Section Screens.
(** [str.strip], [int(text)] and [float(text)]; [None] is a [ValueError].  A
    number read is a rational: the texts that Python reads as an infinity or
    as not a number are outside the model. *)
Variable strip : string → string.
Variable parse_int : string → option Z.
Variable parse_float : string → option Q.

(** Lines 588-603. *)
Definition add_product (a : app) : outcome :=
  let name := strip (prod_name_var a) in
  let sl_text := strip (prod_shelf_life_var a) in
  if bool_decide (name = EmptyString) || bool_decide (sl_text = EmptyString) then Warned
  else
    match parse_int sl_text with
    | None => Failed
    | Some sl =>
        if sl <=? 0 then Failed
        else
          Done (update_ui
                  (App (dict_set name (Product_ sl ∅) (app_products a))
                       (app_distributors a) (app_transport_rate a) (app_sim_days a)
                       EmptyString EmptyString
                       (dist_name_var a) (dist_policy_var a) (dist_prop_var a)
                       (dist_dist_var a) (prod_var a) (prod_day_var a) (prod_qty_var a)
                       (prod_vars a) (day_vars a)))
    end.

(** Lines 636-639: the names of the ticked products. *)
Definition selected_products (a : app) : option (list string) :=
  mapM (λ i, fst <$> app_products a !! i)
       ((filter (λ iv, iv.2 = true) (imap (λ i v, (i, v)) (prod_vars a))).*1).

(** Lines 645-649: the weekly pattern over the days of the horizon. *)
Definition full_purchase_days (a : app) : option (list bool) :=
  mapM (λ day, day_vars a !! Z.to_nat ((day - 1) mod 7))
       (Py.range 1 (app_sim_days a + 1)).

(** Lines 617-669. *)
Definition add_distributor (a : app) : outcome :=
  let name := strip (dist_name_var a) in
  let policy_text := strip (dist_policy_var a) in
  let prop_text := strip (dist_prop_var a) in
  let dist_text := strip (dist_dist_var a) in
  if bool_decide (name = EmptyString) || bool_decide (policy_text = EmptyString)
     || bool_decide (prop_text = EmptyString) || bool_decide (dist_text = EmptyString)
  then Warned
  else
    match parse_int policy_text, parse_float prop_text, parse_int dist_text with
    | Some policy, Some prop, Some distance =>
        if (policy <=? 0) || Qle_bool prop 0 || Py.ltb 1 prop || (distance <=? 0)
        then Failed
        else
          match selected_products a with
          | None => Raised
          | Some [] => Warned
          | Some selected =>
              match full_purchase_days a with
              | None => Raised
              | Some calendar =>
                  Done (update_ui
                          (App (app_products a)
                               (app_distributors a ++
                                  [Distributor_ name policy (Py.round2 prop)
                                                (inject_Z distance) calendar selected])
                               (app_transport_rate a) (app_sim_days a)
                               (prod_name_var a) (prod_shelf_life_var a)
                               EmptyString "1" "0.15" "10"
                               (prod_var a) (prod_day_var a) (prod_qty_var a)
                               (replicate (length (prod_vars a)) false)
                               (imap (λ i _, bool_decide (i < 6)%nat) (day_vars a))))
              end
          end
    | _, _, _ => Failed
    end.

(** Lines 680-704. *)
Definition add_production (a : app) : outcome :=
  let prod_name := prod_var a in
  let day_text := strip (prod_day_var a) in
  let qty_text := strip (prod_qty_var a) in
  if bool_decide (prod_name = EmptyString) then Warned
  else if bool_decide (day_text = EmptyString) || bool_decide (qty_text = EmptyString)
  then Warned
  else
    match parse_int day_text, parse_float qty_text with
    | Some day, Some qty =>
        if (day <? 1) || Py.ltb qty 0 then Failed
        else
          match dict_get prod_name (app_products a) with
          | None => Failed
          | Some p =>
              Done (App (dict_set prod_name
                           (Product_ (shelf_life p) (<[day := qty]> (production_plan p)))
                           (app_products a))
                        (app_distributors a) (app_transport_rate a) (app_sim_days a)
                        (prod_name_var a) (prod_shelf_life_var a)
                        (dist_name_var a) (dist_policy_var a) (dist_prop_var a)
                        (dist_dist_var a) (prod_var a) EmptyString EmptyString
                        (prod_vars a) (day_vars a))
          end
    | _, _ => Failed
    end.
End Screens.

(** Lines 671-678, for the selected row [sel] of the list of distributors. *)
Definition remove_distributor (sel : option nat) (a : app) : app :=
  match sel with
  | None => a
  | Some i =>
      update_ui
        (App (app_products a) (delete i (app_distributors a))
             (app_transport_rate a) (app_sim_days a)
             (prod_name_var a) (prod_shelf_life_var a)
             (dist_name_var a) (dist_policy_var a) (dist_prop_var a) (dist_dist_var a)
             (prod_var a) (prod_day_var a) (prod_qty_var a) (prod_vars a) (day_vars a))
  end.

(** Lines 715-732: the results that the handler stores; [None] when it
    refuses to run. *)
Definition app_run_simulation (a : app) : option (list (string * product_result)) :=
  if bool_decide (app_products a = []) then None
  else if existsb (λ item, bool_decide (production_plan item.2 = ∅))
                  (app_products a)
  then None
  else if bool_decide (app_distributors a = []) then None
  else Some (self_all_results
               (run_simulation
                  (new_supply_chain (app_products a) (app_distributors a)
                                    (app_transport_rate a) (app_sim_days a)))).

(** Lines 769-788: the recommendation that the handler stores under the name
    of the first product. *)
Definition app_optimize_production (solve : lp_problem → Z → option Q) (a : app)
  : option (string * list (Z * Z)) :=
  match app_products a with
  | [] => None
  | (first_prod, p) :: _ =>
      if bool_decide (app_distributors a = []) then None
      else
        Some (first_prod,
              optimize_production solve
                (new_supply_chain (app_products a) (app_distributors a)
                                  (app_transport_rate a) (app_sim_days a))
                (app_sim_days a) (shelf_life p))
  end.

(** What the validation of [add_distributor] leaves of a distributor. *)
Definition sound_distributor (d : distributor) : Prop :=
  name d ≠ EmptyString ∧ 1 ≤ policy_days d ∧
  (0 <= proportion d)%Q ∧ (proportion d <= 1)%Q ∧ (1 <= distance_km d)%Q ∧
  preferred_products d ≠ [].

(** The configurations of the application.  The list of distributors is empty
    at the start (line 264) and is written by [add_distributor] (line 651) and
    by [remove_distributor] (line 677) only; whatever else happens on the
    screens leaves it as it is. *)
Inductive reachable (strip : string → string)
    (parse_int : string → option Z) (parse_float : string → option Q) : app → Prop :=
  | reach_start a :
      app_distributors a = [] → reachable strip parse_int parse_float a
  | reach_other a a' :
      reachable strip parse_int parse_float a →
      app_distributors a' = app_distributors a →
      reachable strip parse_int parse_float a'
  | reach_add_distributor a a' :
      reachable strip parse_int parse_float a →
      add_distributor strip parse_int parse_float a = Done a' →
      reachable strip parse_int parse_float a'
  | reach_remove_distributor a sel :
      reachable strip parse_int parse_float a →
      reachable strip parse_int parse_float (remove_distributor sel a).

(** The screens keep one check box for every product and seven for the days
    of the week. *)
Definition boxes_match (a : app) : Prop :=
  length (prod_vars a) = length (app_products a) ∧ length (day_vars a) = 7%nat.

(** A distributor as the screen accepts it. *)
Definition accepted_distributor (a : app) (d : distributor) : Prop :=
  1 ≤ policy_days d ∧ (0 <= proportion d)%Q ∧ (proportion d <= 1)%Q ∧
  (1 <= distance_km d)%Q ∧ preferred_products d ≠ [] ∧
  (∀ p, p ∈ preferred_products d → is_Some (dict_get p (app_products a))) ∧
  length (purchase_days d) = Z.to_nat (app_sim_days a) ∧
  ∀ day, 1 ≤ day ≤ app_sim_days a →
         purchase_days d !! Z.to_nat (day - 1) = day_vars a !! Z.to_nat ((day - 1) mod 7).

(** A screen with one product, the boxes of the weekdays ticked, and the
    fields of a distributor filled in; texts that the parsers below read. *)
Definition demo_parse_int (text : string) : option Z :=
  if decide (text = "2"%string) then Some 2
  else if decide (text = "10"%string) then Some 10
  else if decide (text = "3"%string) then Some 3
  else None.

Definition demo_parse_float (text : string) : option Q :=
  if decide (text = "0.5"%string) then Some (1 # 2)
  else if decide (text = "0.004"%string) then Some (1 # 250)
  else if decide (text = "100"%string) then Some 100%Q
  else None.

Definition demo_app : app :=
  App [("P"%string, Product_ 3 {[1 := 100%Q]})] [] (1 # 100) 10
      "P" "3" "D" "2" "0.5" "10" "P" "3" "100"
      [true] [true; true; true; true; true; true; false].

(** The same screen with a proportion of 0.004. *)
Definition tiny_app : app :=
  App [("P"%string, Product_ 3 {[1 := 100%Q]})] [] (1 # 100) 10
      "P" "3" "D" "2" "0.004" "10" "P" "3" "100"
      [true] [true; true; true; true; true; true; false].

(** The distributors that [add_distributor] stores from the two screens. *)
Definition demo_distributor : distributor :=
  Distributor_ "D" 2 (Py.round2 (1 # 2)) 10
    [true; true; true; true; true; true; false; true; true; true] ["P"%string].

Definition tiny_distributor : distributor :=
  Distributor_ "D" 2 (Py.round2 (1 # 250)) 10
    [true; true; true; true; true; true; false; true; true; true] ["P"%string].

(** The screen [demo_app] after [add_distributor]. *)
Definition demo_configured : app :=
  App [("P"%string, Product_ 3 {[1 := 100%Q]})] [demo_distributor] (1 # 100) 10
      "P" "3" "" "1" "0.15" "10" "P" "3" "100"
      [false] [true; true; true; true; true; true; false].

(** The screen [tiny_app] after [add_distributor]. *)
Definition tiny_configured : app :=
  App [("P"%string, Product_ 3 {[1 := 100%Q]})] [tiny_distributor] (1 # 100) 10
      "P" "3" "" "1" "0.15" "10" "P" "3" "100"
      [false] [true; true; true; true; true; true; false].

(** The screen [demo_app] after [add_product], and after [add_production]. *)
Definition demo_readded : app :=
  App [("P"%string, Product_ 3 ∅)] [] (1 # 100) 10
      "" "" "D" "2" "0.5" "10" "P" "3" "100"
      [false] [true; true; true; true; true; true; false].

Definition demo_planned : app :=
  App [("P"%string, Product_ 3 (<[3 := 100%Q]> {[1 := 100%Q]}))] [] (1 # 100) 10
      "P" "3" "D" "2" "0.5" "10" "P" "" ""
      [true] [true; true; true; true; true; true; false].

(** Other products and another transport rate with the distributor of
    [demo_configured]. *)
Definition other_configured : app :=
  App [("Q"%string, Product_ 5 {[2 := 7%Q]}); ("R"%string, Product_ 1 ∅)]
      [demo_distributor] (1 # 2) 10
      "" "" "" "1" "0.15" "10" "Q" "" ""
      [false; false] [true; true; true; true; true; true; false].

(** ** Facts about the Python primitives *)

Lemma ltb_true (a b : Q) : Py.ltb a b = true ↔ (a < b)%Q.
Proof.
  unfold Py.ltb. rewrite negb_true_iff, <- not_true_iff_false, Qle_bool_iff.
  split; [apply Qnot_le_lt | apply Qlt_not_le].
Qed.

Lemma ltb_false (a b : Q) : Py.ltb a b = false ↔ (b <= a)%Q.
Proof.
  unfold Py.ltb. rewrite negb_false_iff. apply Qle_bool_iff.
Qed.

Lemma round_nonneg (x : Q) : (0 <= x)%Q → 0 ≤ Py.round x.
Proof.
  intros Hx. unfold Py.round.
  assert (0 ≤ Qfloor x) by (change 0 with (Qfloor 0); by apply Qfloor_resp_le).
  destruct (_ ?= _)%Q; [destruct (Z.even _) | |]; lia.
Qed.

Lemma round_pos_inv (x : Q) : 0 < Py.round x → (0 < x)%Q.
Proof.
  unfold Py.round. intros Hr.
  destruct (Qlt_le_dec 0 x) as [|Hx]; [done|exfalso].
  assert (Qfloor x ≤ 0) by (change 0 with (Qfloor 0); by apply Qfloor_resp_le).
  destruct (Z.eq_dec (Qfloor x) 0) as [E|E].
  - rewrite E in Hr. simpl in Hr.
    assert (x - inject_Z 0 < 1 # 2)%Q as Hlt.
    { unfold inject_Z. lra. }
    rewrite Qlt_alt in Hlt. rewrite Hlt in Hr. lia.
  - destruct (_ ?= _)%Q; [destruct (Z.even _) | |]; lia.
Qed.

Lemma round_inject_Z (n : Z) : Py.round (inject_Z n) = n.
Proof.
  unfold Py.round. rewrite Qfloor_Z.
  assert (inject_Z n - inject_Z n < 1 # 2)%Q as Hlt by lra.
  rewrite Qlt_alt in Hlt. by rewrite Hlt.
Qed.

Lemma int_zero (x : Q) : (x == 0)%Q → Py.int x = 0.
Proof.
  unfold Py.int, Qeq. simpl. intros H.
  replace (Qnum x) with 0 by lia. apply Z.quot_0_l. lia.
Qed.

Lemma min3_le_1 (a b c : Q) : (Py.min3 a b c <= a)%Q.
Proof. unfold Py.min3. eapply Qle_trans; [apply Q.le_min_l|apply Q.le_min_l]. Qed.

Lemma min3_le_2 (a b c : Q) : (Py.min3 a b c <= b)%Q.
Proof. unfold Py.min3. eapply Qle_trans; [apply Q.le_min_l|apply Q.le_min_r]. Qed.

Lemma min3_le_3 (a b c : Q) : (Py.min3 a b c <= c)%Q.
Proof. unfold Py.min3. apply Q.le_min_r. Qed.

Lemma min3_glb (a b c m : Q) : (m <= a → m <= b → m <= c → m <= Py.min3 a b c)%Q.
Proof. intros. unfold Py.min3. by repeat apply Q.min_glb. Qed.

Lemma min3_glb_lt (a b c m : Q) : (m < a → m < b → m < c → m < Py.min3 a b c)%Q.
Proof. intros. unfold Py.min3. by repeat apply Q.min_glb_lt. Qed.

Lemma sum_snoc (l : list Q) (x : Q) : Py.sum (l ++ [x]) = (Py.sum l + x)%Q.
Proof. unfold Py.sum. by rewrite foldl_app. Qed.

Lemma foldl_Qplus_acc (l : list Q) (a : Q) : (foldl Qplus a l == a + Py.sum l)%Q.
Proof.
  unfold Py.sum. revert a. induction l as [|x l IH]; intros a; simpl.
  - lra.
  - rewrite (IH (a + x)%Q), (IH (0 + x)%Q). lra.
Qed.

Lemma sum_cons (x : Q) (l : list Q) : (Py.sum (x :: l) == x + Py.sum l)%Q.
Proof. unfold Py.sum at 1. simpl. rewrite foldl_Qplus_acc. lra. Qed.

Lemma sum_app (l1 l2 : list Q) : (Py.sum (l1 ++ l2) == Py.sum l1 + Py.sum l2)%Q.
Proof.
  unfold Py.sum at 1. rewrite foldl_app. apply foldl_Qplus_acc.
Qed.

Lemma sum_nonneg (l : list Q) : Forall (λ x, 0 <= x)%Q l → (0 <= Py.sum l)%Q.
Proof.
  induction 1 as [|x l Hx _ IH]; [done|]. rewrite sum_cons. lra.
Qed.

Lemma sum_fmap_le {A} (f g : A → Q) (l : list A) :
  (∀ a, a ∈ l → (f a <= g a)%Q) → (Py.sum (f <$> l) <= Py.sum (g <$> l))%Q.
Proof.
  induction l as [|a l IH]; intros H; [apply Qle_refl|].
  rewrite !fmap_cons, !sum_cons.
  assert (f a <= g a)%Q by (apply H; by left).
  assert (Py.sum (f <$> l) <= Py.sum (g <$> l))%Q by (apply IH; intros; apply H; by right).
  lra.
Qed.

Lemma sum_zero_inv (l : list Q) :
  Forall (λ x, 0 <= x)%Q l → (Py.sum l <= 0)%Q → Forall (λ x, x == 0)%Q l.
Proof.
  induction 1 as [|x l Hx Hl IH]; [constructor|].
  rewrite sum_cons. intros Hs. pose proof (sum_nonneg l Hl).
  constructor; [lra|apply IH; lra].
Qed.

Section SortedFacts.
Context {A : Type} (key : A → Z).

Lemma insert_by_Permutation (x : A) (l : list A) : Py.insert_by key x l ≡ₚ x :: l.
Proof.
  induction l as [|y l IH]; simpl; [done|].
  case_match; [done|]. rewrite IH. apply Permutation_swap.
Qed.

Lemma sorted_Permutation (l : list A) : Py.sorted key l ≡ₚ l.
Proof.
  induction l as [|x l IH]; simpl; [done|].
  by rewrite insert_by_Permutation, IH.
Qed.

Lemma elem_of_sorted (x : A) (l : list A) : x ∈ Py.sorted key l ↔ x ∈ l.
Proof. by rewrite sorted_Permutation. Qed.

Lemma insert_by_Sorted (x : A) (l : list A) :
  Sorted (λ a b, key a ≤ key b) l → Sorted (λ a b, key a ≤ key b) (Py.insert_by key x l).
Proof.
  induction 1 as [|y l Hl IH Hy]; simpl.
  - repeat constructor.
  - destruct (Z.leb_spec (key x) (key y)).
    + repeat constructor; done.
    + constructor; [done|].
      destruct Hy as [|z l Hz]; simpl; [constructor; lia|].
      case_match; constructor; lia.
Qed.

Lemma sorted_Sorted (l : list A) : Sorted (λ a b, key a ≤ key b) (Py.sorted key l).
Proof.
  induction l as [|x l IH]; simpl; [constructor|]. by apply insert_by_Sorted.
Qed.
End SortedFacts.

(** ** One visit of a distributor *)

Lemma snoc_cases {A} (l : list A) : l = [] ∨ ∃ l' x, l = l' ++ [x].
Proof.
  destruct (last l) as [x|] eqn:E.
  - right. apply last_Some in E as [l' ->]. eauto.
  - left. by apply last_None.
Qed.

Lemma foldl_step {A B} (f : A → B → A) (a : A) (x : B) (l : list B) :
  foldl f a (x :: l) = foldl f (f a x) l.
Proof. done. Qed.

Lemma sublist_elem {A} (l1 l2 : list A) (x : A) :
  l1 `sublist_of` l2 → x ∈ l1 → x ∈ l2.
Proof.
  intros Hs. induction Hs as [|y l1 l2 Hs IH|y l1 l2 Hs IH]; [done| |].
  - rewrite !elem_of_cons. intros [?|?]; [by left|right; by apply IH].
  - rewrite elem_of_cons. intros ?. right. by apply IH.
Qed.

Lemma sublist_StronglySorted {A} (R : relation A) (l1 l2 : list A) :
  l1 `sublist_of` l2 → StronglySorted R l2 → StronglySorted R l1.
Proof.
  induction 1 as [|y l1 l2 Hs IH|y l1 l2 Hs IH]; [done| |].
  - intros [H1 H2]%StronglySorted_inv. constructor; [by apply IH|].
    rewrite Forall_forall in H2 |- *. intros z Hz.
    by apply H2, (sublist_elem l1 l2).
  - intros [H1 H2]%StronglySorted_inv. by apply IH.
Qed.

Lemma but_last_snoc {A} (l : list A) (x : A) : Py.but_last (l ++ [x]) = l.
Proof. apply removelast_last. Qed.

Section VisitFacts.
Context (prod_name : string) (transport_rate : Q) (current_day : Z) (dist : distributor).

Local Abbreviation row := (purchase_row prod_name transport_rate current_day dist).
Local Abbreviation record := (record_purchase prod_name transport_rate current_day dist).
Local Abbreviation drawn := (drawn_from prod_name transport_rate current_day dist).

Lemma record_purchase_batches k share st : batches (record k share st) = batches st.
Proof. unfold record_purchase. by case_match. Qed.

Lemma record_purchase_waste k share st : waste (record k share st) = waste st.
Proof. unfold record_purchase. by case_match. Qed.

Lemma record_purchase_log k share st : inventory_log (record k share st) = inventory_log st.
Proof. unfold record_purchase. by case_match. Qed.

Lemma record_purchase_purchases k share st :
  purchases (record k share st)
  = purchases st ++ (if Py.ltb 0 share then [row k share] else []).
Proof. unfold record_purchase. case_match; simpl; [done|by rewrite app_nil_r]. Qed.

Section Shares.
Context (T : Q) (P : Z).

Local Abbreviation step := (allocate_share prod_name transport_rate current_day dist T P).

Lemma rounded_share_nonneg b :
  (0 <= T)%Q → 0 ≤ P → (0 <= current b)%Q → (0 <= rounded_share T P b)%Q.
Proof.
  intros HT HP Hb. unfold rounded_share.
  change 0%Q with (inject_Z 0). rewrite <- Zle_Qle. apply round_nonneg.
  apply Qmult_le_0_compat; [|change 0%Q with (inject_Z 0); by rewrite <- Zle_Qle].
  destruct (Qeq_dec T 0) as [E|E].
  - unfold Qdiv. rewrite E. unfold Qinv; simpl. lra.
  - apply Qle_shift_div_l; lra.
Qed.

Lemma share_bounds (HT : (0 <= T)%Q) (HP : 0 ≤ P) b rem :
  (0 <= current b)%Q → (0 <= rem)%Q →
  let share := Py.min3 (rounded_share T P b) (current b) rem in
  (0 <= share ∧ share <= current b ∧ share <= rem)%Q.
Proof.
  intros Hb Hrem share. split_and!.
  - apply min3_glb; [by apply rounded_share_nonneg|done..].
  - apply min3_le_2.
  - apply min3_le_3.
Qed.

Lemma allocate_share_eq st rem k b :
  batches st !! k = Some b →
  let share := Py.min3 (rounded_share T P b) (current b) rem in
  step (st, rem) k
  = (record k share (set_batches (<[k := set_current (current b - share) b]> (batches st)) st),
     (rem - share)%Q).
Proof. intros Hk. unfold allocate_share. by rewrite Hk. Qed.

(** The loop over [sorted_batches[:-1]]: the rows it adds, in the order of
    the batch days and each drawn from a batch of the ledger, the batches
    it leaves alone and, when nothing is negative, what is left of the
    purchase. *)
Lemma allocate_shares_spec ks : ∀ st rem,
  NoDup ks →
  (∀ k, k ∈ ks → is_Some (batches st !! k)) →
  ∃ news,
    purchases (foldl step (st, rem) ks).1 = purchases st ++ news ∧
    waste (foldl step (st, rem) ks).1 = waste st ∧
    inventory_log (foldl step (st, rem) ks).1 = inventory_log st ∧
    (Batch_Day <$> news) `sublist_of` ks ∧
    Forall (drawn (batches st)) news ∧
    (∀ k, k ∉ ks → batches (foldl step (st, rem) ks).1 !! k = batches st !! k) ∧
    ((0 <= T)%Q → 0 ≤ P → (0 <= rem)%Q →
     (∀ k b, k ∈ ks → batches st !! k = Some b → (0 <= current b)%Q) →
     ((foldl step (st, rem) ks).2 == rem - sum_quantity news)%Q ∧
     (0 <= (foldl step (st, rem) ks).2)%Q).
Proof.
  induction ks as [|k ks IH]; intros st rem Hnd Hks.
  - exists []. simpl. rewrite app_nil_r. split_and!; try done.
    intros _ _ Hrem _. unfold sum_quantity, Py.sum. simpl. split; lra.
  - apply NoDup_cons in Hnd as [Hk Hnd].
    destruct (Hks k) as (b & Hb); [left|].
    rewrite !foldl_step. rewrite allocate_share_eq with (b := b) by done.
    set (share := Py.min3 _ _ _).
    set (st1 := record k share _).
    assert (Hbs1 : batches st1 = <[k := set_current (current b - share) b]> (batches st)).
    { subst st1. by rewrite record_purchase_batches. }
    destruct (IH st1 (rem - share)%Q) as (news & Hpur & Hw & Hlog & Hsl & Hdrawn & Hother & Hrem').
    { done. }
    { intros k' Hk'. rewrite Hbs1.
      destruct (decide (k = k')) as [<-|Hne]; [by rewrite lookup_insert_eq|].
      rewrite lookup_insert_ne by done. apply Hks. by right. }
    assert (Hdrawn' : Forall (drawn (batches st)) news).
    { rewrite Forall_forall in Hdrawn |- *. intros r Hr.
      destruct (Hdrawn r Hr) as (b' & Hb' & ?). exists b'. split; [|done].
      rewrite Hbs1, lookup_insert_ne in Hb'; [done|].
      intros ->. apply Hk. apply (sublist_elem _ _ _ Hsl).
      apply list_elem_of_fmap. eauto. }
    assert (Hoth' : ∀ k', k' ∉ k :: ks →
              batches (foldl step (st1, (rem - share)%Q) ks).1 !! k' = batches st !! k').
    { intros k' Hk'. apply not_elem_of_cons in Hk' as [Hne Hk'].
      rewrite Hother, Hbs1, lookup_insert_ne by done. done. }
    assert (Hrem'' : (0 <= T)%Q → 0 ≤ P → (0 <= rem)%Q →
              (∀ k' b', k' ∈ k :: ks → batches st !! k' = Some b' → (0 <= current b')%Q) →
              (0 <= share ∧ share <= rem)%Q ∧
              ((foldl step (st1, (rem - share)%Q) ks).2 == rem - share - sum_quantity news)%Q ∧
              (0 <= (foldl step (st1, (rem - share)%Q) ks).2)%Q).
    { intros HT HP Hrem Hcur.
      assert (Hc : (0 <= current b)%Q) by (apply (Hcur k); [by left|done]).
      destruct (share_bounds HT HP b rem Hc Hrem) as (Hs0 & Hsb & Hsr).
      fold share in Hs0, Hsb, Hsr. split; [done|].
      apply Hrem'; [done..|lra|].
      intros k' b' Hk'. rewrite Hbs1.
      destruct (decide (k = k')) as [<-|Hne].
      - rewrite lookup_insert_eq. intros [= <-]. simpl. lra.
      - rewrite lookup_insert_ne by done. apply Hcur. by right. }
    subst st1. rewrite record_purchase_purchases in Hpur.
    rewrite record_purchase_waste in Hw. rewrite record_purchase_log in Hlog.
    simpl in Hpur, Hw, Hlog.
    destruct (Py.ltb 0 share) eqn:Hpos.
    + apply ltb_true in Hpos.
      exists (row k share :: news). split_and!; try done.
      * by rewrite Hpur, <- app_assoc.
      * rewrite fmap_cons. simpl. by apply sublist_skip.
      * constructor; [|done]. exists b. simpl. split_and!; try done.
        apply min3_le_2.
      * intros HT HP Hrem Hcur.
        destruct (Hrem'' HT HP Hrem Hcur) as (_ & Hr1 & Hr2). split; [|done].
        rewrite Hr1. unfold sum_quantity. rewrite fmap_cons, sum_cons. simpl. lra.
    + apply ltb_false in Hpos.
      exists news. split_and!; try done.
      * by rewrite Hpur, app_nil_r.
      * by apply sublist_cons.
      * intros HT HP Hrem Hcur.
        destruct (Hrem'' HT HP Hrem Hcur) as ((Hs0 & _) & Hr1 & Hr2). split; [|done].
        rewrite Hr1. lra.
Qed.
End Shares.
End VisitFacts.

Lemma StronglySorted_le_lt (l : list Z) :
  StronglySorted Z.le l → NoDup l → StronglySorted Z.lt l.
Proof.
  induction 1 as [|x l Hl IH Hx]; intros Hnd; [constructor|].
  apply NoDup_cons in Hnd as [Hx' Hnd]. constructor; [by apply IH|].
  rewrite Forall_forall in Hx |- *. intros y Hy.
  destruct (decide (x = y)) as [->|]; [done|]. specialize (Hx y Hy). lia.
Qed.

Section LedgerFacts.
Context (current_day policy : Z) (bs : gmap Z batch).

Local Abbreviation V := (valid_batches current_day policy bs).

Lemma valid_batches_lookup k b :
  V !! k = Some b ↔ bs !! k = Some b ∧ current_day - k < policy ∧ (0 < current b)%Q.
Proof.
  unfold valid_batches. rewrite map_lookup_filter_Some. simpl.
  by rewrite ltb_true.
Qed.

Lemma elem_of_sorted_batches (m : gmap Z batch) k :
  k ∈ sorted_batches m ↔ is_Some (m !! k).
Proof.
  unfold sorted_batches. rewrite elem_of_sorted, list_elem_of_fmap. split.
  - intros ([k' b] & -> & Hkb). apply elem_of_map_to_list in Hkb. by exists b.
  - intros [b Hb]. exists (k, b). split; [done|]. by apply elem_of_map_to_list.
Qed.

Lemma NoDup_sorted_batches (m : gmap Z batch) : NoDup (sorted_batches m).
Proof.
  unfold sorted_batches. rewrite sorted_Permutation. apply NoDup_fst_map_to_list.
Qed.

Lemma sorted_batches_ascending (m : gmap Z batch) : StronglySorted Z.lt (sorted_batches m).
Proof.
  apply StronglySorted_le_lt; [|apply NoDup_sorted_batches].
  apply Sorted_StronglySorted; [apply _|]. apply (sorted_Sorted id).
Qed.

Lemma sorted_batches_nonempty (m : gmap Z batch) : m ≠ ∅ → sorted_batches m ≠ [].
Proof.
  intros Hm Hs. apply Hm, map_to_list_empty_iff.
  unfold sorted_batches in Hs.
  pose proof (sorted_Permutation id (map_to_list m).*1) as Hp.
  rewrite Hs in Hp. apply Permutation_nil_l in Hp.
  symmetry in Hp. by apply fmap_nil_inv in Hp.
Qed.

Lemma total_available_nonneg : (0 <= total_available V)%Q.
Proof.
  unfold total_available. apply sum_nonneg.
  rewrite Forall_fmap, Forall_forall. intros [k b] Hkb. simpl.
  apply elem_of_map_to_list, valid_batches_lookup in Hkb. lra.
Qed.
End LedgerFacts.

Lemma round2_nonneg (x : Q) : (0 <= x)%Q → (0 <= Py.round2 x)%Q.
Proof.
  intros Hx. unfold Py.round2. apply Qle_shift_div_l; [lra|].
  rewrite Qmult_0_l. change 0%Q with (inject_Z 0). rewrite <- Zle_Qle.
  apply round_nonneg. lra.
Qed.

Section AllocateFacts.
Context (prod_name : string) (transport_rate : Q) (current_day : Z) (dist : distributor).

Local Abbreviation row := (purchase_row prod_name transport_rate current_day dist).
Local Abbreviation drawn := (drawn_from prod_name transport_rate current_day dist).
Local Abbreviation allocate' := (allocate prod_name transport_rate current_day dist).
Local Abbreviation shares' := (allocate_shares prod_name transport_rate current_day dist).

Lemma remove_empty_purchases ks : ∀ st,
  purchases (foldl remove_empty st ks) = purchases st ∧
  waste (foldl remove_empty st ks) = waste st ∧
  inventory_log (foldl remove_empty st ks) = inventory_log st.
Proof.
  induction ks as [|k ks IH]; intros st; [done|].
  rewrite foldl_step. destruct (IH (remove_empty st k)) as (-> & -> & ->).
  unfold remove_empty. repeat case_match; done.
Qed.

Lemma total_purchase_nonneg policy bs :
  (0 <= proportion dist)%Q →
  0 ≤ total_purchase (Py.round2 (proportion dist)) (valid_batches current_day policy bs).
Proof.
  intros Hprop. unfold total_purchase. apply round_nonneg.
  apply Qmult_le_0_compat; [by apply round2_nonneg|apply total_available_nonneg].
Qed.

(** The rows added by one allocation and, for a proportion that is not
    negative, their sum in terms of what the loop over the older batches
    leaves for the newest one. *)
Lemma allocate_spec policy st :
  let V := valid_batches current_day policy (batches st) in
  let P := total_purchase (Py.round2 (proportion dist)) V in
  let rem := (shares' V st).2 in
  V ≠ ∅ →
  ∃ kl bl news,
    last (sorted_batches V) = Some kl ∧ V !! kl = Some bl ∧
    purchases (allocate' V st) = purchases st ++ news ∧
    waste (allocate' V st) = waste st ∧
    inventory_log (allocate' V st) = inventory_log st ∧
    Forall (drawn (batches st)) news ∧
    (Batch_Day <$> news) `sublist_of` sorted_batches V ∧
    ((0 <= proportion dist)%Q →
     (0 <= rem)%Q ∧
     (sum_quantity news == inject_Z P - (rem - Qmin rem (current bl)))%Q).
Proof.
  intros V P rem HV.
  destruct (snoc_cases (sorted_batches V)) as [Hnil|(ks & kl & Hks)].
  { by apply sorted_batches_nonempty in Hnil. }
  assert (Hkl : kl ∈ sorted_batches V) by (rewrite Hks; set_solver).
  apply elem_of_sorted_batches in Hkl as [bl Hbl].
  pose proof (NoDup_sorted_batches V) as Hnd. rewrite Hks in Hnd.
  apply NoDup_app in Hnd as (Hnd & Hnotin & _).
  assert (Hin : ∀ k, k ∈ ks → ∃ b, batches st !! k = Some b ∧ (0 < current b)%Q).
  { intros k Hk.
    assert (k ∈ sorted_batches V) as [b Hb]%elem_of_sorted_batches
      by (rewrite Hks; set_solver).
    apply valid_batches_lookup in Hb as (Hb & _ & Hc). by exists b. }
  destruct (allocate_shares_spec prod_name transport_rate current_day dist
              (total_available V) P ks st (inject_Z P))
    as (news & Hpur & Hw & Hlog & Hsl & Hdrawn & Hother & Hrem); [done| |].
  { intros k Hk. destruct (Hin k Hk) as (b & Hb & _). by exists b. }
  assert (Hacc : shares' V st
                 = foldl (allocate_share prod_name transport_rate current_day dist
                            (total_available V) P) (st, inject_Z P) ks).
  { unfold allocate_shares. fold V. by rewrite Hks, but_last_snoc. }
  fold V in Hacc. subst rem. rewrite Hacc.
  set (acc := foldl _ _ ks) in *.
  pose proof Hbl as Hbl'. apply valid_batches_lookup in Hbl' as (Hbl' & _ & Hcl).
  assert (Hacc_kl : batches acc.1 !! kl = Some bl).
  { rewrite Hother; [done|]. intros Hin'. by apply (Hnotin kl Hin'), list_elem_of_singleton. }
  assert (Hrem' : (0 <= proportion dist)%Q →
            (acc.2 == inject_Z P - sum_quantity news)%Q ∧ (0 <= acc.2)%Q).
  { intros Hprop. apply Hrem.
    - apply total_available_nonneg.
    - by apply total_purchase_nonneg.
    - change 0%Q with (inject_Z 0). rewrite <- Zle_Qle. by apply total_purchase_nonneg.
    - intros k b Hk Hb. destruct (Hin k Hk) as (b' & Hb' & Hc'). simplify_eq. lra. }
  exists kl, bl.
  unfold allocate. fold V. rewrite Hacc. fold acc. rewrite Hks, last_snoc.
  destruct (remove_empty_purchases (map_to_list V).*1
              (allocate_last prod_name transport_rate current_day dist acc kl))
    as (-> & -> & ->).
  unfold allocate_last. destruct acc as [st1 rem1] eqn:Eacc. simpl in *.
  rewrite Hacc_kl. rewrite record_purchase_purchases, record_purchase_waste, record_purchase_log.
  simpl. rewrite Hpur, <- app_assoc.
  destruct (Py.ltb 0 (Qmin rem1 (current bl))) eqn:Hpos.
  - apply ltb_true in Hpos. exists (news ++ [row kl (Qmin rem1 (current bl))]).
    split_and!; try done.
    + apply Forall_app. split; [done|]. constructor; [|done].
      exists bl. simpl. split_and!; try done. apply Q.le_min_r.
    + rewrite fmap_app. simpl. by apply sublist_app.
    + intros Hprop. destruct (Hrem' Hprop) as [Hr1 Hr2]. split; [done|].
      unfold sum_quantity in *. rewrite fmap_app, sum_app. simpl.
      rewrite sum_cons. unfold Py.sum at 2. simpl. lra.
  - apply ltb_false in Hpos. exists news. rewrite app_nil_r.
    split_and!; try done.
    + by apply sublist_inserts_r.
    + intros Hprop. destruct (Hrem' Hprop) as [Hr1 Hr2]. split; [done|].
      assert (0 <= Qmin rem1 (current bl))%Q by (apply Q.min_glb; lra). lra.
Qed.
End AllocateFacts.

(** ** The ledger invariant *)

Lemma purchased_snoc st st' r d :
  purchases st' = purchases st ++ [r] →
  (purchased st' d == purchased st d + (if decide (Batch_Day r = d) then Quantity r else 0))%Q.
Proof.
  intros E. unfold purchased, sum_quantity. rewrite E, filter_app, fmap_app, sum_app.
  rewrite filter_cons, filter_nil. case_decide; simpl.
  - unfold Py.sum at 2. simpl. lra.
  - unfold Py.sum at 2. simpl. lra.
Qed.

Lemma purchased_none st d :
  (∀ r, r ∈ purchases st → Batch_Day r ≠ d) → (purchased st d == 0)%Q.
Proof.
  intros H. unfold purchased.
  replace (filter _ (purchases st)) with (@nil purchase); [done|].
  symmetry. induction (purchases st) as [|r l IH]; [done|].
  rewrite filter_cons_False; [|apply H; by left].
  apply IH. intros r' Hr'. apply H. by right.
Qed.

Section InvariantSteps.
Context (prod_name : string) (prod_data : product) (transport_rate : Q).

Local Abbreviation inv := (ledger_inv prod_data).

Lemma ledger_inv_log n d ph st : inv n st → inv n (log_inventory d ph st).
Proof. done. Qed.

Lemma produced_succ n d : 0 ≤ n →
  produced prod_data (n + 1) d
  = if decide (d = n + 1)
    then match production_plan prod_data !! d with
         | Some qty => if Py.ltb 0 qty then qty else 0%Q
         | None => 0%Q
         end
    else produced prod_data n d.
Proof.
  intros Hn. unfold produced. case_decide as Hd.
  - subst d. rewrite bool_decide_eq_true_2 by lia. done.
  - destruct (decide (1 ≤ d ≤ n)).
    + rewrite !bool_decide_eq_true_2 by lia. done.
    + rewrite !bool_decide_eq_false_2 by lia. done.
Qed.

Lemma produced_later n d : n < d → produced prod_data n d = 0%Q.
Proof. intros. unfold produced. by rewrite bool_decide_eq_false_2 by lia. Qed.

Lemma ledger_inv_add_batch n st :
  0 ≤ n → inv n st → inv (n + 1) (add_batch prod_data (n + 1) st).
Proof.
  intros Hn ((Hb & Hc) & Hk & Hw & Hr).
  assert (Hfresh : batches st !! (n + 1) = None).
  { destruct (batches st !! (n + 1)) eqn:E; [|done]. apply Hk in E. lia. }
  assert (Hwfresh : waste st !! (n + 1) = None).
  { destruct (waste st !! (n + 1)) eqn:E; [|done]. apply Hw in E. lia. }
  assert (Hpfresh : (purchased st (n + 1) == 0)%Q).
  { apply purchased_none. intros r Hr' E. apply Hr in Hr'. lia. }
  unfold add_batch.
  destruct (production_plan prod_data !! (n + 1)) as [qty|] eqn:Eplan;
    [destruct (Py.ltb 0 qty) eqn:Epos|].
  - pose proof Epos as Hqty. apply ltb_true in Hqty.
    unfold ledger_inv, conserved. split_and!; simpl.
    + intros d b. rewrite produced_succ by done.
      destruct (decide (d = n + 1)) as [->|Hne].
      * rewrite lookup_insert_eq. intros [= <-]. simpl.
        rewrite Eplan, Epos. lra.
      * rewrite lookup_insert_ne by done. apply Hb.
    + intros d. unfold wasted, remaining, purchased in *. simpl.
      rewrite produced_succ by done.
      destruct (decide (d = n + 1)) as [->|Hne].
      * rewrite lookup_insert_eq, Hwfresh, Eplan. simpl.
        rewrite Epos, Hpfresh. lra.
      * rewrite lookup_insert_ne by done. apply Hc.
    + intros d b. destruct (decide (d = n + 1)) as [->|Hne].
      * intros _. split; [lia|done].
      * rewrite lookup_insert_ne by done. intros H%Hk. split; [lia|tauto].
    + intros d q H%Hw. lia.
    + intros r H%Hr. lia.
  - unfold ledger_inv, conserved. split_and!.
    + intros d b Hd. rewrite produced_succ by done.
      destruct (decide (d = n + 1)) as [->|Hne]; [congruence|by apply Hb].
    + intros d. rewrite produced_succ by done.
      destruct (decide (d = n + 1)) as [->|Hne]; [|apply Hc].
      rewrite Eplan, Epos. rewrite <- (produced_later n (n + 1)) by lia. apply Hc.
    + intros d b H%Hk. split; [lia|tauto].
    + intros d q H%Hw. lia.
    + intros r H%Hr. lia.
  - unfold ledger_inv, conserved. split_and!.
    + intros d b Hd. rewrite produced_succ by done.
      destruct (decide (d = n + 1)) as [->|Hne]; [congruence|by apply Hb].
    + intros d. rewrite produced_succ by done.
      destruct (decide (d = n + 1)) as [->|Hne]; [|apply Hc].
      rewrite Eplan. rewrite <- (produced_later n (n + 1)) by lia. apply Hc.
    + intros d b H%Hk. split; [lia|tauto].
    + intros d q H%Hw. lia.
    + intros r H%Hr. lia.
Qed.

Lemma ledger_inv_expire_one n st k : inv n st → inv n (expire_one st k).
Proof.
  intros ((Hb & Hc) & Hk & Hw & Hr). unfold expire_one.
  destruct (batches st !! k) as [b|] eqn:Ek; [|done].
  destruct (Hk k b Ek) as [Hkn Hwk].
  unfold ledger_inv, conserved. split_and!; simpl.
  - intros d b'. destruct (decide (d = k)) as [->|Hne].
    + by rewrite lookup_delete_eq.
    + rewrite lookup_delete_ne by done. apply Hb.
  - intros d. specialize (Hc d). unfold wasted, remaining, purchased in *. simpl.
    destruct (decide (d = k)) as [->|Hne].
    + rewrite lookup_insert_eq, lookup_delete_eq. rewrite Hwk, Ek in Hc. simpl in *. lra.
    + rewrite lookup_insert_ne, lookup_delete_ne by done. done.
  - intros d b'. destruct (decide (d = k)) as [->|Hne].
    + by rewrite lookup_delete_eq.
    + rewrite lookup_delete_ne, lookup_insert_ne by done. apply Hk.
  - intros d q. destruct (decide (d = k)) as [->|Hne].
    + intros _. lia.
    + rewrite lookup_insert_ne by done. apply Hw.
  - done.
Qed.

Lemma ledger_inv_expire n d st : inv n st → inv n (expire d st).
Proof.
  unfold expire. generalize (expired_days d (batches st)). intros ks. revert st.
  induction ks as [|k ks IH]; intros st Hst; [done|].
  rewrite foldl_step. by apply IH, ledger_inv_expire_one.
Qed.
End InvariantSteps.

Section InvariantVisit.
Context (prod_name : string) (prod_data : product) (transport_rate : Q).
Context (current_day : Z) (dist : distributor).

Local Abbreviation inv := (ledger_inv prod_data).
Local Abbreviation record := (record_purchase prod_name transport_rate current_day dist).

Lemma purchased_record k share st d :
  (0 <= share)%Q →
  (purchased (record k share st) d
   == purchased st d + (if decide (k = d) then share else 0))%Q.
Proof.
  intros Hs. unfold record_purchase. destruct (Py.ltb 0 share) eqn:E.
  - erewrite purchased_snoc; [|done]. simpl. done.
  - apply ltb_false in E. case_decide; lra.
Qed.

Lemma elem_of_purchases_record k share st r :
  r ∈ purchases (record k share st) → r ∈ purchases st ∨ Batch_Day r = k.
Proof.
  rewrite record_purchase_purchases. case_match.
  - rewrite elem_of_app, list_elem_of_singleton. intros [?|E]; [by left|right; by subst r].
  - rewrite app_nil_r. by left.
Qed.

(** Drawing [share] from the batch of day [k] keeps the invariant. *)
Lemma ledger_inv_draw n st k b share :
  inv n st → batches st !! k = Some b → (0 <= share)%Q → (share <= current b)%Q →
  inv n (record k share
           (set_batches (<[k := set_current (current b - share) b]> (batches st)) st)).
Proof.
  intros ((Hb & Hc) & Hk & Hw & Hr) Ek Hs0 Hsb.
  destruct (Hb k b Ek) as (Hb0 & Hbi & Hbp). destruct (Hk k b Ek) as [Hkn Hwk].
  unfold ledger_inv, conserved. split_and!.
  - intros d b'. rewrite record_purchase_batches. simpl.
    destruct (decide (k = d)) as [<-|Hne].
    + rewrite lookup_insert_eq. intros [= <-]. simpl. lra.
    + rewrite lookup_insert_ne by done. apply Hb.
  - intros d. specialize (Hc d). rewrite purchased_record by done.
    unfold wasted, remaining in *.
    rewrite record_purchase_waste, record_purchase_batches. simpl.
    change (purchased (set_batches _ st) d) with (purchased st d).
    destruct (decide (k = d)) as [<-|Hne].
    + rewrite lookup_insert_eq. rewrite Ek in Hc. simpl in *. lra.
    + rewrite lookup_insert_ne by done. lra.
  - intros d b'. rewrite record_purchase_batches, record_purchase_waste. simpl.
    destruct (decide (k = d)) as [<-|Hne].
    + by rewrite lookup_insert_eq.
    + rewrite lookup_insert_ne by done. apply Hk.
  - intros d q. rewrite record_purchase_waste. apply Hw.
  - intros r [Hr'|E]%elem_of_purchases_record; [by apply Hr|lia].
Qed.

Section Shares.
Context (T : Q) (P : Z) (HT : (0 <= T)%Q) (HP : 0 ≤ P).

Local Abbreviation step := (allocate_share prod_name transport_rate current_day dist T P).

Lemma ledger_inv_allocate_share n st rem k :
  inv n st → (0 <= rem)%Q →
  inv n (step (st, rem) k).1 ∧ (0 <= (step (st, rem) k).2)%Q.
Proof.
  intros Hinv Hrem. destruct (batches st !! k) as [b|] eqn:Ek.
  - rewrite (allocate_share_eq _ _ _ _ T P st rem k b Ek). simpl.
    destruct Hinv as ((Hb & Hc) & Hrest). destruct (Hb k b Ek) as (Hb0 & _).
    destruct (share_bounds T P HT HP b rem Hb0 Hrem) as (Hs0 & Hsb & Hsr).
    split; [|lra]. apply ledger_inv_draw; done.
  - unfold allocate_share. by rewrite Ek.
Qed.

Lemma ledger_inv_allocate_shares n ks : ∀ st rem,
  inv n st → (0 <= rem)%Q →
  inv n (foldl step (st, rem) ks).1 ∧ (0 <= (foldl step (st, rem) ks).2)%Q.
Proof.
  induction ks as [|k ks IH]; intros st rem Hinv Hrem; [done|].
  rewrite foldl_step.
  destruct (ledger_inv_allocate_share n st rem k Hinv Hrem) as [H1 H2].
  destruct (step (st, rem) k) as [st1 rem1]. by apply IH.
Qed.
End Shares.

Lemma ledger_inv_allocate_last n st rem k :
  inv n st → (0 <= rem)%Q →
  inv n (allocate_last prod_name transport_rate current_day dist (st, rem) k).
Proof.
  intros Hinv Hrem. unfold allocate_last.
  destruct (batches st !! k) as [b|] eqn:Ek; [|done].
  pose proof Hinv as ((Hb & Hc) & Hrest). destruct (Hb k b Ek) as (Hb0 & _).
  apply ledger_inv_draw; [done..| |apply Q.le_min_r].
  apply Q.min_glb; lra.
Qed.

Lemma ledger_inv_remove_empty n st k : inv n st → inv n (remove_empty st k).
Proof.
  intros ((Hb & Hc) & Hk & Hw & Hr). unfold remove_empty.
  destruct (batches st !! k) as [b|] eqn:Ek; [|done].
  destruct (Qle_bool (current b) 0) eqn:E; [|done].
  apply Qle_bool_iff in E. destruct (Hb k b Ek) as (Hb0 & _).
  unfold ledger_inv, conserved. split_and!; simpl; [| |  |done..].
  - intros d b'. destruct (decide (d = k)) as [->|Hne].
    + by rewrite lookup_delete_eq.
    + rewrite lookup_delete_ne by done. apply Hb.
  - intros d. specialize (Hc d). unfold wasted, remaining in *. simpl.
    change (purchased (set_batches _ st) d) with (purchased st d).
    destruct (decide (d = k)) as [->|Hne].
    + rewrite lookup_delete_eq. rewrite Ek in Hc. simpl in *. lra.
    + rewrite lookup_delete_ne by done. done.
  - intros d b'. destruct (decide (d = k)) as [->|Hne].
    + by rewrite lookup_delete_eq.
    + rewrite lookup_delete_ne by done. apply Hk.
Qed.

Lemma ledger_inv_remove_empties n ks : ∀ st, inv n st → inv n (foldl remove_empty st ks).
Proof.
  induction ks as [|k ks IH]; intros st Hst; [done|].
  rewrite foldl_step. by apply IH, ledger_inv_remove_empty.
Qed.

Lemma ledger_inv_process_distributor n st :
  (0 <= proportion dist)%Q → inv n st →
  inv n (process_distributor prod_name transport_rate current_day dist st).
Proof.
  intros Hprop Hinv. unfold process_distributor.
  repeat case_match; try done.
  unfold allocate. apply ledger_inv_remove_empties.
  unfold allocate_shares.
  set (V := valid_batches _ _ _). set (T := total_available V).
  set (P := total_purchase _ V).
  assert (HT : (0 <= T)%Q) by apply total_available_nonneg.
  assert (HP : 0 ≤ P) by by apply total_purchase_nonneg.
  destruct (ledger_inv_allocate_shares T P HT HP n (Py.but_last (sorted_batches V))
              st (inject_Z P) Hinv) as [Hi1 Hi2].
  { change 0%Q with (inject_Z 0). by rewrite <- Zle_Qle. }
  destruct (foldl _ _ _) as [st1 rem1]. simpl in *.
  destruct (last (sorted_batches V)); [|done].
  by apply ledger_inv_allocate_last.
Qed.
End InvariantVisit.

(** ** The day loop *)

Lemma days_succ (n : Z) : 0 ≤ n → days (n + 1) = days n ++ [n + 1].
Proof.
  intros Hn. unfold days, Py.range.
  replace (n + 1 + 1 - 1) with (n + 1) by lia. replace (n + 1 - 1) with n by lia.
  rewrite seqZ_app by lia.
  rewrite (seqZ_cons (1 + n)) by lia. rewrite (seqZ_nil (Z.succ (1 + n))) by lia.
  by rewrite (Z.add_comm 1 n).
Qed.

Lemma elem_of_days (n d : Z) : d ∈ days n ↔ 1 ≤ d ≤ n.
Proof. unfold days, Py.range. rewrite elem_of_seqZ. split; lia. Qed.

Section DayLoopFacts.
Context (prod_name : string) (prod_data : product) (transport_rate : Q).
Context (distributors : list distributor).

Local Abbreviation loop := (day_loop prod_name prod_data transport_rate distributors).
Local Abbreviation visits' := (visits prod_name transport_rate).

Lemma day_loop_succ n ttc : 0 ≤ n →
  loop (n + 1) ttc
  = day_step prod_name prod_data transport_rate distributors (loop n ttc) (n + 1).
Proof. intros Hn. unfold day_loop. by rewrite days_succ, foldl_app. Qed.

Lemma ledger_inv_visits n day ds : ∀ st,
  Forall (λ d, 0 <= proportion d)%Q ds →
  ledger_inv prod_data n st → ledger_inv prod_data n (visits' day ds st).
Proof.
  induction ds as [|dist ds IH]; intros st Hds Hst; [done|].
  apply Forall_cons in Hds as [Hd Hds]. unfold visits. rewrite foldl_step.
  apply IH; [done|]. by apply ledger_inv_process_distributor.
Qed.

Lemma sorted_distributors_nonneg :
  Forall (λ d, 0 <= proportion d)%Q distributors →
  Forall (λ d, 0 <= proportion d)%Q (sorted_distributors distributors).
Proof. unfold sorted_distributors. by rewrite sorted_Permutation. Qed.

Lemma ledger_inv_day_loop n ttc :
  Forall (λ d, 0 <= proportion d)%Q distributors →
  0 ≤ n → ledger_inv prod_data n (loop n ttc).
Proof.
  intros Hds Hn. revert n Hn. apply natlike_ind.
  - unfold day_loop, days. simpl. unfold ledger_inv, conserved. split_and!; try done.
    + intros d. unfold produced, wasted, purchased, remaining. simpl.
      rewrite bool_decide_eq_false_2 by lia. done.
    + simpl. intros r Hr. by apply elem_of_nil in Hr.
  - intros n Hn IH. change (Z.succ n) with (n + 1). rewrite day_loop_succ by done.
    unfold day_step. apply ledger_inv_log, ledger_inv_visits.
    { by apply sorted_distributors_nonneg. }
    apply ledger_inv_expire, ledger_inv_log. by apply ledger_inv_add_batch.
Qed.
End DayLoopFacts.

(** ** Where the purchase rows come from *)

Lemma new_purchases_app (st st' : sim_state) (news : list purchase) :
  purchases st' = purchases st ++ news → new_purchases st st' = news.
Proof. intros E. unfold new_purchases. by rewrite E, drop_app_length. Qed.

Section VisitRows.
Context (prod_name : string) (transport_rate : Q) (current_day : Z) (dist : distributor).

Local Abbreviation process := (process_distributor prod_name transport_rate current_day dist).
Local Abbreviation drawn := (drawn_from prod_name transport_rate current_day dist).

(** The rows of one visit: each drawn from a valid batch of the ledger, in
    ascending order of the batch day, and none unless the distributor carries
    the product and buys today. *)
Lemma visit_rows st :
  let V := valid_batches current_day (policy_days dist) (batches st) in
  let news := new_purchases st (process st) in
  purchases (process st) = purchases st ++ news ∧
  Forall (drawn (batches st)) news ∧
  (Batch_Day <$> news) `sublist_of` sorted_batches V ∧
  (news ≠ [] →
   prod_name ∈ preferred_products dist ∧ closed_today dist current_day = false ∧
   V ≠ ∅ ∧ process st = allocate prod_name transport_rate current_day dist V st).
Proof.
  intros V news.
  assert (Hskip : process st = st →
    purchases (process st) = purchases st ++ news ∧
    Forall (drawn (batches st)) news ∧
    (Batch_Day <$> news) `sublist_of` sorted_batches V ∧
    (news ≠ [] →
     prod_name ∈ preferred_products dist ∧ closed_today dist current_day = false ∧
     V ≠ ∅ ∧ process st = allocate prod_name transport_rate current_day dist V st)).
  { intros E. assert (Hn : news = []).
    { subst news. apply new_purchases_app. by rewrite E, app_nil_r. }
    rewrite Hn, E, app_nil_r. split_and!; [done|constructor|apply sublist_nil_l|done]. }
  unfold process_distributor in *.
  destruct (bool_decide (prod_name ∈ preferred_products dist)) eqn:Epref; simpl in *;
    [apply bool_decide_eq_true in Epref|by apply Hskip].
  destruct (closed_today dist current_day) eqn:Eclosed; [by apply Hskip|].
  fold V in Hskip |- *. fold V in news.
  destruct (bool_decide (V = ∅)) eqn:EV; [by apply Hskip|].
  apply bool_decide_eq_false in EV.
  destruct (allocate_spec prod_name transport_rate current_day dist (policy_days dist) st EV)
    as (kl & bl & news' & _ & _ & Hpur & _ & _ & Hdrawn & Hsl & _).
  fold V in Hpur, Hsl.
  assert (Hn : news = news') by (subst news; by apply new_purchases_app).
  rewrite Hn. done.
Qed.

Lemma emitted_process distributors n st :
  1 ≤ current_day ≤ n → dist ∈ distributors →
  Forall (emitted prod_name transport_rate distributors n) (purchases st) →
  Forall (emitted prod_name transport_rate distributors n) (purchases (process st)).
Proof.
  intros Hday Hdist Hst.
  destruct (visit_rows st) as (-> & Hdrawn & Hsl & Hopen).
  apply Forall_app. split; [done|].
  set (news := new_purchases st (process st)) in *.
  rewrite Forall_forall in Hdrawn |- *. intros r Hr.
  destruct Hopen as (Hpref & Hclosed & _); [by intros E; rewrite E in Hr; apply elem_of_nil in Hr|].
  destruct (Hdrawn r Hr) as (b & _ & Hq & _ & Er).
  assert (Hk : Batch_Day r ∈ sorted_batches
                 (valid_batches current_day (policy_days dist) (batches st))).
  { apply (sublist_elem _ _ _ Hsl), list_elem_of_fmap. eauto. }
  apply elem_of_sorted_batches in Hk as [b' Hb'].
  apply valid_batches_lookup in Hb' as (_ & Hage & _).
  exists current_day, dist, (Batch_Day r), (Quantity r). done.
Qed.
End VisitRows.

Section RunRows.
Context (prod_name : string) (prod_data : product) (transport_rate : Q).
Context (distributors : list distributor).

Local Abbreviation emitted' := (emitted prod_name transport_rate distributors).

Lemma purchases_add_batch d st : purchases (add_batch prod_data d st) = purchases st.
Proof. unfold add_batch. by repeat case_match. Qed.

Lemma purchases_expire d st : purchases (expire d st) = purchases st.
Proof.
  unfold expire. generalize (expired_days d (batches st)). intros ks. revert st.
  induction ks as [|k ks IH]; intros st; [done|].
  rewrite foldl_step, IH. unfold expire_one. by case_match.
Qed.

Lemma emitted_visits n day ds : ∀ st,
  1 ≤ day ≤ n → ds ⊆ distributors →
  Forall (emitted' n) (purchases st) →
  Forall (emitted' n) (purchases (visits prod_name transport_rate day ds st)).
Proof.
  induction ds as [|dist ds IH]; intros st Hday Hds Hst; [done|].
  unfold visits. rewrite foldl_step. apply IH; [done|intros d Hd; apply Hds; by right|].
  apply emitted_process; [done|apply Hds; by left|done].
Qed.

Lemma emitted_day_step n day st :
  1 ≤ day ≤ n →
  Forall (emitted' n) (purchases st) →
  Forall (emitted' n)
         (purchases (day_step prod_name prod_data transport_rate distributors st day)).
Proof.
  intros Hday Hst. unfold day_step. simpl. apply emitted_visits; [done| |].
  - intros d. unfold sorted_distributors. by rewrite elem_of_sorted.
  - rewrite purchases_expire. simpl. by rewrite purchases_add_batch.
Qed.

Lemma emitted_day_loop n ttc :
  Forall (emitted' n)
         (purchases (day_loop prod_name prod_data transport_rate distributors n ttc)).
Proof.
  unfold day_loop.
  assert (Hl : ∀ d, d ∈ days n → 1 ≤ d ≤ n) by (intros d; by rewrite elem_of_days).
  assert (H0 : Forall (emitted' n) (purchases (initial_state ttc))) by constructor.
  revert Hl H0. generalize (initial_state ttc). generalize (days n).
  intros l. induction l as [|d l IH]; intros st Hl Hst; [done|].
  rewrite foldl_step. apply IH; [intros d' Hd'; apply Hl; by right|].
  apply emitted_day_step; [apply Hl; by left|done].
Qed.
End RunRows.

(** Every entry of [all_results] holds the tables of the day loop of one of
    the products. *)
Lemma run_simulation_results (self : supply_chain) :
  Forall (λ pr, ∃ prod_data ttc,
            (pr.1, prod_data) ∈ self_products self ∧
            pr.2 = product_tables pr.1 prod_data (self_sim_days_override self)
                     (day_loop pr.1 prod_data (self_transport_rate self)
                               (self_distributors self) (self_sim_days_override self) ttc))
         (self_all_results (run_simulation self)).
Proof.
  unfold run_simulation.
  assert (H : ∀ items acc,
    items ⊆ self_products self →
    Forall (λ pr, ∃ prod_data ttc,
            (pr.1, prod_data) ∈ self_products self ∧
            pr.2 = product_tables pr.1 prod_data (self_sim_days_override self)
                     (day_loop pr.1 prod_data (self_transport_rate self)
                               (self_distributors self) (self_sim_days_override self) ttc))
           acc.1 →
    Forall (λ pr, ∃ prod_data ttc,
            (pr.1, prod_data) ∈ self_products self ∧
            pr.2 = product_tables pr.1 prod_data (self_sim_days_override self)
                     (day_loop pr.1 prod_data (self_transport_rate self)
                               (self_distributors self) (self_sim_days_override self) ttc))
           (foldl (simulate_product self) acc items).1).
  { induction items as [|[prod_name prod_data] items IH]; intros acc Hsub Hacc; [done|].
    rewrite foldl_step. apply IH; [set_solver|].
    simpl. apply Forall_app. split; [done|]. constructor; [|done].
    exists prod_data, acc.2. simpl. split; [set_solver|done]. }
  specialize (H (self_products self) ([], 0%Q)).
  destruct (foldl _ _ _) as [results ttc]. simpl in *. apply H; [done|constructor].
Qed.


Lemma closed_today_false (dist : distributor) (day : Z) :
  closed_today dist day = false →
  day mod 7 ≠ 0 ∧ purchase_days dist !! Z.to_nat (day - 1) = Some true.
Proof.
  unfold closed_today. rewrite !orb_false_iff, negb_false_iff.
  intros [[_ Hday] Hmod]. split; [by apply Z.eqb_neq|].
  by destruct (purchase_days dist !! Z.to_nat (day - 1)) as [[]|].
Qed.

(** C7 (closure days and calendar).  Every purchase row of every product of a
    run was bought on a day that is not a multiple of 7 and that the purchase
    calendar of a distributor of the row's name marks true. *)
Theorem no_purchase_when_closed (self : supply_chain) :
  Forall (λ pr, Forall (bought_on_open_day (self_distributors self)) (r_purchases pr.2))
         (self_all_results (run_simulation self)).
Proof.
  eapply Forall_impl; [apply run_simulation_results|].
  intros [prod_name res] (prod_data & ttc & _ & ->). simpl.
  eapply Forall_impl; [apply emitted_day_loop|].
  intros r (day & dist & k & share & Hday & Hdist & _ & Hclosed & _ & _ & ->).
  apply closed_today_false in Hclosed as [Hmod Hcal].
  unfold bought_on_open_day. simpl. split_and!; [lia|done|]. by exists dist.
Qed.

(** C8 (policy window).  Every purchase row of every product of a run has a
    shelf age equal to the purchase day minus the batch day and less than the
    policy window of its distributor; and the rows written by the visit of a
    distributor are each drawn from a batch that the ledger held at the visit
    with a positive quantity, within the policy window. *)
Theorem purchases_within_policy :
  (∀ self : supply_chain,
     Forall (λ pr, Forall (within_policy (self_distributors self)) (r_purchases pr.2))
            (self_all_results (run_simulation self))) ∧
  (∀ prod_name transport_rate current_day dist st,
     Forall (valid_at_allocation current_day dist (batches st))
            (new_purchases st
               (process_distributor prod_name transport_rate current_day dist st))).
Proof.
  split.
  - intros self. eapply Forall_impl; [apply run_simulation_results|].
    intros [prod_name res] (prod_data & ttc & _ & ->). simpl.
    eapply Forall_impl; [apply emitted_day_loop|].
    intros r (day & dist & k & share & Hday & Hdist & _ & _ & Hage & Hpos & ->).
    unfold within_policy. simpl. split_and!; [done..|]. by exists dist.
  - intros prod_name transport_rate current_day dist st.
    destruct (visit_rows prod_name transport_rate current_day dist st)
      as (_ & Hdrawn & Hsl & _).
    set (news := new_purchases _ _) in *.
    rewrite Forall_forall in Hdrawn |- *. intros r Hr.
    destruct (Hdrawn r Hr) as (b & Hb & Hq & Hqb & Er).
    assert (Hk : Batch_Day r ∈ sorted_batches
                   (valid_batches current_day (policy_days dist) (batches st))).
    { apply (sublist_elem _ _ _ Hsl), list_elem_of_fmap. eauto. }
    apply elem_of_sorted_batches in Hk as [b' Hb'].
    apply valid_batches_lookup in Hb' as (Hb'' & Hage & Hpos).
    exists b. rewrite Er. simpl. split_and!; try done. lra.
Qed.




(** ** The order of the rows of a visit *)

Section VisitOrder.
Context (prod_name : string) (transport_rate : Q) (current_day : Z) (dist : distributor).

Local Abbreviation row := (purchase_row prod_name transport_rate current_day dist).
Local Abbreviation process := (process_distributor prod_name transport_rate current_day dist).

Lemma allocate_shares_extends T P ks : ∀ acc,
  ∃ l, purchases
         (foldl (allocate_share prod_name transport_rate current_day dist T P) acc ks).1
       = purchases acc.1 ++ l.
Proof.
  induction ks as [|k ks IH]; intros acc.
  - exists []. by rewrite app_nil_r.
  - rewrite foldl_step.
    destruct (IH (allocate_share prod_name transport_rate current_day dist T P acc k))
      as [l ->].
    destruct acc as [st rem]. unfold allocate_share.
    destruct (batches st !! k) as [b|]; [|by exists l].
    simpl. rewrite record_purchase_purchases. simpl.
    rewrite <- app_assoc. eauto.
Qed.

Lemma allocate_last_extends acc k :
  ∃ l, purchases (allocate_last prod_name transport_rate current_day dist acc k)
       = purchases acc.1 ++ l.
Proof.
  destruct acc as [st rem]. unfold allocate_last.
  destruct (batches st !! k) as [b|]; [|exists []; by rewrite app_nil_r].
  rewrite record_purchase_purchases. simpl. eauto.
Qed.

Lemma rounded_share_pos_inv T P b :
  (0 <= T)%Q → (0 <= current b)%Q → (0 < rounded_share T P b)%Q → 0 < P.
Proof.
  intros HT Hb Hs. unfold rounded_share in Hs.
  change 0%Q with (inject_Z 0) in Hs. rewrite <- Zlt_Qlt in Hs.
  apply round_pos_inv in Hs.
  destruct (Z_lt_le_dec 0 P) as [|HP]; [done|exfalso].
  assert (inject_Z P <= 0)%Q by (change 0%Q with (inject_Z 0); by rewrite <- Zle_Qle).
  assert (0 <= current b / T)%Q.
  { destruct (Qeq_dec T 0) as [E|E].
    - unfold Qdiv. rewrite E. unfold Qinv; simpl. lra.
    - apply Qle_shift_div_l; lra. }
  nra.
Qed.

(** When the share of the oldest valid batch rounds to a positive amount,
    the first row of the allocation is drawn from that batch. *)
Lemma allocate_first st policy k0 b0 :
  let V := valid_batches current_day policy (batches st) in
  head (sorted_batches V) = Some k0 → V !! k0 = Some b0 →
  (0 < rounded_share (total_available V)
         (total_purchase (Py.round2 (proportion dist)) V) b0)%Q →
  ∃ q l, (0 < q)%Q ∧
    purchases (allocate prod_name transport_rate current_day dist V st)
    = purchases st ++ row k0 q :: l.
Proof.
  intros V Hhead Hb0 Hshare.
  set (T := total_available V) in *. set (P := total_purchase _ V) in *.
  pose proof Hb0 as (Hst0 & _ & Hc0)%valid_batches_lookup.
  assert (HT : (0 <= T)%Q) by apply total_available_nonneg.
  assert (HP : 0 < P) by (apply (rounded_share_pos_inv T P b0); [done|lra|done]).
  assert (HPq : (0 < inject_Z P)%Q) by (change 0%Q with (inject_Z 0); by rewrite <- Zlt_Qlt).
  unfold allocate, allocate_shares. fold T P.
  destruct (remove_empty_purchases (map_to_list V).*1
    (match last (sorted_batches V) with
     | Some p_day =>
         allocate_last prod_name transport_rate current_day dist
           (foldl (allocate_share prod_name transport_rate current_day dist T P)
              (st, inject_Z P) (Py.but_last (sorted_batches V))) p_day
     | None =>
         (foldl (allocate_share prod_name transport_rate current_day dist T P)
            (st, inject_Z P) (Py.but_last (sorted_batches V))).1
     end)) as (-> & _ & _).
  destruct (sorted_batches V) as [|k ks] eqn:Es; [done|].
  simpl in Hhead. injection Hhead as ->.
  destruct ks as [|k1 ks].
  - simpl. rewrite Hst0, record_purchase_purchases. simpl.
    assert (Hq : (0 < Qmin (inject_Z P) (current b0))%Q) by by apply Q.min_glb_lt.
    apply ltb_true in Hq as Hq'. rewrite Hq'. eauto.
  - change (Py.but_last (k0 :: k1 :: ks)) with (k0 :: Py.but_last (k1 :: ks)).
    rewrite foldl_step, last_cons_cons.
    rewrite (allocate_share_eq _ _ _ _ T P st (inject_Z P) k0 b0 Hst0).
    set (share := Py.min3 _ _ _).
    assert (Hq : (0 < share)%Q) by by apply min3_glb_lt.
    set (acc1 := (record_purchase _ _ _ _ k0 share _, _)).
    destruct (allocate_shares_extends T P (Py.but_last (k1 :: ks)) acc1) as [l1 Hl1].
    assert (Hacc1 : purchases acc1.1 = purchases st ++ [row k0 share]).
    { subst acc1. simpl. rewrite record_purchase_purchases. simpl.
      apply ltb_true in Hq as Hq'. by rewrite Hq'. }
    destruct (last (k1 :: ks)) as [kl|].
    + destruct (allocate_last_extends
                  (foldl (allocate_share prod_name transport_rate current_day dist T P)
                     acc1 (Py.but_last (k1 :: ks))) kl) as [l2 ->].
      rewrite Hl1, Hacc1. exists share, (l1 ++ l2). split; [done|].
      by rewrite <- !app_assoc.
    + rewrite Hl1, Hacc1. exists share, l1. split; [done|].
      by rewrite <- !app_assoc.
Qed.
End VisitOrder.




(** ** The scenario and repeated runs *)

(** C5 (scenario).  Shelf life 3, production {1: 100}, one distributor with
    policy window 2 and proportion 0.5 buying every day, distance 10, rate 0.01,
    horizon 5: the purchases are 50 on day 1 and 25 on day 2, both from the
    batch of day 1, which holds 50 and 25 at the end of those days and 25 at
    the start of day 3, when it expires; 75 are purchased, 25 are waste, and
    the waste percentage is 25. *)
Theorem scenario_outcome :
  ∃ tables,
    self_all_results (run_simulation scenario) = [("P"%string, tables)] ∧
    (λ r, (Day r, Batch_Day r, Qred (Quantity r))) <$> r_purchases tables
      = [(1, 1, 50%Q); (2, 1, 25%Q)] ∧
    Qred (sum_quantity (r_purchases tables)) = 75%Q ∧
    r_inventory_log tables
      = [LogEntry 1 Start [(1, 100)]; LogEntry 1 End_ [(1, 50)];
         LogEntry 2 Start [(1, 50)]; LogEntry 2 End_ [(1, 25)];
         LogEntry 3 Start [(1, 25)]; LogEntry 3 End_ [];
         LogEntry 4 Start []; LogEntry 4 End_ [];
         LogEntry 5 Start []; LogEntry 5 End_ []] ∧
    (λ w, (w_Batch_Day w, Qred (w_Initial w), Qred (w_Waste w), Qred (w_Waste_Pct w)))
      <$> r_waste tables
      = [(1, 100%Q, 25%Q, 25%Q); (2, 0%Q, 0%Q, 0%Q); (3, 0%Q, 0%Q, 0%Q);
         (4, 0%Q, 0%Q, 0%Q); (5, 0%Q, 0%Q, 0%Q)].
Proof.
  eexists. split; [vm_compute; reflexivity|].
  split_and!; vm_compute; reflexivity.
Qed.



(** ** The optimizer *)

Section ObjectiveFacts.
Context (self : supply_chain) (sim_days : Z).

Local Abbreviation clipped := (λ day policy : Z, Z.min (day + policy) (sim_days + 1)).

Lemma charge_days_sum (c : Q) (day upper : Z) : ∀ a : Q,
  (foldl (λ total_cost d, if negb (d mod 7 =? 0)%Z then total_cost + c else total_cost)
         a (Py.range day upper)
   == a + Py.sum ((λ _ : Z, c) <$> charged_days day upper))%Q.
Proof.
  unfold charged_days. generalize (Py.range day upper). intros l.
  induction l as [|d l IH]; intros a.
  - unfold Py.sum. simpl. lra.
  - rewrite foldl_step, IH, filter_cons.
    destruct (Z.eqb_spec (d mod 7) 0) as [E|E]; simpl.
    + rewrite decide_False by (intros H; by apply H). lra.
    + rewrite decide_True by done. rewrite fmap_cons, sum_cons. lra.
Qed.

Lemma charge_distributors_sum (x : Z → Q) (day : Z) (ds : list distributor) : ∀ a : Q,
  (foldl (λ total_cost dist,
            foldl (λ total_cost d,
                     if negb (d mod 7 =? 0)%Z
                     then total_cost + x day * proportion dist * opt_transport_rate
                     else total_cost)
                  total_cost
                  (Py.range day (Z.min (day + policy_days dist) (sim_days + 1))))
         a ds
   == a + Py.sum ((λ dist,
            Py.sum ((λ _ : Z, x day * proportion dist * opt_transport_rate) <$>
                      charged_days day (clipped day (policy_days dist))))
          <$> ds))%Q.
Proof.
  induction ds as [|dist ds IH]; intros a.
  - unfold Py.sum. simpl. lra.
  - rewrite foldl_step, IH, charge_days_sum, fmap_cons, sum_cons. lra.
Qed.

Lemma total_cost_days_sum (x : Z → Q) (l : list Z) : ∀ a : Q,
  (foldl (add_day_cost self sim_days x) a l
   == a + Py.sum (day_charge self opt_transport_rate clipped x <$> l))%Q.
Proof.
  induction l as [|day l IH]; intros a.
  - unfold Py.sum. simpl. lra.
  - rewrite foldl_step, IH. unfold add_day_cost.
    rewrite charge_distributors_sum, fmap_cons, sum_cons. unfold day_charge at 2. simpl. lra.
Qed.

Lemma total_cost_clipped (x : Z → Q) :
  (total_cost self sim_days x == clipped_objective self sim_days x)%Q.
Proof.
  unfold total_cost, clipped_objective, objective_formula.
  rewrite total_cost_days_sum. lra.
Qed.

Lemma sum_const_nonneg (c : Q) (l : list Z) :
  (0 <= c)%Q → (0 <= Py.sum ((λ _ : Z, c) <$> l))%Q.
Proof. intros Hc. apply sum_nonneg, Forall_fmap, Forall_forall. by intros. Qed.

(** Every day is charged at least a tenth of its production. *)
Lemma day_charge_lower_bound (x : Z → Q) (day : Z) :
  Forall (λ d, 0 <= proportion d)%Q (self_distributors self) →
  (0 <= x day)%Q →
  (waste_cost_per_unit * (1 # 10) * x day
   <= day_charge self opt_transport_rate clipped x day)%Q.
Proof.
  intros Hds Hx. unfold day_charge.
  assert (0 <= Py.sum ((λ dist,
       Py.sum ((λ _ : Z, x day * proportion dist * opt_transport_rate) <$>
                 charged_days day (clipped day (policy_days dist))))
       <$> self_distributors self))%Q.
  { apply sum_nonneg, Forall_fmap. eapply Forall_impl; [exact Hds|].
    intros dist Hp. simpl. apply sum_const_nonneg.
    unfold opt_transport_rate. apply Qmult_le_0_compat; [|lra].
    by apply Qmult_le_0_compat. }
  cbv beta in *. unfold waste_cost_per_unit. lra.
Qed.

Lemma zero_feasible : lp_feasible (build_problem self sim_days) (λ _, 0%Q).
Proof.
  intros day _. simpl. split_and!; [lra| |done].
  intros _. by exists 0.
Qed.

Lemma day_charge_zero (rate : Q) (upper : Z → Z → Z) (day : Z) :
  (day_charge self rate upper (λ _, 0%Q) day == 0)%Q.
Proof.
  unfold day_charge.
  assert (Hin : ∀ (dist : distributor) (l : list Z),
            (Py.sum ((λ _ : Z, 0 * proportion dist * rate) <$> l) == 0)%Q).
  { intros dist l. induction l as [|d l IH]; [done|].
    rewrite fmap_cons, sum_cons, IH. lra. }
  assert (Hout : ∀ ds : list distributor, (Py.sum ((λ dist,
    Py.sum ((λ _ : Z, 0 * proportion dist * rate) <$>
              charged_days day (upper day (policy_days dist))))
    <$> ds) == 0)%Q).
  { intros ds. induction ds as [|dist ds IH]; [done|].
    rewrite fmap_cons, sum_cons, IH, Hin. lra. }
  rewrite Hout. lra.
Qed.

Lemma total_cost_zero : (total_cost self sim_days (λ _, 0%Q) == 0)%Q.
Proof.
  rewrite total_cost_clipped. unfold clipped_objective, objective_formula.
  generalize (days sim_days). intros l. induction l as [|d l IH]; [done|].
  rewrite fmap_cons, sum_cons, IH, day_charge_zero. lra.
Qed.

(** A feasible assignment that costs no more than the zero assignment is
    zero on every day. *)
Lemma optimal_is_zero (x : Z → Q) :
  Forall (λ d, 0 <= proportion d)%Q (self_distributors self) →
  lp_optimal (build_problem self sim_days) x →
  ∀ day, day ∈ days sim_days → (x day == 0)%Q.
Proof.
  intros Hds [Hfeas Hopt] day Hday.
  specialize (Hopt _ zero_feasible). simpl in Hopt.
  rewrite total_cost_zero, total_cost_clipped in Hopt.
  unfold clipped_objective, objective_formula in Hopt.
  apply sum_zero_inv in Hopt.
  - rewrite Forall_fmap, Forall_forall in Hopt. specialize (Hopt day Hday). simpl in Hopt.
    destruct (Hfeas day Hday) as (Hlow & _). simpl in Hlow.
    pose proof (day_charge_lower_bound x day Hds Hlow) as Hb.
    unfold waste_cost_per_unit in Hb. lra.
  - apply Forall_fmap, Forall_forall. intros d Hd. simpl.
    destruct (Hfeas d Hd) as (Hlow & _). simpl in Hlow.
    pose proof (day_charge_lower_bound x d Hds Hlow) as Hb.
    unfold waste_cost_per_unit in Hb. lra.
Qed.
End ObjectiveFacts.

Lemma int_or_zero_zero (q : Q) : (q == 0)%Q → Py.int (Py.or_zero (Some q)) = 0.
Proof.
  intros Hq. simpl. apply Qeq_bool_iff in Hq. by rewrite Hq.
Qed.

(** C6 (objective), as the source has it.  For every assignment, the objective
    built by [optimize_production] is, summed over the days 1..[sim_days], the
    waste cost per unit times the production of the day times 0.1, plus for
    every distributor the production times the proportion times the rate 0.01
    of the optimizer, once for every day that is not a closure day from the
    production day to before the smaller of day + policy window and
    horizon + 1. *)
Theorem objective_charges (self : supply_chain) (sim_days : Z) (x : Z → Q) :
  (lp_objective (build_problem self sim_days) x
   == Py.sum ((λ day,
        waste_cost_per_unit * x day * (1 # 10) +
        Py.sum ((λ dist,
          Py.sum ((λ _ : Z, x day * proportion dist * (1 # 100)) <$>
                    charged_days day (Z.min (day + policy_days dist) (sim_days + 1))))
          <$> self_distributors self)) <$> days sim_days))%Q.
Proof. simpl. apply total_cost_clipped. Qed.

(** C6 as stated fails: with a production of 1 on the only day of the horizon,
    the objective differs from the formula of the specification both when the
    configured transport rate is 0.05 and when the policy window of 3 days
    reaches beyond the horizon. *)
Lemma objective_counterexample :
  ¬ (lp_objective (build_problem rate_config 1) (λ _, 1)
     == spec_objective rate_config 1 (λ _, 1))%Q ∧
  ¬ (lp_objective (build_problem window_config 1) (λ _, 1)
     == spec_objective window_config 1 (λ _, 1))%Q.
Proof. split; vm_compute; discriminate. Qed.

(** C2 (the optimum is zero).  With proportions that are not negative, the
    objective charges every day at least the waste cost per unit times 0.1 per
    unit produced, and when the solver leaves an optimal assignment in the
    variables, [optimize_production] recommends 0 for every day 1..[sim_days]. *)
Theorem optimizer_recommends_zero
    (solve : lp_problem → Z → option Q) (self : supply_chain) (sim_days shelf_life : Z) :
  Forall (λ d, 0 <= proportion d)%Q (self_distributors self) →
  optimal_solution (build_problem self sim_days) (solve (build_problem self sim_days)) →
  (∀ x, (∀ day, day ∈ days sim_days → (0 <= x day)%Q) →
     (Py.sum ((λ day, waste_cost_per_unit * (1 # 10) * x day)%Q <$> days sim_days)
      <= lp_objective (build_problem self sim_days) x)%Q) ∧
  optimize_production solve self sim_days shelf_life = (λ day, (day, 0)) <$> days sim_days.
Proof.
  intros Hds (x & Hopt & Hx). split.
  - intros y Hy. simpl. rewrite total_cost_clipped.
    apply sum_fmap_le. intros day Hday. by apply day_charge_lower_bound, Hy.
  - unfold optimize_production. apply list_fmap_ext. intros i day Hday.
    apply list_elem_of_lookup_2 in Hday.
    rewrite (Hx day) by done. f_equal.
    apply int_or_zero_zero. by apply (optimal_is_zero self sim_days x).
Qed.

Lemma optimizer_recommends_zero_witness :
  optimize_production zero_solver scenario 5 3 = [(1, 0); (2, 0); (3, 0); (4, 0); (5, 0)].
Proof.
  refine (proj2 (optimizer_recommends_zero zero_solver scenario 5 3 _ _)).
  - repeat constructor; simpl; lra.
  - exists (λ _, 0%Q). split; [|done]. split; [apply zero_feasible|].
    intros y Hy. simpl. rewrite total_cost_zero, total_cost_clipped.
    apply sum_nonneg, Forall_fmap, Forall_forall. intros day Hday. simpl.
    destruct (Hy day Hday) as (Hlow & _). simpl in Hlow.
    assert (Hds : Forall (λ d, 0 <= proportion d)%Q (self_distributors scenario))
      by (repeat constructor; simpl; lra).
    pose proof (day_charge_lower_bound scenario 5 y day Hds Hlow) as Hb.
    unfold waste_cost_per_unit in Hb. lra.
Defined.

(** C9 (no solution).  The problem built by [optimize_production] always has
    a feasible assignment, and when the solver leaves no value in any
    variable, [optimize_production] returns 0 for every day 1..[sim_days]. *)
Theorem no_solution_recommends_zero
    (solve : lp_problem → Z → option Q) (self : supply_chain) (sim_days shelf_life : Z) :
  no_solution (build_problem self sim_days) (solve (build_problem self sim_days)) →
  lp_feasible (build_problem self sim_days) (λ _, 0%Q) ∧
  optimize_production solve self sim_days shelf_life = (λ day, (day, 0)) <$> days sim_days.
Proof.
  intros Hnone. split; [apply zero_feasible|].
  unfold optimize_production. apply list_fmap_ext. intros i day Hday.
  apply list_elem_of_lookup_2 in Hday. by rewrite (Hnone day).
Qed.

Lemma no_solution_recommends_zero_witness :
  optimize_production failing_solver scenario 5 3 = [(1, 0); (2, 0); (3, 0); (4, 0); (5, 0)].
Proof.
  refine (proj2 (no_solution_recommends_zero failing_solver scenario 5 3 _)).
  intros day _. reflexivity.
Defined.



(** ** What a visit leaves alone *)

Section VisitFrame.
Context (prod_name : string) (transport_rate : Q) (current_day : Z) (dist : distributor).

Local Abbreviation record := (record_purchase prod_name transport_rate current_day dist).
Local Abbreviation process := (process_distributor prod_name transport_rate current_day dist).

Lemma ledger_shrunk_refl (bs : gmap Z batch) : ledger_shrunk bs bs.
Proof. intros k b Hb. by exists b. Qed.

Lemma ledger_shrunk_trans (bs1 bs2 bs3 : gmap Z batch) :
  ledger_shrunk bs1 bs2 → ledger_shrunk bs2 bs3 → ledger_shrunk bs1 bs3.
Proof.
  intros H12 H23 k b1 Hb1. destruct (H12 k b1 Hb1) as (b2 & Hb2 & Hi & He).
  destruct (H23 k b2 Hb2) as (b3 & Hb3 & Hi' & He'). exists b3. split_and!; congruence.
Qed.

Lemma ledger_shrunk_draw (bs : gmap Z batch) k b c :
  bs !! k = Some b → ledger_shrunk (<[k := set_current c b]> bs) bs.
Proof.
  intros Hb k' b'. destruct (decide (k = k')) as [<-|Hne].
  - rewrite lookup_insert_eq. intros [= <-]. by exists b.
  - rewrite lookup_insert_ne by done. intros Hb'. by exists b'.
Qed.

Lemma ledger_shrunk_delete (bs : gmap Z batch) k : ledger_shrunk (delete k bs) bs.
Proof.
  intros k' b'. destruct (decide (k = k')) as [<-|Hne].
  - by rewrite lookup_delete_eq.
  - rewrite lookup_delete_ne by done. intros Hb'. by exists b'.
Qed.

Lemma allocate_share_frame T P acc k :
  let acc' := allocate_share prod_name transport_rate current_day dist T P acc k in
  ledger_shrunk (batches acc'.1) (batches acc.1) ∧
  (∀ k', k' ≠ k → batches acc'.1 !! k' = batches acc.1 !! k').
Proof.
  destruct acc as [st rem]. unfold allocate_share.
  destruct (batches st !! k) as [b|] eqn:Ek; simpl.
  - rewrite record_purchase_batches. simpl. split.
    + by apply ledger_shrunk_draw.
    + intros k' Hne. by rewrite lookup_insert_ne.
  - split; [apply ledger_shrunk_refl|done].
Qed.

Lemma allocate_shares_frame T P ks : ∀ acc,
  let acc' := foldl (allocate_share prod_name transport_rate current_day dist T P) acc ks in
  ledger_shrunk (batches acc'.1) (batches acc.1) ∧
  (∀ k', k' ∉ ks → batches acc'.1 !! k' = batches acc.1 !! k').
Proof.
  induction ks as [|k ks IH]; intros acc; simpl.
  - split; [apply ledger_shrunk_refl|done].
  - destruct (IH (allocate_share prod_name transport_rate current_day dist T P acc k))
      as [Hs Ho].
    destruct (allocate_share_frame T P acc k) as [Hs1 Ho1]. split.
    + by eapply ledger_shrunk_trans.
    + intros k' [Hne Hk']%not_elem_of_cons. rewrite Ho by done. by apply Ho1.
Qed.

Lemma allocate_last_frame acc k :
  let st' := allocate_last prod_name transport_rate current_day dist acc k in
  ledger_shrunk (batches st') (batches acc.1) ∧
  (∀ k', k' ≠ k → batches st' !! k' = batches acc.1 !! k').
Proof.
  destruct acc as [st rem]. unfold allocate_last.
  destruct (batches st !! k) as [b|] eqn:Ek; simpl.
  - rewrite record_purchase_batches. simpl. split.
    + by apply ledger_shrunk_draw.
    + intros k' Hne. by rewrite lookup_insert_ne.
  - split; [apply ledger_shrunk_refl|done].
Qed.

(** What the removal of the empty batches keeps: batches as they were, and of
    the days it looked at only those with a positive quantity. *)
Lemma remove_empties_keeps ks : ∀ st k b,
  batches (foldl remove_empty st ks) !! k = Some b →
  batches st !! k = Some b ∧ (k ∈ ks → (0 < current b)%Q).
Proof.
  induction ks as [|k0 ks IH]; intros st k b Hb.
  - split; [done|]. by intros ?%elem_of_nil.
  - rewrite foldl_step in Hb. apply IH in Hb as [Hb Hpos].
    assert (Hst : batches st !! k = Some b ∧ (k = k0 → (0 < current b)%Q)).
    { unfold remove_empty in Hb. destruct (batches st !! k0) as [b0|] eqn:E0.
      - destruct (Qle_bool (current b0) 0) eqn:Ec.
        + simpl in Hb. destruct (decide (k = k0)) as [->|Hne].
          * by rewrite lookup_delete_eq in Hb.
          * rewrite lookup_delete_ne in Hb by done. done.
        + split; [done|]. intros ->. rewrite E0 in Hb. injection Hb as <-.
          apply Qnot_le_lt. intros Hle. apply Qle_bool_iff in Hle. congruence.
      - split; [done|]. intros ->. congruence. }
    destruct Hst as [Hst Hk0]. split; [done|].
    intros [->|Hin]%elem_of_cons; auto.
Qed.

Lemma remove_empties_other ks : ∀ st k,
  k ∉ ks → batches (foldl remove_empty st ks) !! k = batches st !! k.
Proof.
  induction ks as [|k0 ks IH]; intros st k Hk; [done|].
  apply not_elem_of_cons in Hk as [Hne Hk]. rewrite foldl_step, IH by done.
  unfold remove_empty. repeat case_match; try done. simpl. by rewrite lookup_delete_ne.
Qed.

(** The ledger after the allocation among [valid]. *)
Lemma allocate_frame (valid : gmap Z batch) st :
  let st' := allocate prod_name transport_rate current_day dist valid st in
  ledger_shrunk (batches st') (batches st) ∧
  (∀ k, valid !! k = None → batches st' !! k = batches st !! k) ∧
  (∀ k b, is_Some (valid !! k) → batches st' !! k = Some b → (0 < current b)%Q).
Proof.
  unfold allocate, allocate_shares.
  set (T := total_available valid). set (P := total_purchase _ valid).
  set (acc := foldl _ _ (Py.but_last (sorted_batches valid))).
  set (st1 := match last (sorted_batches valid) with
              | Some p_day => allocate_last prod_name transport_rate current_day dist acc p_day
              | None => acc.1
              end).
  assert (Hkeys : ∀ k, k ∈ (map_to_list valid).*1 ↔ is_Some (valid !! k)).
  { intros k. rewrite <- elem_of_sorted_batches. unfold sorted_batches.
    by rewrite elem_of_sorted. }
  destruct (allocate_shares_frame T P (Py.but_last (sorted_batches valid))
              (st, inject_Z P)) as [Hs Ho]. fold acc in Hs, Ho. simpl in Hs, Ho.
  assert (H1 : ledger_shrunk (batches st1) (batches st) ∧
               ∀ k, valid !! k = None → batches st1 !! k = batches st !! k).
  { assert (Hout : ∀ k, valid !! k = None → k ∉ Py.but_last (sorted_batches valid)).
    { intros k Hk Hin.
      assert (k ∈ sorted_batches valid) as [b Hb]%elem_of_sorted_batches.
      { destruct (snoc_cases (sorted_batches valid)) as [E|(l & x & E)]; rewrite E in Hin |- *.
        - done.
        - rewrite but_last_snoc in Hin. apply elem_of_app. by left. }
      congruence. }
    subst st1. destruct (last (sorted_batches valid)) as [kl|] eqn:El.
    - destruct (allocate_last_frame acc kl) as [Hs' Ho']. split.
      + by eapply ledger_shrunk_trans.
      + intros k Hk. rewrite Ho'; [by apply Ho, Hout|].
        intros ->. apply last_Some_elem_of, elem_of_sorted_batches in El as [b Hb].
        congruence.
    - split; [done|]. intros k Hk. by apply Ho, Hout. }
  destruct H1 as [Hs1 Ho1]. simpl. split_and!.
  - intros k b' Hb'. apply remove_empties_keeps in Hb' as [Hb' _]. by apply Hs1.
  - intros k Hk. rewrite remove_empties_other; [by apply Ho1|].
    rewrite Hkeys. intros [b Hb]. congruence.
  - intros k b Hk Hb. apply remove_empties_keeps in Hb as [_ Hpos].
    by apply Hpos, Hkeys.
Qed.

Lemma process_distributor_fields st :
  waste (process st) = waste st ∧ inventory_log (process st) = inventory_log st.
Proof.
  unfold process_distributor. repeat case_match; try done.
  match goal with H : bool_decide _ = false |- _ => apply bool_decide_eq_false in H as HV end.
  destruct (allocate_spec prod_name transport_rate current_day dist (policy_days dist) st HV)
    as (kl & bl & news & _ & _ & _ & Hw & Hl & _). done.
Qed.
End VisitFrame.

Lemma process_distributor_frame
    (prod_name : string) (transport_rate : Q) (current_day : Z)
    (dist : distributor) (st : sim_state) :
  let V := valid_batches current_day (policy_days dist) (batches st) in
  let st' := process_distributor prod_name transport_rate current_day dist st in
  ledger_shrunk (batches st') (batches st) ∧
  (∀ k b, batches st !! k = Some b → policy_days dist ≤ current_day - k →
          batches st' !! k = Some b) ∧
  (∀ k b, is_Some (V !! k) → batches st' !! k = Some b → (0 < current b)%Q) ∧
  waste st' = waste st.
Proof.
  intros V st'.
  assert (Hout : ∀ k b, batches st !! k = Some b → policy_days dist ≤ current_day - k →
                        V !! k = None).
  { intros k b Hb Hage. destruct (V !! k) as [b'|] eqn:E; [|done].
    apply valid_batches_lookup in E as (_ & ? & _). lia. }
  split_and!; [| | |apply process_distributor_fields].
  - subst st'. unfold process_distributor. repeat case_match; try apply ledger_shrunk_refl.
    apply allocate_frame.
  - intros k b Hb Hage. subst st'. unfold process_distributor.
    repeat case_match; try done.
    destruct (allocate_frame prod_name transport_rate current_day dist V st) as (_ & Ho & _).
    rewrite Ho; [done|]. by eapply Hout.
  - intros k b HV Hb. subst st'. unfold process_distributor in Hb.
    destruct (negb _); [|destruct (closed_today _ _); [|destruct (bool_decide _)]].
    + destruct HV as [b' Hb']. apply valid_batches_lookup in Hb' as (? & _ & ?). congruence.
    + destruct HV as [b' Hb']. apply valid_batches_lookup in Hb' as (? & _ & ?). congruence.
    + destruct HV as [b' Hb']. apply valid_batches_lookup in Hb' as (? & _ & ?). congruence.
    + destruct (allocate_frame prod_name transport_rate current_day dist V st) as (_ & _ & Hp).
      by eapply Hp.
Qed.

(** X1 (frame of a visit).  The visit of a distributor creates no batch and
    changes the initial quantity and the expiry day of none; it leaves every
    batch that is outside its policy window exactly as it was; and every batch
    of its window that is still in the ledger after the visit holds a positive
    quantity: a batch it empties is removed. *)
Theorem visit_frame
    (prod_name : string) (transport_rate : Q) (current_day : Z)
    (dist : distributor) (st : sim_state) :
  let V := valid_batches current_day (policy_days dist) (batches st) in
  let st' := process_distributor prod_name transport_rate current_day dist st in
  ledger_shrunk (batches st') (batches st) ∧
  (∀ k b, batches st !! k = Some b → policy_days dist ≤ current_day - k →
          batches st' !! k = Some b) ∧
  (∀ k b, is_Some (V !! k) → batches st' !! k = Some b → (0 < current b)%Q) ∧
  waste st' = waste st.
Proof. apply process_distributor_frame. Qed.

(** ** Expiry *)

Lemma expire_keeps ks : ∀ st k b,
  batches (foldl expire_one st ks) !! k = Some b → batches st !! k = Some b ∧ k ∉ ks.
Proof.
  induction ks as [|k0 ks IH]; intros st k b Hb.
  - split; [done|]. apply not_elem_of_nil.
  - rewrite foldl_step in Hb. apply IH in Hb as [Hb Hk].
    unfold expire_one in Hb. destruct (batches st !! k0) as [b0|] eqn:E0; simpl in Hb.
    + destruct (decide (k = k0)) as [->|Hne]; [by rewrite lookup_delete_eq in Hb|].
      rewrite lookup_delete_ne in Hb by done. split; [done|].
      apply not_elem_of_cons. done.
    + split; [done|]. apply not_elem_of_cons. split; [|done]. intros ->. congruence.
Qed.

Lemma expire_waste ks : ∀ st d q,
  waste (foldl expire_one st ks) !! d = Some q →
  waste st !! d = Some q ∨ ∃ b, batches st !! d = Some b ∧ d ∈ ks ∧ q = current b.
Proof.
  induction ks as [|k0 ks IH]; intros st d q Hq; [by left|].
  rewrite foldl_step in Hq. apply IH in Hq as [Hq|(b & Hb & Hd & ->)].
  - unfold expire_one in Hq. destruct (batches st !! k0) as [b0|] eqn:E0; simpl in Hq.
    + destruct (decide (k0 = d)) as [->|Hne].
      * rewrite lookup_insert_eq in Hq. injection Hq as <-.
        right. exists b0. split_and!; [done|by left|done].
      * rewrite lookup_insert_ne in Hq by done. by left.
    + by left.
  - right. exists b. split_and!; [|by right|done].
    unfold expire_one in Hb. destruct (batches st !! k0) as [b0|] eqn:E0; simpl in Hb.
    + destruct (decide (d = k0)) as [->|Hne]; [by rewrite lookup_delete_eq in Hb|].
      by rewrite lookup_delete_ne in Hb.
    + done.
Qed.

Lemma elem_of_expired_days d (bs : gmap Z batch) k :
  k ∈ expired_days d bs ↔ ∃ b, bs !! k = Some b ∧ expiry b = d.
Proof.
  unfold expired_days. rewrite list_elem_of_fmap. split.
  - intros ([k' b] & -> & [He Hin%elem_of_map_to_list]%list_elem_of_filter). by exists b.
  - intros (b & Hb & He). exists (k, b). split; [done|].
    apply list_elem_of_filter. split; [done|]. by apply elem_of_map_to_list.
Qed.

(** The ledger and the waste after the expiry step of a day. *)
Lemma expire_spec d st :
  (∀ k b, batches (expire d st) !! k = Some b → batches st !! k = Some b ∧ expiry b ≠ d) ∧
  (∀ k q, waste (expire d st) !! k = Some q →
     waste st !! k = Some q ∨ ∃ b, batches st !! k = Some b ∧ expiry b = d ∧ q = current b).
Proof.
  unfold expire. split.
  - intros k b [Hb Hk]%expire_keeps. split; [done|]. intros He. apply Hk.
    apply elem_of_expired_days. by exists b.
  - intros k q [Hq|(b & Hb & Hin & ->)]%expire_waste; [by left|right].
    apply elem_of_expired_days in Hin as (b' & Hb' & He). exists b.
    split_and!; [done| |done]. congruence.
Qed.

Section ShelfLife.
Context (prod_name : string) (prod_data : product) (transport_rate : Q).
Context (distributors : list distributor).

Local Abbreviation loop := (day_loop prod_name prod_data transport_rate distributors).

Lemma visits_cons day dist ds st :
  visits prod_name transport_rate day (dist :: ds) st
  = visits prod_name transport_rate day ds
      (process_distributor prod_name transport_rate day dist st).
Proof. done. Qed.

Lemma visits_frame day ds : ∀ st,
  let st' := visits prod_name transport_rate day ds st in
  ledger_shrunk (batches st') (batches st) ∧ waste st' = waste st ∧
  inventory_log st' = inventory_log st ∧
  (all_positive st → all_positive st').
Proof.
  induction ds as [|dist ds IH]; intros st.
  - simpl. split_and!; [apply ledger_shrunk_refl|done..].
  - cbv zeta. rewrite visits_cons.
    destruct (IH (process_distributor prod_name transport_rate day dist st))
      as (Hs & Hw & Hl & Hp).
    destruct (process_distributor_frame prod_name transport_rate day dist st)
      as (Hs1 & Ho1 & Hp1 & Hw1).
    destruct (process_distributor_fields prod_name transport_rate day dist st) as [_ Hl1].
    split_and!.
    + by eapply ledger_shrunk_trans.
    + by rewrite Hw.
    + by rewrite Hl.
    + intros Hpos. apply Hp. intros k b Hb.
      destruct (valid_batches day (policy_days dist) (batches st) !! k) as [b'|] eqn:EV.
      * by eapply Hp1.
      * destruct (Hs1 k b Hb) as (b0 & Hb0 & _).
        assert (Hage : policy_days dist ≤ day - k ∨ ¬ (0 < current b0)%Q).
        { destruct (Z_lt_le_dec (day - k) (policy_days dist)) as [Hlt|]; [|by left].
          right. intros Hc.
          assert (valid_batches day (policy_days dist) (batches st) !! k = Some b0)
            by by apply valid_batches_lookup.
          congruence. }
        destruct Hage as [Hage|Hneg]; [|by destruct Hneg; eapply Hpos].
        rewrite (Ho1 k b0 Hb0 Hage) in Hb. injection Hb as <-. by eapply Hpos.
Qed.

Lemma all_positive_add_batch d st :
  all_positive st → all_positive (add_batch prod_data d st).
Proof.
  intros Hpos. unfold add_batch.
  destruct (production_plan prod_data !! d) as [qty|]; [|done].
  destruct (Py.ltb 0 qty) eqn:E; [|done]. apply ltb_true in E.
  intros k b. simpl. destruct (decide (d = k)) as [<-|Hne].
  - rewrite lookup_insert_eq. by intros [= <-].
  - rewrite lookup_insert_ne by done. apply Hpos.
Qed.

Lemma all_positive_day_step st d :
  all_positive st →
  all_positive (day_step prod_name prod_data transport_rate distributors st d).
Proof.
  intros Hpos. unfold day_step.
  apply (visits_frame d). intros k b [Hb _]%expire_spec.
  by apply (all_positive_add_batch d st Hpos k b).
Qed.

Lemma all_positive_day_loop n ttc : all_positive (loop n ttc).
Proof.
  unfold day_loop.
  assert (H0 : all_positive (initial_state ttc)) by (intros k b; simpl; by rewrite lookup_empty).
  revert H0. generalize (initial_state ttc). generalize (days n).
  intros l. induction l as [|d l IH]; intros st Hst; [done|].
  rewrite foldl_step. by apply IH, all_positive_day_step.
Qed.

Lemma within_shelf_life_day_loop n ttc :
  1 ≤ shelf_life prod_data → 0 ≤ n → within_shelf_life prod_data n (loop n ttc).
Proof.
  intros Hsl Hn. revert n Hn. apply natlike_ind.
  - split; intros k b; simpl; by rewrite lookup_empty.
  - intros n Hn [Hlive Hwaste]. change (Z.succ n) with (n + 1).
    rewrite day_loop_succ by done. unfold day_step.
    set (st0 := loop n ttc) in *.
    set (st1 := log_inventory (n + 1) Start (add_batch prod_data (n + 1) st0)).
    assert (H1 : ∀ k b, batches st1 !! k = Some b →
               1 ≤ k ≤ n + 1 ∧ production_plan prod_data !! k = Some (initial b) ∧
               expiry b = k + shelf_life prod_data - 1 ∧ n + 1 ≤ expiry b).
    { intros k b. subst st1. simpl. unfold add_batch.
      destruct (production_plan prod_data !! (n + 1)) as [qty|] eqn:Ep;
        [destruct (Py.ltb 0 qty)|]; simpl.
      - destruct (decide (n + 1 = k)) as [<-|Hne].
        + rewrite lookup_insert_eq. intros [= <-]. simpl. split_and!; [lia..|done|done|lia].
        + rewrite lookup_insert_ne by done. intros Hb.
          destruct (Hlive k b Hb) as (? & ? & ? & ?). split_and!; [lia..|done|done|lia].
      - intros Hb. destruct (Hlive k b Hb) as (? & ? & ? & ?). split_and!; [lia..|done|done|lia].
      - intros Hb. destruct (Hlive k b Hb) as (? & ? & ? & ?). split_and!; [lia..|done|done|lia]. }
    assert (Hw1 : waste st1 = waste st0).
    { subst st1. simpl. unfold add_batch. by repeat case_match. }
    destruct (expire_spec (n + 1) st1) as [Hek Hew].
    destruct (visits_frame (n + 1) (sorted_distributors distributors) (expire (n + 1) st1))
      as (Hs & Hw & _ & _).
    split; simpl.
    + intros k b Hb. destruct (Hs k b Hb) as (b0 & Hb0 & Hi & He).
      apply Hek in Hb0 as [Hb0 Hne]. destruct (H1 k b0 Hb0) as (? & ? & ? & ?).
      rewrite Hi, He. split_and!; [lia..|done|done|lia].
    + intros d q. rewrite Hw. intros [Hq|(b & Hb & He & _)]%Hew.
      * rewrite Hw1 in Hq. apply Hwaste in Hq. lia.
      * destruct (H1 d b Hb) as (? & ? & ? & ?). lia.
Qed.

Lemma never_expires_day_loop n ttc :
  shelf_life prod_data ≤ 0 → 0 ≤ n →
  waste (loop n ttc) = ∅ ∧
  ∀ k b, batches (loop n ttc) !! k = Some b →
         k ≤ n ∧ expiry b = k + shelf_life prod_data - 1.
Proof.
  intros Hsl Hn. revert n Hn. apply natlike_ind.
  - split; [done|]. intros k b. simpl. by rewrite lookup_empty.
  - intros n Hn [Hwaste Hlive]. change (Z.succ n) with (n + 1).
    rewrite day_loop_succ by done. unfold day_step.
    set (st0 := loop n ttc) in *.
    set (st1 := log_inventory (n + 1) Start (add_batch prod_data (n + 1) st0)).
    assert (H1 : ∀ k b, batches st1 !! k = Some b →
               k ≤ n + 1 ∧ expiry b = k + shelf_life prod_data - 1).
    { intros k b. subst st1. simpl. unfold add_batch.
      destruct (production_plan prod_data !! (n + 1)) as [qty|] eqn:Ep;
        [destruct (Py.ltb 0 qty)|]; simpl.
      - destruct (decide (n + 1 = k)) as [<-|Hne].
        + rewrite lookup_insert_eq. intros [= <-]. simpl. lia.
        + rewrite lookup_insert_ne by done. intros Hb. destruct (Hlive k b Hb). lia.
      - intros Hb. destruct (Hlive k b Hb). lia.
      - intros Hb. destruct (Hlive k b Hb). lia. }
    assert (Hw1 : waste st1 = waste st0).
    { subst st1. simpl. unfold add_batch. by repeat case_match. }
    destruct (expire_spec (n + 1) st1) as [Hek Hew].
    destruct (visits_frame (n + 1) (sorted_distributors distributors) (expire (n + 1) st1))
      as (Hs & Hw & _ & _).
    split; simpl.
    + rewrite Hw. apply map_eq. intros d. rewrite lookup_empty.
      destruct (waste (expire (n + 1) st1) !! d) as [q|] eqn:Eq; [|done].
      apply Hew in Eq as [Hq|(b & Hb & He & _)].
      * by rewrite Hw1, Hwaste, lookup_empty in Hq.
      * destruct (H1 d b Hb). lia.
    + intros k b Hb. destruct (Hs k b Hb) as (b0 & Hb0 & Hi & He).
      apply Hek in Hb0 as [Hb0 Hne]. destruct (H1 k b0 Hb0). rewrite He. lia.
Qed.
End ShelfLife.

(** X2 (depleted batches leave the ledger).  At the end of every day of the day
    loop of a product, whatever the configuration, every batch of the ledger
    holds a positive quantity. *)
Theorem live_batches_positive
    (prod_name : string) (prod_data : product) (transport_rate : Q)
    (distributors : list distributor) (n : Z) (ttc : Q) :
  all_positive (day_loop prod_name prod_data transport_rate distributors n ttc).
Proof. apply all_positive_day_loop. Qed.

(** X3 (expiry).  For a shelf life of at least one day, once day [n] is over
    every batch of the ledger was created on one of the days 1..[n] with its
    planned quantity as initial quantity, expires on its day + shelf life - 1,
    and that day is after [n]; and waste is recorded only for batches whose
    expiry day is [n] or earlier. *)
Theorem batches_within_shelf_life
    (prod_name : string) (prod_data : product) (transport_rate : Q)
    (distributors : list distributor) (n : Z) (ttc : Q) :
  1 ≤ shelf_life prod_data → 0 ≤ n →
  within_shelf_life prod_data n
    (day_loop prod_name prod_data transport_rate distributors n ttc).
Proof. apply within_shelf_life_day_loop. Qed.

Lemma batches_within_shelf_life_witness :
  within_shelf_life single_batch 5 (day_loop "P" single_batch (1 # 100) [half_buyer] 5 0).
Proof.
  apply (batches_within_shelf_life "P" single_batch (1 # 100) [half_buyer] 5 0).
  - simpl. lia.
  - lia.
Defined.

(** X4 (shelf life of zero or less).  With a shelf life that is not positive
    the expiry day of a batch is before its production day: no batch ever
    expires, and no waste is ever recorded. *)
Theorem nonpositive_shelf_life_never_expires
    (prod_name : string) (prod_data : product) (transport_rate : Q)
    (distributors : list distributor) (n : Z) (ttc : Q) :
  shelf_life prod_data ≤ 0 → 0 ≤ n →
  waste (day_loop prod_name prod_data transport_rate distributors n ttc) = ∅ ∧
  ∀ k b, batches (day_loop prod_name prod_data transport_rate distributors n ttc) !! k
           = Some b →
         k ≤ n ∧ expiry b < k.
Proof.
  intros Hsl Hn.
  destruct (never_expires_day_loop prod_name prod_data transport_rate distributors n ttc
              Hsl Hn) as [Hw Hl].
  split; [done|]. intros k b Hb. destruct (Hl k b Hb). lia.
Qed.

Lemma nonpositive_shelf_life_never_expires_witness :
  waste (day_loop "P" stale_batch (1 # 100) [half_buyer] 5 0) = ∅.
Proof.
  refine (proj1 (nonpositive_shelf_life_never_expires
                   "P" stale_batch (1 # 100) [half_buyer] 5 0 _ _)).
  - simpl. lia.
  - lia.
Defined.

(** ** The inventory log *)

Lemma omap_lookup_fst {A B} (m : gmap Z A) (g : A → B) (ks : list Z) :
  (∀ k, k ∈ ks → is_Some (m !! k)) →
  (omap (λ k, (λ a, (k, g a)) <$> m !! k) ks).*1 = ks.
Proof.
  induction ks as [|k ks IH]; intros H; [done|].
  destruct (H k) as [a Ha]; [by left|]. simpl. rewrite Ha. simpl.
  f_equal. apply IH. intros k' Hk'. apply H. by right.
Qed.

(** A snapshot has one column for every batch of the ledger, in ascending
    order of the batch day. *)
Lemma snapshot_columns d ph (bs : gmap Z batch) :
  (log_Q (snapshot d ph bs)).*1 = sorted_batches bs.
Proof.
  unfold snapshot, sorted_batches. simpl. apply omap_lookup_fst.
  intros k Hk. by apply (elem_of_sorted_batches bs).
Qed.

Section LogFacts.
Context (prod_name : string) (prod_data : product) (transport_rate : Q).
Context (distributors : list distributor).

Lemma inventory_log_add_batch d st :
  inventory_log (add_batch prod_data d st) = inventory_log st.
Proof. unfold add_batch. by repeat case_match. Qed.

Lemma inventory_log_expire d st : inventory_log (expire d st) = inventory_log st.
Proof.
  unfold expire. generalize (expired_days d (batches st)). intros ks. revert st.
  induction ks as [|k ks IH]; intros st; [done|].
  rewrite foldl_step, IH. unfold expire_one. by case_match.
Qed.

Lemma inventory_log_day_step st d :
  ∃ bs1 bs2,
    inventory_log (day_step prod_name prod_data transport_rate distributors st d)
    = inventory_log st ++ [snapshot d Start bs1; snapshot d End_ bs2].
Proof.
  unfold day_step. simpl.
  destruct (visits_frame prod_name transport_rate d (sorted_distributors distributors)
              (expire d (log_inventory d Start (add_batch prod_data d st))))
    as (_ & _ & -> & _).
  rewrite inventory_log_expire. simpl. rewrite inventory_log_add_batch, <- app_assoc.
  eauto.
Qed.

Lemma inventory_log_days l : ∀ st,
  ∃ new,
    inventory_log
      (foldl (day_step prod_name prod_data transport_rate distributors) st l)
    = inventory_log st ++ new ∧
    log_index new = l ≫= (λ d, [(d, Start); (d, End_)]) ∧
    Forall (λ e, StronglySorted Z.lt (log_Q e).*1) new.
Proof.
  induction l as [|d l IH]; intros st.
  - exists []. by rewrite app_nil_r.
  - rewrite foldl_step.
    destruct (IH (day_step prod_name prod_data transport_rate distributors st d))
      as (new & -> & Hidx & Hsorted).
    destruct (inventory_log_day_step st d) as (bs1 & bs2 & ->).
    exists ([snapshot d Start bs1; snapshot d End_ bs2] ++ new). split_and!.
    + by rewrite <- app_assoc.
    + unfold log_index in *. rewrite fmap_app, Hidx. done.
    + apply Forall_app. split; [|done].
      repeat constructor; rewrite snapshot_columns; apply sorted_batches_ascending.
Qed.
End LogFacts.

(** X5 (inventory log).  The inventory log of a product has two rows for every
    day 1..[n], a "Start" row followed by an "End" row, in the order of the
    days, and the columns of every row are in strictly ascending order of the
    batch day. *)
Theorem inventory_log_shape
    (prod_name : string) (prod_data : product) (transport_rate : Q)
    (distributors : list distributor) (n : Z) (ttc : Q) :
  let log := inventory_log (day_loop prod_name prod_data transport_rate distributors n ttc) in
  log_index log = days n ≫= (λ d, [(d, Start); (d, End_)]) ∧
  Forall (λ e, StronglySorted Z.lt (log_Q e).*1) log.
Proof.
  unfold day_loop.
  destruct (inventory_log_days prod_name prod_data transport_rate distributors
              (days n) (initial_state ttc)) as (new & -> & Hidx & Hs).
  done.
Qed.

(** ** The transport total *)

Lemma sum_nil : Py.sum [] = 0%Q.
Proof. done. Qed.

Section CostFacts.
Context (prod_name : string) (prod_data : product) (transport_rate : Q).
Context (distributors : list distributor).

Lemma cost_gap_record day dist k share st :
  (cost_gap (record_purchase prod_name transport_rate day dist k share st) == cost_gap st)%Q.
Proof.
  unfold record_purchase, cost_gap, sum_transport_cost.
  destruct (Py.ltb 0 share); [|done]. simpl.
  rewrite fmap_app, sum_app. simpl. rewrite sum_cons. unfold Py.sum at 2. simpl. lra.
Qed.

Lemma cost_gap_allocate_shares day dist T P ks : ∀ acc,
  (cost_gap (foldl (allocate_share prod_name transport_rate day dist T P) acc ks).1
   == cost_gap acc.1)%Q.
Proof.
  induction ks as [|k ks IH]; intros acc; [done|].
  rewrite foldl_step, IH. destruct acc as [st rem]. unfold allocate_share.
  destruct (batches st !! k); [|done]. simpl. by rewrite cost_gap_record.
Qed.

Lemma cost_gap_allocate_last day dist acc k :
  (cost_gap (allocate_last prod_name transport_rate day dist acc k) == cost_gap acc.1)%Q.
Proof.
  destruct acc as [st rem]. unfold allocate_last.
  destruct (batches st !! k); [|done]. by rewrite cost_gap_record.
Qed.

Lemma cost_gap_remove_empties ks : ∀ st, cost_gap (foldl remove_empty st ks) = cost_gap st.
Proof.
  induction ks as [|k ks IH]; intros st; [done|].
  rewrite foldl_step, IH. unfold remove_empty. by repeat case_match.
Qed.

Lemma cost_gap_process day dist st :
  (cost_gap (process_distributor prod_name transport_rate day dist st) == cost_gap st)%Q.
Proof.
  unfold process_distributor. repeat case_match; try done.
  unfold allocate. rewrite cost_gap_remove_empties.
  destruct (last _).
  - rewrite cost_gap_allocate_last. unfold allocate_shares.
    by rewrite cost_gap_allocate_shares.
  - unfold allocate_shares. by rewrite cost_gap_allocate_shares.
Qed.

Lemma cost_gap_visits day ds : ∀ st,
  (cost_gap (visits prod_name transport_rate day ds st) == cost_gap st)%Q.
Proof.
  induction ds as [|dist ds IH]; intros st; [done|].
  rewrite visits_cons, IH. apply cost_gap_process.
Qed.

Lemma cost_gap_expire d st : cost_gap (expire d st) = cost_gap st.
Proof.
  unfold expire. generalize (expired_days d (batches st)). intros ks. revert st.
  induction ks as [|k ks IH]; intros st; [done|].
  rewrite foldl_step, IH. unfold expire_one. by case_match.
Qed.

Lemma cost_gap_day_step st d :
  (cost_gap (day_step prod_name prod_data transport_rate distributors st d) == cost_gap st)%Q.
Proof.
  unfold day_step.
  change (cost_gap (log_inventory d End_ ?s)) with (cost_gap s).
  rewrite cost_gap_visits, cost_gap_expire.
  change (cost_gap (log_inventory d Start ?s)) with (cost_gap s).
  unfold add_batch. by repeat case_match.
Qed.

Lemma cost_gap_day_loop n ttc :
  (cost_gap (day_loop prod_name prod_data transport_rate distributors n ttc) == ttc)%Q.
Proof.
  unfold day_loop.
  assert (H0 : (cost_gap (initial_state ttc) == ttc)%Q).
  { unfold cost_gap, sum_transport_cost, Py.sum. simpl. lra. }
  revert H0. generalize (initial_state ttc). generalize (days n).
  intros l. induction l as [|d l IH]; intros st Hst; [done|].
  rewrite foldl_step. apply IH. by rewrite cost_gap_day_step.
Qed.
End CostFacts.

Lemma transport_total_products (self : supply_chain) items : ∀ acc,
  let acc' := foldl (simulate_product self) acc items in
  (acc'.2 - Py.sum ((λ pr, sum_transport_cost (r_purchases pr.2)) <$> acc'.1)
   == acc.2 - Py.sum ((λ pr, sum_transport_cost (r_purchases pr.2)) <$> acc.1))%Q.
Proof.
  induction items as [|[prod_name prod_data] items IH]; intros acc; [done|].
  cbv zeta. rewrite foldl_step. cbv zeta in IH. rewrite IH.
  simpl. rewrite fmap_app, sum_app. simpl. rewrite sum_cons, sum_nil.
  pose proof (cost_gap_day_loop prod_name prod_data (self_transport_rate self)
                (self_distributors self) (self_sim_days_override self) acc.2) as Hgap.
  unfold cost_gap in Hgap. lra.
Qed.

Lemma summary_transport_cost_snoc results pr :
  summary_transport_cost (results ++ [pr])
  = total ← summary_transport_cost results;
    if bool_decide (r_purchases pr.2 = [])
    then None
    else Some (total + Py.sum (Transport_Cost <$> r_purchases pr.2))%Q.
Proof. unfold summary_transport_cost. by rewrite foldl_app. Qed.

Lemma summary_transport_cost_spec results :
  match summary_transport_cost results with
  | Some total =>
      Forall (λ pr, r_purchases pr.2 ≠ []) results ∧
      (total == Py.sum ((λ pr, sum_transport_cost (r_purchases pr.2)) <$> results))%Q
  | None => Exists (λ pr, r_purchases pr.2 = []) results
  end.
Proof.
  induction results as [|pr results IH] using rev_ind.
  - simpl. split; [constructor|done].
  - rewrite summary_transport_cost_snoc.
    destruct (summary_transport_cost results) as [total|]; simpl.
    + destruct IH as [Hne Hsum]. case_bool_decide as Hempty.
      * apply Exists_app. right. by constructor.
      * split; [apply Forall_app; split; [done|by constructor]|].
        rewrite fmap_app, sum_app. simpl. rewrite sum_cons, sum_nil.
        unfold sum_transport_cost at 2. lra.
    + apply Exists_app. by left.
Qed.

(** X6 (transport total).  After [run_simulation] the transport total of the
    object is the sum of the transport costs of the purchase rows of all
    products. *)
Theorem transport_total_is_sum_of_rows (self : supply_chain) :
  (self_total_transport_cost (run_simulation self)
   == Py.sum ((λ pr, sum_transport_cost (r_purchases pr.2))
                <$> self_all_results (run_simulation self)))%Q.
Proof.
  unfold run_simulation.
  pose proof (transport_total_products self (self_products self) ([], 0%Q)) as H.
  cbv zeta in H. destruct (foldl _ _ _) as [results ttc]. simpl in *.
  rewrite sum_nil in H. lra.
Qed.

(** X7 (summary sheet).  The transport total that the export computes from the
    purchase tables is the transport total of the object when every product
    has a purchase, and the computation fails when some product has none. *)
Theorem summary_matches_transport_total (self : supply_chain) :
  match summary_transport_cost (self_all_results (run_simulation self)) with
  | Some total =>
      Forall (λ pr, r_purchases pr.2 ≠ []) (self_all_results (run_simulation self)) ∧
      (total == self_total_transport_cost (run_simulation self))%Q
  | None => Exists (λ pr, r_purchases pr.2 = []) (self_all_results (run_simulation self))
  end.
Proof.
  pose proof (summary_transport_cost_spec (self_all_results (run_simulation self))) as H.
  destruct (summary_transport_cost _) as [total|]; [|done].
  destruct H as [Hne Hsum]. split; [done|].
  rewrite Hsum. unfold run_simulation.
  pose proof (transport_total_products self (self_products self) ([], 0%Q)) as H.
  cbv zeta in H. destruct (foldl _ _ _) as [results ttc]. simpl in *.
  rewrite sum_nil in H. lra.
Qed.

(** ** Integer quantities *)

Lemma integral_inject (n : Z) : integral (inject_Z n).
Proof. by exists n. Qed.

Lemma integral_min (a b : Q) : integral a → integral b → integral (Qmin a b).
Proof.
  intros [n Hn] [m Hm]. destruct (Q.min_spec a b) as [[_ E]|[_ E]].
  - exists n. by rewrite E.
  - exists m. by rewrite E.
Qed.

Lemma integral_sub (a b : Q) : integral a → integral b → integral (a - b).
Proof.
  intros [n Hn] [m Hm]. exists (n - m). rewrite Hn, Hm. unfold Z.sub.
  by rewrite inject_Z_plus, inject_Z_opp.
Qed.

Section IntegralFacts.
Context (prod_name : string) (prod_data : product) (transport_rate : Q).
Context (distributors : list distributor).

Lemma integral_state_draw day dist st k b share :
  integral_state st → batches st !! k = Some b → integral share →
  integral_state
    (record_purchase prod_name transport_rate day dist k share
       (set_batches (<[k := set_current (current b - share) b]> (batches st)) st)).
Proof.
  intros (Hb & Hp & Hw) Ek Hs. split_and!.
  - intros k' b'. rewrite record_purchase_batches. simpl.
    destruct (decide (k = k')) as [<-|Hne].
    + rewrite lookup_insert_eq. intros [= <-]. simpl. apply integral_sub; [by eapply Hb|done].
    + rewrite lookup_insert_ne by done. apply Hb.
  - rewrite record_purchase_purchases. simpl. apply Forall_app. split; [done|].
    case_match; by repeat constructor.
  - intros d q. rewrite record_purchase_waste. apply Hw.
Qed.

Lemma integral_state_allocate_shares day dist T P ks : ∀ st rem,
  integral_state st → integral rem →
  integral_state
    (foldl (allocate_share prod_name transport_rate day dist T P) (st, rem) ks).1 ∧
  integral (foldl (allocate_share prod_name transport_rate day dist T P) (st, rem) ks).2.
Proof.
  induction ks as [|k ks IH]; intros st rem Hst Hrem; [done|].
  rewrite foldl_step. unfold allocate_share at 2 4.
  destruct (batches st !! k) as [b|] eqn:Ek; [|by apply IH].
  assert (Hshare : integral (Py.min3 (rounded_share T P b) (current b) rem)).
  { unfold Py.min3. repeat apply integral_min; [apply integral_inject| |done].
    destruct Hst as (Hb & _). by eapply Hb. }
  apply IH; [by apply integral_state_draw|by apply integral_sub].
Qed.

Lemma integral_state_allocate_last day dist st rem k :
  integral_state st → integral rem →
  integral_state (allocate_last prod_name transport_rate day dist (st, rem) k).
Proof.
  intros Hst Hrem. unfold allocate_last.
  destruct (batches st !! k) as [b|] eqn:Ek; [|done].
  apply integral_state_draw; [done..|]. apply integral_min; [done|].
  destruct Hst as (Hb & _). by eapply Hb.
Qed.

Lemma integral_state_remove_empties ks : ∀ st,
  integral_state st → integral_state (foldl remove_empty st ks).
Proof.
  intros st (Hb & Hp & Hw).
  destruct (remove_empty_purchases ks st) as (Ep & Ew & _). split_and!.
  - intros k b [Hk _]%remove_empties_keeps. by eapply Hb.
  - by rewrite Ep.
  - by rewrite Ew.
Qed.

Lemma integral_state_process day dist st :
  integral_state st →
  integral_state (process_distributor prod_name transport_rate day dist st).
Proof.
  intros Hst. unfold process_distributor. repeat case_match; try done.
  unfold allocate, allocate_shares. apply integral_state_remove_empties.
  set (V := valid_batches _ _ _).
  destruct (integral_state_allocate_shares day dist (total_available V)
              (total_purchase (Py.round2 (proportion dist)) V)
              (Py.but_last (sorted_batches V)) st
              (inject_Z (total_purchase (Py.round2 (proportion dist)) V)) Hst
              (integral_inject _)) as [Hi1 Hi2].
  destruct (foldl _ _ _) as [st1 rem1]. simpl in *.
  destruct (last _); [|done]. by apply integral_state_allocate_last.
Qed.

Lemma integral_state_visits day ds : ∀ st,
  integral_state st → integral_state (visits prod_name transport_rate day ds st).
Proof.
  induction ds as [|dist ds IH]; intros st Hst; [done|].
  rewrite visits_cons. by apply IH, integral_state_process.
Qed.

Lemma integral_state_day_step st d :
  (∀ day q, production_plan prod_data !! day = Some q → integral q) →
  integral_state st →
  integral_state (day_step prod_name prod_data transport_rate distributors st d).
Proof.
  intros Hplan (Hb & Hp & Hw). unfold day_step.
  set (st1 := log_inventory d Start (add_batch prod_data d st)).
  assert (H1 : integral_state st1).
  { subst st1. unfold add_batch.
    destruct (production_plan prod_data !! d) as [qty|] eqn:Eq; [|done].
    destruct (Py.ltb 0 qty); [|done]. split_and!; simpl; [|done..].
    intros k b. destruct (decide (d = k)) as [<-|Hne].
    - rewrite lookup_insert_eq. intros [= <-]. simpl. by eapply Hplan.
    - rewrite lookup_insert_ne by done. apply Hb. }
  destruct H1 as (Hb1 & Hp1 & Hw1). destruct (expire_spec d st1) as [Hek Hew].
  assert (H2 : integral_state (expire d st1)).
  { split_and!.
    - intros k b [Hk _]%Hek. by eapply Hb1.
    - by rewrite purchases_expire.
    - intros k q [Hq|(b & Hk & _ & ->)]%Hew; [by eapply Hw1|by eapply Hb1]. }
  by apply (integral_state_visits d (sorted_distributors distributors)) in H2.
Qed.

Lemma integral_state_day_loop n ttc :
  (∀ day q, production_plan prod_data !! day = Some q → integral q) →
  integral_state (day_loop prod_name prod_data transport_rate distributors n ttc).
Proof.
  intros Hplan. unfold day_loop.
  assert (H0 : integral_state (initial_state ttc)).
  { split_and!; simpl; [|constructor|]; intros ??; by rewrite lookup_empty. }
  revert H0. generalize (initial_state ttc). generalize (days n).
  intros l. induction l as [|d l IH]; intros st Hst; [done|].
  rewrite foldl_step. by apply IH, integral_state_day_step.
Qed.
End IntegralFacts.

(** X8 (integer quantities).  When every quantity of the production plan is an
    integer, so is every purchased quantity, the stock of every batch and
    every recorded waste, on every day. *)
Theorem integer_plan_integer_quantities
    (prod_name : string) (prod_data : product) (transport_rate : Q)
    (distributors : list distributor) (n : Z) (ttc : Q) :
  (∀ day q, production_plan prod_data !! day = Some q → integral q) →
  integral_state (day_loop prod_name prod_data transport_rate distributors n ttc).
Proof. apply integral_state_day_loop. Qed.

Lemma integer_plan_integer_quantities_witness :
  integral_state (day_loop "P" single_batch (1 # 100) [half_buyer] 5 0).
Proof.
  apply (integer_plan_integer_quantities "P" single_batch (1 # 100) [half_buyer] 5 0).
  intros day q. unfold single_batch. simpl.
  intros [_ <-]%lookup_singleton_Some. by exists 100.
Defined.

(** ** The order of the purchase table *)

Lemma StronglySorted_all {A} (R : relation A) (l : list A) :
  (∀ x y, x ∈ l → y ∈ l → R x y) → StronglySorted R l.
Proof.
  induction l as [|x l IH]; intros H; constructor.
  - apply IH. intros y z Hy Hz. apply H; by right.
  - apply Forall_forall. intros y Hy. apply H; [by left|by right].
Qed.

Section OrderFacts.
Context (prod_name : string) (prod_data : product) (transport_rate : Q).
Context (distributors : list distributor).

Lemma sorted_distributors_StronglySorted :
  StronglySorted (λ a b, policy_days a ≤ policy_days b) (sorted_distributors distributors).
Proof.
  apply Sorted_StronglySorted; [intros x y z; lia|]. apply sorted_Sorted.
Qed.

Lemma visits_order day ds : ∀ st,
  StronglySorted (λ a b, policy_days a ≤ policy_days b) ds →
  StronglySorted ledger_order (purchases st) →
  (∀ r, r ∈ purchases st →
        Day r < day ∨ (Day r = day ∧ ∀ dist, dist ∈ ds → Policy r ≤ policy_days dist)) →
  StronglySorted ledger_order (purchases (visits prod_name transport_rate day ds st)) ∧
  ∀ r, r ∈ purchases (visits prod_name transport_rate day ds st) → Day r ≤ day.
Proof.
  induction ds as [|dist ds IH]; intros st Hds Hsorted Hbound.
  - split; [done|]. intros r Hr. destruct (Hbound r Hr) as [|[? _]]; lia.
  - rewrite visits_cons. apply StronglySorted_inv in Hds as [Hds Hhead].
    rewrite Forall_forall in Hhead.
    destruct (visit_rows prod_name transport_rate day dist st) as (Hpur & Hdrawn & _).
    set (news := new_purchases st _) in *. rewrite Forall_forall in Hdrawn.
    assert (Hnew : ∀ r, r ∈ news → Day r = day ∧ Policy r = policy_days dist).
    { intros r Hr. destruct (Hdrawn r Hr) as (b & _ & _ & _ & ->). done. }
    apply IH; [done| |].
    + rewrite Hpur. apply StronglySorted_app_2; [|done|].
      * intros r1 r2 Hr1 Hr2. unfold ledger_order. destruct (Hnew r2 Hr2) as [-> ->].
        destruct (Hbound r1 Hr1) as [|[? Hp]]; [by left|right].
        split; [done|]. apply Hp. by left.
      * apply StronglySorted_all. intros r1 r2 Hr1 Hr2. unfold ledger_order.
        destruct (Hnew r1 Hr1) as [-> ->]. destruct (Hnew r2 Hr2) as [-> ->]. by right.
    + intros r. rewrite Hpur, elem_of_app. intros [Hr|Hr].
      * destruct (Hbound r Hr) as [|[? Hp]]; [by left|right].
        split; [done|]. intros dist' Hd. apply Hp. by right.
      * destruct (Hnew r Hr) as [-> ->]. right. split; [done|]. apply Hhead.
Qed.

Lemma day_step_order st d :
  StronglySorted ledger_order (purchases st) →
  (∀ r, r ∈ purchases st → Day r < d) →
  StronglySorted ledger_order
    (purchases (day_step prod_name prod_data transport_rate distributors st d)) ∧
  ∀ r, r ∈ purchases (day_step prod_name prod_data transport_rate distributors st d) →
       Day r ≤ d.
Proof.
  intros Hsorted Hbound. unfold day_step.
  change (purchases (log_inventory d End_ ?s)) with (purchases s).
  apply visits_order; [apply sorted_distributors_StronglySorted| |].
  - rewrite purchases_expire. simpl. by rewrite purchases_add_batch.
  - intros r. rewrite purchases_expire. simpl. rewrite purchases_add_batch.
    intros Hr. left. by apply Hbound.
Qed.

Lemma day_loop_order n ttc :
  StronglySorted ledger_order
    (purchases (day_loop prod_name prod_data transport_rate distributors n ttc)) ∧
  ∀ r, r ∈ purchases (day_loop prod_name prod_data transport_rate distributors n ttc) →
       Day r ≤ n.
Proof.
  destruct (Z_lt_le_dec n 0) as [Hneg|Hn].
  - unfold day_loop, days, Py.range. rewrite seqZ_nil by lia. simpl.
    split; [constructor|]. by intros r ?%elem_of_nil.
  - revert n Hn. apply natlike_ind.
    + split; [constructor|]. by intros r ?%elem_of_nil.
    + intros n Hn [Hsorted Hbound]. change (Z.succ n) with (n + 1).
      rewrite day_loop_succ by done. apply day_step_order; [done|].
      intros r Hr. apply Hbound in Hr. lia.
Qed.
End OrderFacts.

(** X9 (order of the purchase table).  The purchase table of every product is
    in chronological order, and the rows of one day are in ascending order of
    the policy window of their distributors: tighter policies are served
    first. *)
Theorem purchases_in_ledger_order (self : supply_chain) :
  Forall (λ pr, StronglySorted ledger_order (r_purchases pr.2))
         (self_all_results (run_simulation self)).
Proof.
  eapply Forall_impl; [apply run_simulation_results|].
  intros [prod_name res] (prod_data & ttc & _ & ->). simpl. apply day_loop_order.
Qed.

(** ** The waste table *)

Lemma round_le_int (x : Q) (c : Z) : (x <= inject_Z c)%Q → Py.round x ≤ c.
Proof.
  intros Hx. unfold Py.round.
  assert (Hf : Qfloor x ≤ c) by (rewrite <- (Qfloor_Z c); by apply Qfloor_resp_le).
  destruct (Z.eq_dec (Qfloor x) c) as [E|E].
  - pose proof (Qfloor_le x) as Hle. rewrite E in Hle |- *.
    assert (x - inject_Z c < 1 # 2)%Q as Hlt by lra.
    rewrite Qlt_alt in Hlt. by rewrite Hlt.
  - destruct (_ ?= _)%Q; [destruct (Z.even _) | |]; lia.
Qed.

Lemma round2_le_100 (x : Q) : (x <= 100)%Q → (Py.round2 x <= 100)%Q.
Proof.
  intros Hx. unfold Py.round2. apply Qle_shift_div_r; [lra|].
  assert (Py.round (x * 100) ≤ 10000) as Hr.
  { apply round_le_int. change (inject_Z 10000) with (100 * 100)%Q. lra. }
  rewrite Zle_Qle in Hr. change (inject_Z 10000) with (100 * 100)%Q in Hr. done.
Qed.

Section WasteFacts.
Context (prod_name : string) (prod_data : product) (transport_rate : Q).
Context (distributors : list distributor).
Context (Hprop : Forall (λ d, 0 <= proportion d)%Q distributors).

Local Abbreviation loop := (day_loop prod_name prod_data transport_rate distributors).

Lemma waste_nonneg_day_loop n ttc :
  0 ≤ n → ∀ d q, waste (loop n ttc) !! d = Some q → (0 <= q)%Q.
Proof.
  intros Hn. revert n Hn.
  apply (natlike_ind (λ n, ∀ d q, waste (loop n ttc) !! d = Some q → (0 <= q)%Q)).
  - intros d q. simpl. by rewrite lookup_empty.
  - intros n Hn IH d q. change (Z.succ n) with (n + 1).
    rewrite day_loop_succ by done. unfold day_step.
    change (waste (log_inventory (n + 1) End_ ?s)) with (waste s).
    destruct (visits_frame prod_name transport_rate (n + 1)
                (sorted_distributors distributors)
                (expire (n + 1) (log_inventory (n + 1) Start
                                   (add_batch prod_data (n + 1) (loop n ttc)))))
      as (_ & -> & _ & _).
    intros [Hq|(b & Hb & _ & ->)]%expire_spec.
    + simpl in Hq. apply (IH d). revert Hq. unfold add_batch. by repeat case_match.
    + assert (Hinv : ledger_inv prod_data (n + 1)
                       (add_batch prod_data (n + 1) (loop n ttc))).
      { apply ledger_inv_add_batch; [done|]. by apply ledger_inv_day_loop. }
      destruct Hinv as ((Hbounds & _) & _). simpl in Hb.
      by destruct (Hbounds d b Hb) as (? & _).
Qed.

Lemma purchased_nonneg n ttc d : (0 <= purchased (loop n ttc) d)%Q.
Proof.
  unfold purchased, sum_quantity. apply sum_nonneg, Forall_fmap, Forall_forall.
  intros r [_ Hr]%list_elem_of_filter.
  pose proof (emitted_day_loop prod_name prod_data transport_rate distributors n ttc) as H.
  rewrite Forall_forall in H.
  destruct (H r Hr) as (day & dist & k & share & _ & _ & _ & _ & _ & Hpos & ->).
  simpl. lra.
Qed.

Lemma wasted_bounds n ttc d :
  0 ≤ n →
  (0 <= wasted (loop n ttc) d ∧ wasted (loop n ttc) d <= produced prod_data n d)%Q.
Proof.
  intros Hn. split.
  - unfold wasted. destruct (waste (loop n ttc) !! d) as [q|] eqn:E; simpl; [|lra].
    by eapply waste_nonneg_day_loop.
  - destruct (ledger_inv_day_loop prod_name prod_data transport_rate distributors n ttc
                Hprop Hn) as ((Hb & Hc) & _).
    specialize (Hc d). pose proof (purchased_nonneg n ttc d).
    assert (0 <= remaining (loop n ttc) d)%Q.
    { unfold remaining. destruct (batches (loop n ttc) !! d) as [b|] eqn:E; simpl; [|lra].
      by destruct (Hb d b E) as (? & _). }
    lra.
Qed.

Lemma waste_row_bounds n ttc d :
  0 ≤ n → 1 ≤ d ≤ n →
  let w := waste_data_row prod_name prod_data (waste (loop n ttc)) d in
  w_Batch_Day w = d ∧ w_Product w = prod_name ∧
  (0 <= w_Waste w ∧ w_Waste w <= w_Initial w ∧
   0 <= w_Waste_Pct w ∧ w_Waste_Pct w <= 100)%Q.
Proof.
  intros Hn Hd. unfold waste_data_row.
  destruct (Py.ltb 0 (default 0%Q (production_plan prod_data !! d))) eqn:Epos; simpl.
  - apply ltb_true in Epos as Hpos.
    destruct (wasted_bounds n ttc d Hn) as [Hw0 Hw1]. unfold wasted in *.
    assert (Hprod : produced prod_data n d = default 0%Q (production_plan prod_data !! d)).
    { unfold produced. rewrite bool_decide_eq_true_2 by done.
      destruct (production_plan prod_data !! d) as [q|]; simpl in *; [|done].
      by rewrite Epos. }
    rewrite Hprod in Hw1.
    set (e := default 0%Q (waste (loop n ttc) !! d)) in *.
    set (i := default 0%Q (production_plan prod_data !! d)) in *.
    assert (0 <= e / i * 100 ∧ e / i * 100 <= 100)%Q as [Hp0 Hp1].
    { assert (0 <= e / i)%Q by (apply Qle_shift_div_l; lra).
      assert (e / i <= 1)%Q by (apply Qle_shift_div_r; lra).
      lra. }
    split_and!; [done..| |]; [by apply round2_nonneg|by apply round2_le_100].
  - split_and!; [done..|lra|lra|lra|lra].
Qed.
End WasteFacts.

(** X10 (waste table).  With proportions that are not negative, the waste table
    of a product has one row for every day 1..[n], in the order of the days,
    and in every row the waste is between 0 and the initial quantity and the
    waste percentage between 0 and 100. *)
Theorem waste_table_bounds
    (prod_name : string) (prod_data : product) (transport_rate : Q)
    (distributors : list distributor) (n : Z) (ttc : Q) :
  Forall (λ d, 0 <= proportion d)%Q distributors →
  let table :=
    waste_data prod_name prod_data n
      (waste (day_loop prod_name prod_data transport_rate distributors n ttc)) in
  w_Batch_Day <$> table = days n ∧
  Forall (λ w, 0 <= w_Waste w ∧ w_Waste w <= w_Initial w ∧
               0 <= w_Waste_Pct w ∧ w_Waste_Pct w <= 100)%Q table.
Proof.
  intros Hprop table. subst table. unfold waste_data.
  destruct (Z_lt_le_dec n 0) as [Hneg|Hn].
  { unfold days, Py.range. rewrite seqZ_nil by lia. split; [done|constructor]. }
  split.
  - rewrite <- list_fmap_compose. rewrite <- (list_fmap_id (days n)) at 2.
    apply list_fmap_ext. intros i d Hd. apply list_elem_of_lookup_2, elem_of_days in Hd.
    simpl. by destruct (waste_row_bounds prod_name prod_data transport_rate distributors
                          Hprop n ttc d Hn Hd) as (-> & _).
  - apply Forall_fmap, Forall_forall. intros d Hd%elem_of_days.
    by destruct (waste_row_bounds prod_name prod_data transport_rate distributors
                   Hprop n ttc d Hn Hd) as (_ & _ & ?).
Qed.

Lemma waste_table_bounds_witness :
  w_Batch_Day <$> waste_data "P" single_batch 5
                    (waste (day_loop "P" single_batch (1 # 100) [half_buyer] 5 0))
  = days 5.
Proof.
  refine (proj1 (waste_table_bounds "P" single_batch (1 # 100) [half_buyer] 5 0 _)).
  repeat constructor; simpl; lra.
Defined.

(** ** Nothing produced, nothing sold *)

Section IdleFacts.
Context (prod_name : string) (prod_data : product) (transport_rate : Q).
Context (distributors : list distributor).
Context (Hidle : ∀ d q, production_plan prod_data !! d = Some q → (q <= 0)%Q).

Lemma add_batch_idle d st : add_batch prod_data d st = st.
Proof.
  unfold add_batch. destruct (production_plan prod_data !! d) as [q|] eqn:E; [|done].
  apply Hidle in E. apply ltb_false in E. by rewrite E.
Qed.

Lemma process_distributor_empty day dist st :
  batches st = ∅ → process_distributor prod_name transport_rate day dist st = st.
Proof.
  intros E. unfold process_distributor. repeat case_match; try done.
  match goal with H : bool_decide _ = false |- _ => apply bool_decide_eq_false in H end.
  exfalso. match goal with H : _ ≠ ∅ |- _ => apply H end.
  rewrite E. apply map_filter_empty.
Qed.

Lemma visits_empty day ds st :
  batches st = ∅ → visits prod_name transport_rate day ds st = st.
Proof.
  intros E. induction ds as [|dist ds IH]; [done|].
  by rewrite visits_cons, process_distributor_empty.
Qed.

Lemma day_step_idle st d :
  batches st = ∅ →
  let st' := day_step prod_name prod_data transport_rate distributors st d in
  batches st' = ∅ ∧ purchases st' = purchases st ∧ waste st' = waste st ∧
  total_transport_cost st' = total_transport_cost st.
Proof.
  intros E. unfold day_step. rewrite add_batch_idle.
  assert (Hexp : expire d (log_inventory d Start st) = log_inventory d Start st).
  { unfold expire, expired_days. simpl. rewrite E, map_to_list_empty. done. }
  rewrite Hexp, visits_empty by done. done.
Qed.

Lemma day_loop_idle n ttc :
  let st := day_loop prod_name prod_data transport_rate distributors n ttc in
  batches st = ∅ ∧ purchases st = [] ∧ waste st = ∅ ∧ total_transport_cost st = ttc.
Proof.
  unfold day_loop.
  assert (H0 : batches (initial_state ttc) = ∅ ∧ purchases (initial_state ttc) = [] ∧
               waste (initial_state ttc) = ∅ ∧
               total_transport_cost (initial_state ttc) = ttc) by done.
  revert H0. generalize (initial_state ttc). generalize (days n).
  intros l. induction l as [|d l IH]; intros st Hst; [done|].
  rewrite foldl_step. apply IH. destruct Hst as (Hb & Hp & Hw & Ht).
  destruct (day_step_idle st d Hb) as (-> & -> & -> & ->). done.
Qed.

Lemma waste_data_idle n w :
  waste_data prod_name prod_data n w = (λ d, WasteRow prod_name d 0 0 0) <$> days n.
Proof.
  unfold waste_data. apply list_fmap_ext. intros i d _. unfold waste_data_row.
  destruct (production_plan prod_data !! d) as [q|] eqn:E; simpl.
  - apply Hidle in E. apply ltb_false in E. by rewrite E.
  - done.
Qed.
End IdleFacts.

(** X11 (nothing produced).  A product whose production plan has no positive
    quantity never has a batch: its run ends with an empty ledger, no purchase
    and no recorded waste, leaves the transport total as it was, and its waste
    table has a zero row for every day. *)
Theorem idle_product_sells_nothing
    (prod_name : string) (prod_data : product) (transport_rate : Q)
    (distributors : list distributor) (n : Z) (ttc : Q) :
  (∀ d q, production_plan prod_data !! d = Some q → (q <= 0)%Q) →
  let st := day_loop prod_name prod_data transport_rate distributors n ttc in
  batches st = ∅ ∧ purchases st = [] ∧ waste st = ∅ ∧ total_transport_cost st = ttc ∧
  r_waste (product_tables prod_name prod_data n st)
    = (λ d, WasteRow prod_name d 0 0 0) <$> days n.
Proof.
  intros Hidle st.
  destruct (day_loop_idle prod_name prod_data transport_rate distributors Hidle n ttc)
    as (Hb & Hp & Hw & Ht).
  split_and!; [done..|]. simpl. by apply waste_data_idle.
Qed.

Lemma idle_product_sells_nothing_witness :
  purchases (day_loop "P" idle_product (1 # 100) [half_buyer] 5 0) = [].
Proof.
  refine (proj1 (proj2 (idle_product_sells_nothing
                          "P" idle_product (1 # 100) [half_buyer] 5 0 _))).
  intros d q. unfold idle_product. simpl.
  intros [_ <-]%lookup_singleton_Some. apply Qle_refl.
Defined.

(** ** One valid batch *)

Lemma round2_le_1 (x : Q) : (x <= 1)%Q → (Py.round2 x <= 1)%Q.
Proof.
  intros Hx. unfold Py.round2. apply Qle_shift_div_r; [lra|].
  assert (Py.round (x * 100) ≤ 100) as Hr.
  { apply round_le_int. change (inject_Z 100) with 100%Q. lra. }
  rewrite Zle_Qle in Hr. change (inject_Z 100) with 100%Q in Hr. lra.
Qed.

Lemma total_available_single (V : gmap Z batch) k b :
  sorted_batches V = [k] → V !! k = Some b → (total_available V == current b)%Q.
Proof.
  intros Hs Hb. unfold sorted_batches in Hs.
  pose proof (sorted_Permutation id (map_to_list V).*1) as Hp. rewrite Hs in Hp.
  symmetry in Hp. apply Permutation_singleton_r in Hp.
  destruct (map_to_list V) as [|[k' b'] [|? ?]] eqn:E; try done.
  simpl in Hp. injection Hp as ->.
  assert ((k, b') ∈ map_to_list V) as Hin%elem_of_map_to_list by (rewrite E; by left).
  assert (b' = b) as -> by congruence.
  unfold total_available. rewrite E. simpl. rewrite sum_cons, sum_nil. lra.
Qed.



(** ** Rows, products and their distributors *)

(** X13 (rows and carriers).  Every purchase row of every product carries the
    name of the product and of a distributor of the list that carries the
    product, with the policy window of that distributor, its proportion
    rounded to two decimals, and a transport cost of quantity × distance ×
    transport rate. *)
Theorem purchases_by_carriers (self : supply_chain) :
  Forall (λ pr, Forall (row_of_carrier pr.1 (self_transport_rate self)
                          (self_distributors self))
                       (r_purchases pr.2))
         (self_all_results (run_simulation self)).
Proof.
  eapply Forall_impl; [apply run_simulation_results|].
  intros [prod_name res] (prod_data & ttc & _ & ->). simpl.
  eapply Forall_impl; [apply emitted_day_loop|].
  intros r (day & dist & k & share & _ & Hdist & Hpref & _ & _ & _ & ->).
  split; [done|]. exists dist. done.
Qed.

Section Independence.
Context (prod_name : string) (prod_data : product) (transport_rate : Q).
Context (distributors : list distributor).

(** Two states with the same ledger and tables. *)
Local Abbreviation same_tables := (λ st1 st2 : sim_state,
  batches st1 = batches st2 ∧ purchases st1 = purchases st2 ∧
  inventory_log st1 = inventory_log st2 ∧ waste st1 = waste st2).

Lemma same_tables_allocate_share day dist T P k st1 st2 rem :
  same_tables st1 st2 →
  same_tables (allocate_share prod_name transport_rate day dist T P (st1, rem) k).1
              (allocate_share prod_name transport_rate day dist T P (st2, rem) k).1 ∧
  (allocate_share prod_name transport_rate day dist T P (st1, rem) k).2
  = (allocate_share prod_name transport_rate day dist T P (st2, rem) k).2.
Proof.
  destruct st1, st2. simpl. intros (-> & -> & -> & ->).
  unfold allocate_share, record_purchase. simpl.
  destruct (_ !! k); [|done]. simpl. by case_match.
Qed.

Lemma same_tables_allocate_shares day dist T P ks : ∀ st1 st2 rem,
  same_tables st1 st2 →
  same_tables
    (foldl (allocate_share prod_name transport_rate day dist T P) (st1, rem) ks).1
    (foldl (allocate_share prod_name transport_rate day dist T P) (st2, rem) ks).1 ∧
  (foldl (allocate_share prod_name transport_rate day dist T P) (st1, rem) ks).2
  = (foldl (allocate_share prod_name transport_rate day dist T P) (st2, rem) ks).2.
Proof.
  induction ks as [|k ks IH]; intros st1 st2 rem H; [done|].
  rewrite !foldl_step.
  destruct (same_tables_allocate_share day dist T P k st1 st2 rem H) as [H1 H2].
  destruct (allocate_share _ _ _ _ _ _ (st1, rem) k) as [st1' rem1].
  destruct (allocate_share _ _ _ _ _ _ (st2, rem) k) as [st2' rem2].
  simpl in *. subst rem2. by apply IH.
Qed.

Lemma same_tables_allocate_last day dist k st1 st2 rem :
  same_tables st1 st2 →
  same_tables (allocate_last prod_name transport_rate day dist (st1, rem) k)
              (allocate_last prod_name transport_rate day dist (st2, rem) k).
Proof.
  destruct st1, st2. simpl. intros (-> & -> & -> & ->).
  unfold allocate_last, record_purchase. simpl.
  destruct (_ !! k); [|done]. simpl. by case_match.
Qed.

Lemma same_tables_remove_empties ks : ∀ st1 st2,
  same_tables st1 st2 →
  same_tables (foldl remove_empty st1 ks) (foldl remove_empty st2 ks).
Proof.
  induction ks as [|k ks IH]; intros st1 st2 H; [done|].
  rewrite !foldl_step. apply IH.
  destruct st1, st2. simpl in *. destruct H as (-> & -> & -> & ->).
  unfold remove_empty. simpl. by repeat case_match.
Qed.

Lemma same_tables_process day dist st1 st2 :
  same_tables st1 st2 →
  same_tables (process_distributor prod_name transport_rate day dist st1)
              (process_distributor prod_name transport_rate day dist st2).
Proof.
  intros H. pose proof H as (Hb & _). unfold process_distributor. rewrite Hb.
  repeat case_match; try done.
  unfold allocate, allocate_shares. apply same_tables_remove_empties.
  set (V := valid_batches _ _ _).
  destruct (same_tables_allocate_shares day dist (total_available V)
              (total_purchase (Py.round2 (proportion dist)) V)
              (Py.but_last (sorted_batches V)) st1 st2
              (inject_Z (total_purchase (Py.round2 (proportion dist)) V)) H) as [Hf1 Hf2].
  destruct (foldl _ (st1, _) _) as [st1' rem1]. destruct (foldl _ (st2, _) _) as [st2' rem2].
  simpl in *. subst rem2. destruct (last _); [|done]. by apply same_tables_allocate_last.
Qed.

Lemma same_tables_visits day ds : ∀ st1 st2,
  same_tables st1 st2 →
  same_tables (visits prod_name transport_rate day ds st1)
              (visits prod_name transport_rate day ds st2).
Proof.
  induction ds as [|dist ds IH]; intros st1 st2 H; [done|].
  rewrite !visits_cons. by apply IH, same_tables_process.
Qed.

Lemma same_tables_expire d st1 st2 :
  same_tables st1 st2 → same_tables (expire d st1) (expire d st2).
Proof.
  intros H. pose proof H as (Hb & _). unfold expire. rewrite Hb.
  generalize (expired_days d (batches st2)). intros ks. clear Hb. revert st1 st2 H.
  induction ks as [|k ks IH]; intros st1 st2 H; [done|].
  rewrite !foldl_step. apply IH.
  destruct st1, st2. simpl in *. destruct H as (-> & -> & -> & ->).
  unfold expire_one. simpl. by case_match.
Qed.

Lemma same_tables_day_step d st1 st2 :
  same_tables st1 st2 →
  same_tables (day_step prod_name prod_data transport_rate distributors st1 d)
              (day_step prod_name prod_data transport_rate distributors st2 d).
Proof.
  intros H. unfold day_step.
  assert (H1 : same_tables (log_inventory d Start (add_batch prod_data d st1))
                           (log_inventory d Start (add_batch prod_data d st2))).
  { destruct st1, st2. simpl in *. destruct H as (-> & -> & -> & ->).
    unfold add_batch. simpl. by repeat case_match. }
  apply (same_tables_expire d) in H1.
  apply (same_tables_visits d (sorted_distributors distributors)) in H1.
  destruct H1 as (Hb & Hp & Hl & Hw). simpl. by rewrite Hb, Hp, Hl, Hw.
Qed.

Lemma same_tables_day_loop n ttc1 ttc2 :
  same_tables (day_loop prod_name prod_data transport_rate distributors n ttc1)
              (day_loop prod_name prod_data transport_rate distributors n ttc2).
Proof.
  unfold day_loop.
  assert (H0 : same_tables (initial_state ttc1) (initial_state ttc2)) by done.
  revert H0. generalize (initial_state ttc1) (initial_state ttc2). generalize (days n).
  intros l. induction l as [|d l IH]; intros st1 st2 H; [done|].
  rewrite !foldl_step. by apply IH, same_tables_day_step.
Qed.

Lemma product_tables_total n ttc1 ttc2 :
  product_tables prod_name prod_data n
    (day_loop prod_name prod_data transport_rate distributors n ttc1)
  = product_tables prod_name prod_data n
      (day_loop prod_name prod_data transport_rate distributors n ttc2).
Proof.
  destruct (same_tables_day_loop n ttc1 ttc2) as (_ & Hp & Hl & Hw).
  unfold product_tables. by rewrite Hp, Hl, Hw.
Qed.
End Independence.

Lemma run_simulation_names (self : supply_chain) items : ∀ acc,
  (foldl (simulate_product self) acc items).1.*1 = acc.1.*1 ++ items.*1.
Proof.
  induction items as [|[prod_name prod_data] items IH]; intros acc.
  - by rewrite app_nil_r.
  - rewrite foldl_step, IH. simpl. rewrite fmap_app. simpl. by rewrite <- app_assoc.
Qed.

(** X14 (products are independent).  [all_results] has one entry for every
    product, in the order of the products, and the tables of a product are
    those of a run of the same object with that product alone. *)
Theorem products_are_independent (self : supply_chain) :
  (self_all_results (run_simulation self)).*1 = (self_products self).*1 ∧
  Forall (λ pr, ∃ prod_data,
            (pr.1, prod_data) ∈ self_products self ∧
            self_all_results
              (run_simulation
                 (new_supply_chain [(pr.1, prod_data)] (self_distributors self)
                    (self_transport_rate self) (self_sim_days_override self)))
            = [pr])
         (self_all_results (run_simulation self)).
Proof.
  split.
  - unfold run_simulation.
    pose proof (run_simulation_names self (self_products self) ([], 0%Q)) as H.
    destruct (foldl _ _ _) as [results ttc]. done.
  - eapply Forall_impl; [apply run_simulation_results|].
    intros [prod_name res] (prod_data & ttc & Hin & Hres). simpl in *. subst res.
    exists prod_data. split; [done|]. do 2 f_equal. apply product_tables_total.
Qed.

(** ** Feasible recommendations *)

Lemma int_inject (q : Q) (n : Z) : (q == inject_Z n)%Q → Py.int q = n.
Proof.
  unfold Py.int, Qeq. simpl. intros H. rewrite Z.mul_1_r in H. rewrite H.
  apply Z.quot_mul. lia.
Qed.

Lemma int_or_zero_inject (q : Q) (n : Z) :
  (q == inject_Z n)%Q → Py.int (Py.or_zero (Some q)) = n.
Proof.
  intros Hq. simpl. destruct (Qeq_bool q 0) eqn:E.
  - apply Qeq_bool_iff in E. rewrite E in Hq.
    unfold Qeq in Hq. simpl in Hq. assert (n = 0) as -> by lia. done.
  - by apply int_inject.
Qed.

(** X15 (feasible recommendation).  When the solver leaves a feasible assignment
    in the variables, [optimize_production] returns one entry for every day
    1..[sim_days], in order; every recommended quantity is the value of the
    variable of its day, without loss, is not negative, and is 0 on every day
    that is a multiple of 7. *)
Theorem feasible_recommendation
    (solve : lp_problem → Z → option Q) (self : supply_chain) (sim_days shelf_life : Z) :
  feasible_solution (build_problem self sim_days) (solve (build_problem self sim_days)) →
  (optimize_production solve self sim_days shelf_life).*1 = days sim_days ∧
  Forall (λ rec, ∃ q, solve (build_problem self sim_days) rec.1 = Some q ∧
                      (q == inject_Z rec.2)%Q)
         (optimize_production solve self sim_days shelf_life) ∧
  Forall (λ rec, 0 ≤ rec.2 ∧ (rec.1 mod 7 = 0 → rec.2 = 0))
         (optimize_production solve self sim_days shelf_life).
Proof.
  intros (x & Hfeas & Hx). unfold optimize_production. split_and!.
  - rewrite <- list_fmap_compose. rewrite <- (list_fmap_id (days sim_days)) at 2.
    by apply list_fmap_ext.
  - apply Forall_fmap, Forall_forall. intros day Hday. simpl.
    destruct (Hfeas day Hday) as (_ & [n Hn] & _); [done|].
    exists (x day). split; [by apply Hx|].
    rewrite (Hx day Hday), (int_or_zero_inject _ n Hn). done.
  - apply Forall_fmap, Forall_forall. intros day Hday. simpl.
    destruct (Hfeas day Hday) as (Hlow & [n Hn] & Hzero); [done|].
    simpl in Hlow. rewrite (Hx day Hday), (int_or_zero_inject _ n Hn). split.
    + rewrite Hn in Hlow. change 0%Q with (inject_Z 0) in Hlow. by rewrite <- Zle_Qle in Hlow.
    + intros Hmod. assert (Hz : (x day == 0)%Q).
      { apply Hzero. simpl. apply list_elem_of_filter. done. }
      rewrite Hz in Hn. unfold Qeq in Hn. simpl in Hn. lia.
Qed.

Lemma feasible_recommendation_witness :
  optimize_production weekday_solver scenario 8 3
  = [(1, 3); (2, 3); (3, 3); (4, 3); (5, 3); (6, 3); (7, 0); (8, 3)] ∧
  Forall (λ rec : Z * Z, 0 ≤ rec.2 ∧ (rec.1 mod 7 = 0 → rec.2 = 0))
         (optimize_production weekday_solver scenario 8 3).
Proof.
  split; [vm_compute; reflexivity|].
  refine (proj2 (proj2 (feasible_recommendation weekday_solver scenario 8 3 _))).
  exists (λ day, if day mod 7 =? 0 then 0%Q else 3%Q). split; [|done].
  intros day Hday. simpl. split_and!.
  - destruct (day mod 7 =? 0); lra.
  - intros _. destruct (day mod 7 =? 0); [by exists 0|by exists 3].
  - intros [Hmod _]%list_elem_of_filter. apply Z.eqb_eq in Hmod. by rewrite Hmod.
Defined.

(** ** The configuration screens *)

Lemma dict_get_set_eq {V} (k : string) (v : V) (d : list (string * V)) :
  dict_get k (dict_set k v d) = Some v.
Proof.
  induction d as [|[k' v'] d IH]; simpl.
  - by rewrite decide_True.
  - destruct (decide (k' = k)) as [->|Hne]; simpl.
    + by rewrite decide_True.
    + by rewrite decide_False.
Qed.

Lemma dict_get_set_ne {V} (k k0 : string) (v : V) (d : list (string * V)) :
  k0 ≠ k → dict_get k0 (dict_set k v d) = dict_get k0 d.
Proof.
  intros Hne. induction d as [|[k' v'] d IH]; simpl.
  - by rewrite decide_False.
  - destruct (decide (k' = k)) as [->|Hk]; simpl.
    + by rewrite !decide_False.
    + by rewrite IH.
Qed.

Lemma dict_keys_set {V} (k : string) (v : V) (d : list (string * V)) :
  (dict_set k v d).*1 = if decide (k ∈ d.*1) then d.*1 else d.*1 ++ [k].
Proof.
  induction d as [|[k' v'] d IH].
  - case_decide as Hin; [by apply elem_of_nil in Hin|done].
  - cbn [dict_set]. destruct (decide (k' = k)) as [->|Hk].
    + rewrite !fmap_cons. cbn [fst].
      destruct (decide (k ∈ k :: d.*1)) as [Hin|Hin]; [done|]. exfalso. apply Hin. left.
    + rewrite !fmap_cons, IH. cbn [fst].
      destruct (decide (k ∈ d.*1)) as [Hin|Hnin];
        destruct (decide (k ∈ k' :: d.*1)) as [Hin'|Hin']; try done.
      * exfalso. apply Hin'. by right.
      * apply elem_of_cons in Hin' as [?|?]; by subst.
Qed.

Lemma dict_get_elem_of {V} (k : string) (d : list (string * V)) :
  k ∈ d.*1 ↔ is_Some (dict_get k d).
Proof.
  induction d as [|[k' v'] d IH]; simpl.
  - split; [by intros ?%elem_of_nil|by intros [? ?]].
  - destruct (decide (k' = k)) as [->|Hk].
    + split; [by eexists|left].
    + rewrite <- IH. split; [intros [?|?]%elem_of_cons; by subst|by right].
Qed.

Lemma dict_set_length {V} (k : string) (v : V) (d : list (string * V)) :
  is_Some (dict_get k d) → length (dict_set k v d) = length d.
Proof.
  intros Hk%dict_get_elem_of. rewrite <- !(length_fmap fst), dict_keys_set.
  by rewrite decide_True.
Qed.

Lemma lookup_days (n : Z) (i : nat) :
  (i < Z.to_nat n)%nat → days n !! i = Some (1 + Z.of_nat i).
Proof.
  intros Hi. unfold days, Py.range. apply lookup_seqZ. lia.
Qed.

Lemma length_days (n : Z) : length (days n) = Z.to_nat n.
Proof. unfold days, Py.range. rewrite length_seqZ. lia. Qed.

Section ScreenFacts.
Context (strip : string → string).
Context (parse_int : string → option Z) (parse_float : string → option Q).

Local Abbreviation add_distributor' := (add_distributor strip parse_int parse_float).
Local Abbreviation add_product' := (add_product strip parse_int).
Local Abbreviation add_production' := (add_production strip parse_int parse_float).

(** What [add_distributor] has read and stored when it returns. *)
Lemma add_distributor_done (a a' : app) :
  add_distributor' a = Done a' →
  ∃ policy prop distance calendar selected,
    strip (dist_name_var a) ≠ EmptyString ∧
    parse_int (strip (dist_policy_var a)) = Some policy ∧
    parse_float (strip (dist_prop_var a)) = Some prop ∧
    parse_int (strip (dist_dist_var a)) = Some distance ∧
    1 ≤ policy ∧ (0 < prop)%Q ∧ (prop <= 1)%Q ∧ 1 ≤ distance ∧
    selected_products a = Some selected ∧ selected ≠ [] ∧
    full_purchase_days a = Some calendar ∧
    a' = update_ui
           (App (app_products a)
                (app_distributors a ++
                   [Distributor_ (strip (dist_name_var a)) policy (Py.round2 prop)
                                 (inject_Z distance) calendar selected])
                (app_transport_rate a) (app_sim_days a)
                (prod_name_var a) (prod_shelf_life_var a)
                EmptyString "1" "0.15" "10"
                (prod_var a) (prod_day_var a) (prod_qty_var a)
                (replicate (length (prod_vars a)) false)
                (imap (λ i _, bool_decide (i < 6)%nat) (day_vars a))).
Proof.
  unfold add_distributor.
  destruct (bool_decide (strip (dist_name_var a) = EmptyString)) eqn:Ename; [done|].
  apply bool_decide_eq_false in Ename.
  destruct (_ || _) eqn:Eempty; [done|].
  destruct (parse_int (strip (dist_policy_var a))) as [policy|]; [|done].
  destruct (parse_float (strip (dist_prop_var a))) as [prop|]; [|done].
  destruct (parse_int (strip (dist_dist_var a))) as [distance|]; [|done].
  destruct ((policy <=? 0) || Qle_bool prop 0 || Py.ltb 1 prop || (distance <=? 0))
    eqn:Evalid; [done|].
  rewrite !orb_false_iff in Evalid. destruct Evalid as [[[Hpol Hp0] Hp1] Hdist].
  apply Z.leb_gt in Hpol. apply Z.leb_gt in Hdist.
  assert (0 < prop)%Q.
  { apply Qnot_le_lt. intros Hle. apply Qle_bool_iff in Hle. congruence. }
  assert (prop <= 1)%Q.
  { unfold Py.ltb in Hp1. apply negb_false_iff, Qle_bool_iff in Hp1. done. }
  destruct (selected_products a) as [[|p selected]|] eqn:Esel; [done| |done].
  destruct (full_purchase_days a) as [calendar|] eqn:Ecal; [|done].
  intros [= <-]. exists policy, prop, distance, calendar, (p :: selected).
  split_and!; try done; lia.
Qed.

Lemma full_purchase_days_spec (a : app) (calendar : list bool) :
  full_purchase_days a = Some calendar →
  length calendar = Z.to_nat (app_sim_days a) ∧
  ∀ day, 1 ≤ day ≤ app_sim_days a →
    is_Some (calendar !! Z.to_nat (day - 1)) ∧
    calendar !! Z.to_nat (day - 1) = day_vars a !! Z.to_nat ((day - 1) mod 7).
Proof.
  unfold full_purchase_days. fold (days (app_sim_days a)).
  intros Hcal%mapM_Some. split.
  - by rewrite <- (Forall2_length _ _ _ Hcal), length_days.
  - intros day Hday.
    assert (Hd : days (app_sim_days a) !! Z.to_nat (day - 1) = Some day).
    { rewrite lookup_days by lia. f_equal. lia. }
    destruct (Forall2_lookup_l _ _ _ _ _ Hcal Hd) as (v & Hv & Hw).
    split; [by eexists|]. by rewrite Hv, Hw.
Qed.

Lemma selected_products_spec (a : app) (selected : list string) :
  selected_products a = Some selected →
  ∀ p, p ∈ selected → is_Some (dict_get p (app_products a)).
Proof.
  unfold selected_products. intros Hsel%mapM_Some p Hp.
  apply list_elem_of_lookup in Hp as [j Hj].
  destruct (Forall2_lookup_r _ _ _ _ _ Hsel Hj) as (i & _ & Hi).
  apply dict_get_elem_of. apply fmap_Some in Hi as ([k v] & Hkv & ->).
  apply list_elem_of_fmap. exists (k, v). split; [done|].
  by apply list_elem_of_lookup_2 in Hkv.
Qed.

Lemma add_distributor_stores (a a' : app) :
  add_distributor' a = Done a' →
  ∃ d prop,
    app_distributors a' = app_distributors a ++ [d] ∧
    app_products a' = app_products a ∧
    name d = strip (dist_name_var a) ∧
    parse_float (strip (dist_prop_var a)) = Some prop ∧
    proportion d = Py.round2 prop ∧ (0 < prop)%Q ∧ (prop <= 1)%Q ∧
    sound_distributor d ∧ accepted_distributor a d.
Proof.
  intros (policy & prop & distance & calendar & selected & Hname & _ & Hprop & _ &
          Hpol & Hp0 & Hp1 & Hdist & Hsel & Hne & Hcal & ->)%add_distributor_done.
  eexists _, prop. simpl. split_and!; try done.
  - unfold sound_distributor. simpl. split_and!; try done.
    + apply round2_nonneg. lra.
    + by apply round2_le_1.
    + change 1%Q with (inject_Z 1). by rewrite <- Zle_Qle.
  - unfold accepted_distributor. simpl.
    destruct (full_purchase_days_spec _ _ Hcal) as [Hlen Hdays].
    split_and!; try done.
    + apply round2_nonneg. lra.
    + by apply round2_le_1.
    + change 1%Q with (inject_Z 1). by rewrite <- Zle_Qle.
    + by apply selected_products_spec.
    + intros day Hday. by apply Hdays.
Qed.


(** X17 (weekly calendar).  The distributor that [add_distributor] has appended
    buys on a day from 1 on exactly when the day is within the horizon of the
    screen and is the day of one of the first six check boxes of the week,
    ticked: the seventh box has no effect, and there is no purchase day beyond
    the horizon that the screen had. *)
Theorem weekly_calendar (a a' : app) (d : distributor) :
  add_distributor' a = Done a' →
  last (app_distributors a') = Some d →
  ∀ day, 1 ≤ day →
    closed_today d day = false ↔
    day ≤ app_sim_days a ∧
    ∃ i, (i < 6)%nat ∧ (day - 1) mod 7 = Z.of_nat i ∧ day_vars a !! i = Some true.
Proof.
  intros (d' & prop & Hds & _ & _ & _ & _ & _ & _ & _ & Hacc)%add_distributor_stores Hlast.
  rewrite Hds, last_snoc in Hlast. injection Hlast as ->.
  destruct Hacc as (_ & _ & _ & _ & _ & _ & Hlen & Hdays).
  intros day Hday. unfold closed_today. rewrite !orb_false_iff, negb_false_iff, Hlen.
  rewrite Z.ltb_ge, Z.eqb_neq. split.
  - intros [[Hin Hopen] Hmod]. assert (Hn : day ≤ app_sim_days a) by lia.
    split; [done|]. rewrite Hdays in Hopen by lia.
    exists (Z.to_nat ((day - 1) mod 7)). split_and!.
    + clear -Hmod Hday. Z.div_mod_to_equations. lia.
    + clear. Z.div_mod_to_equations. lia.
    + by destruct (day_vars a !! Z.to_nat ((day - 1) mod 7)) as [[]|].
  - intros (Hn & i & Hi & Hmod & Hbox). split_and!.
    + lia.
    + rewrite Hdays by lia. rewrite Hmod, Nat2Z.id, Hbox. done.
    + clear -Hi Hmod. Z.div_mod_to_equations. lia.
Qed.
End ScreenFacts.

(** ** Screens and runs *)

Lemma round_small (x : Q) : (0 <= x)%Q → (x < 1 # 2)%Q → Py.round x = 0.
Proof.
  intros H0 H1. unfold Py.round.
  assert (Hf : Qfloor x = 0).
  { assert (0 ≤ Qfloor x) by (change 0 with (Qfloor 0); by apply Qfloor_resp_le).
    destruct (Z_le_gt_dec 1 (Qfloor x)) as [Hge|Hlt]; [|lia].
    pose proof (Qfloor_le x) as Hle. rewrite Zle_Qle in Hge.
    change (inject_Z 1) with 1%Q in Hge. lra. }
  rewrite Hf. simpl.
  destruct (x - inject_Z 0 ?= 1 # 2)%Q eqn:E; [done..|].
  apply Qgt_alt in E. change (inject_Z 0) with 0%Q in E. lra.
Qed.

Lemma round2_small (x : Q) : (0 <= x)%Q → (x < 1 # 200)%Q → (Py.round2 x == 0)%Q.
Proof.
  intros H0 H1. unfold Py.round2. rewrite round_small by lra. reflexivity.
Qed.

(** A distributor whose proportion rounds to 0 at two decimals writes no
    purchase row. *)
Lemma zero_proportion_visit (prod_name : string) (transport_rate : Q)
    (current_day : Z) (dist : distributor) (st : sim_state) :
  (0 <= proportion dist)%Q → (proportion dist < 1 # 200)%Q →
  purchases (process_distributor prod_name transport_rate current_day dist st)
  = purchases st.
Proof.
  intros Hp0 Hp1.
  destruct (visit_rows prod_name transport_rate current_day dist st)
    as (Hpur & Hdrawn & _ & Hopen).
  destruct (new_purchases st _) as [|r news] eqn:Enews.
  { by rewrite Hpur, app_nil_r. }
  exfalso. destruct Hopen as (_ & _ & HV & Ealloc); [done|].
  destruct (allocate_spec prod_name transport_rate current_day dist (policy_days dist) st HV)
    as (kl & bl & news' & _ & _ & Hpur' & _ & _ & _ & _ & Hsum).
  rewrite <- Ealloc, Hpur in Hpur'. apply app_inv_head in Hpur'. subst news'.
  destruct (Hsum Hp0) as [Hrem Hs]. clear Hsum.
  assert (HP : total_purchase (Py.round2 (proportion dist))
                 (valid_batches current_day (policy_days dist) (batches st)) = 0).
  { unfold total_purchase. apply round_small.
    - rewrite (round2_small _ Hp0 Hp1). lra.
    - rewrite (round2_small _ Hp0 Hp1). lra. }
  rewrite HP in Hs.
  assert (Hpos : (0 < sum_quantity (r :: news))%Q).
  { unfold sum_quantity. rewrite fmap_cons, sum_cons.
    apply Forall_cons in Hdrawn as [(b & _ & Hq & _) Hrest].
    assert (0 <= Py.sum (Quantity <$> news))%Q; [|lra].
    apply sum_nonneg, Forall_fmap. eapply Forall_impl; [exact Hrest|].
    intros r' (b' & _ & Hq' & _). simpl. lra. }
  pose proof (Q.le_min_l (allocate_shares prod_name transport_rate current_day dist
                (valid_batches current_day (policy_days dist) (batches st)) st).2
                (current bl)) as Hmin.
  change (inject_Z 0) with 0%Q in Hs. cbv beta in *. lra.
Qed.

Section ScreenRuns.
Context (strip : string → string).
Context (parse_int : string → option Z) (parse_float : string → option Q).

Local Abbreviation add_distributor' := (add_distributor strip parse_int parse_float).
Local Abbreviation add_product' := (add_product strip parse_int).
Local Abbreviation add_production' := (add_production strip parse_int parse_float).
Local Abbreviation reachable' := (reachable strip parse_int parse_float).

(** X18 (proportions below half a percent).  A proportion below 0.005 passes the
    validation of [add_distributor], which stores it rounded to two decimals,
    that is 0; the visits of the distributor then write no purchase row,
    whatever the ledger holds. *)
Theorem tiny_proportion_never_buys (a a' : app) (prop : Q) (d : distributor) :
  add_distributor' a = Done a' →
  last (app_distributors a') = Some d →
  parse_float (strip (dist_prop_var a)) = Some prop → (prop < 1 # 200)%Q →
  (0 < prop)%Q ∧ (proportion d == 0)%Q ∧
  ∀ prod_name transport_rate current_day st,
    purchases (process_distributor prod_name transport_rate current_day d st)
    = purchases st.
Proof.
  intros (d' & prop' & Hds & _ & _ & Hprop & Hd & Hp0 & _ & _ & _)%add_distributor_stores
         Hlast Hprop' Hsmall.
  rewrite Hds, last_snoc in Hlast. injection Hlast as ->.
  rewrite Hprop in Hprop'. injection Hprop' as ->.
  assert (Hz : (proportion d == 0)%Q) by (rewrite Hd; apply round2_small; lra).
  split_and!; [done..|]. intros. apply zero_proportion_visit; lra.
Qed.

Lemma dict_get_Some_elem_of {V} (k : string) (v : V) (d : list (string * V)) :
  dict_get k d = Some v → (k, v) ∈ d.
Proof.
  induction d as [|[k' v'] d IH]; simpl; [done|].
  destruct (decide (k' = k)) as [->|Hk].
  - intros [= ->]. left.
  - intros H. right. by apply IH.
Qed.

Lemma existsb_elem_of {A} (f : A → bool) (l : list A) (x : A) :
  x ∈ l → f x = true → existsb f l = true.
Proof.
  intros Hx Hf. induction l as [|y l IH]; [by apply elem_of_nil in Hx|].
  simpl. apply elem_of_cons in Hx as [<-|Hx].
  - by rewrite Hf.
  - rewrite IH by done. apply orb_true_r.
Qed.

(** X19 (adding a product).  When [add_product] returns, the product of the
    stripped name has the shelf life read, at least 1, and an empty production
    plan, also when a product of that name was there with a plan; the other
    products are as they were, and the name keeps its place among the names or
    comes last; the distributors are as they were, every check box of the
    products is cleared, and [run_simulation] refuses to run. *)
Theorem add_product_replaces (a a' : app) :
  add_product' a = Done a' →
  ∃ sl,
    parse_int (strip (prod_shelf_life_var a)) = Some sl ∧ 1 ≤ sl ∧
    strip (prod_name_var a) ≠ EmptyString ∧
    dict_get (strip (prod_name_var a)) (app_products a') = Some (Product_ sl ∅) ∧
    (∀ k, k ≠ strip (prod_name_var a) →
          dict_get k (app_products a') = dict_get k (app_products a)) ∧
    (app_products a').*1
    = (if decide (strip (prod_name_var a) ∈ (app_products a).*1)
       then (app_products a).*1
       else (app_products a).*1 ++ [strip (prod_name_var a)]) ∧
    app_distributors a' = app_distributors a ∧
    prod_vars a' = replicate (length (app_products a')) false ∧
    app_run_simulation a' = None.
Proof.
  unfold add_product.
  destruct (bool_decide (strip (prod_name_var a) = EmptyString)) eqn:Ename; [done|].
  apply bool_decide_eq_false in Ename. simpl.
  destruct (bool_decide (strip (prod_shelf_life_var a) = EmptyString)); [done|].
  destruct (parse_int (strip (prod_shelf_life_var a))) as [sl|]; [|done].
  destruct (sl <=? 0) eqn:Esl; [done|]. apply Z.leb_gt in Esl.
  intros [= <-]. exists sl. simpl. split_and!; try done.
  - lia.
  - apply dict_get_set_eq.
  - intros k Hk. by apply dict_get_set_ne.
  - apply dict_keys_set.
  - unfold app_run_simulation. simpl.
    case_bool_decide; [done|].
    rewrite (existsb_elem_of _ _ (strip (prod_name_var a), Product_ sl ∅)); [done| |].
    + apply dict_get_Some_elem_of, dict_get_set_eq.
    + simpl. by apply bool_decide_eq_true.
Qed.

(** X20 (planning production).  When [add_production] returns, it has read a
    day of at least 1 and a quantity that is not negative, the selected
    product exists, and its plan holds the quantity at that day in place of
    what it held there; the other days of the plan, the shelf life, the other
    products, the order of the products and the distributors are as they
    were. *)
Theorem add_production_sets_plan (a a' : app) :
  add_production' a = Done a' →
  ∃ day qty p p',
    parse_int (strip (prod_day_var a)) = Some day ∧
    parse_float (strip (prod_qty_var a)) = Some qty ∧
    1 ≤ day ∧ (0 <= qty)%Q ∧
    dict_get (prod_var a) (app_products a) = Some p ∧
    dict_get (prod_var a) (app_products a') = Some p' ∧
    shelf_life p' = shelf_life p ∧
    production_plan p' !! day = Some qty ∧
    (∀ d, d ≠ day → production_plan p' !! d = production_plan p !! d) ∧
    (∀ k, k ≠ prod_var a → dict_get k (app_products a') = dict_get k (app_products a)) ∧
    (app_products a').*1 = (app_products a).*1 ∧
    app_distributors a' = app_distributors a.
Proof.
  unfold add_production.
  destruct (bool_decide (prod_var a = EmptyString)); [done|].
  destruct (_ || _); [done|].
  destruct (parse_int (strip (prod_day_var a))) as [day|]; [|done].
  destruct (parse_float (strip (prod_qty_var a))) as [qty|]; [|done].
  destruct ((day <? 1) || Py.ltb qty 0) eqn:Evalid; [done|].
  apply orb_false_iff in Evalid as [Hday Hqty]. apply Z.ltb_ge in Hday.
  unfold Py.ltb in Hqty. apply negb_false_iff, Qle_bool_iff in Hqty.
  destruct (dict_get (prod_var a) (app_products a)) as [p|] eqn:Ep; [|done].
  intros [= <-].
  exists day, qty, p, (Product_ (shelf_life p) (<[day := qty]> (production_plan p))).
  simpl. split_and!; try done.
  - apply dict_get_set_eq.
  - apply lookup_insert_eq.
  - intros d Hd. simpl. by apply lookup_insert_ne.
  - intros k Hk. by apply dict_get_set_ne.
  - rewrite dict_keys_set, decide_True; [done|]. apply dict_get_elem_of. by eexists.
Qed.

Lemma reachable_sound (a : app) :
  reachable' a → Forall sound_distributor (app_distributors a).
Proof.
  induction 1 as [a Hnil|a a' _ IH Hsame|a a' _ IH Hadd|a sel _ IH].
  - rewrite Hnil. constructor.
  - by rewrite Hsame.
  - apply add_distributor_stores in Hadd
      as (d & prop & -> & _ & _ & _ & _ & _ & _ & Hsound & _).
    apply Forall_app. split; [done|]. by constructor.
  - destruct sel as [i|]; [|done]. simpl. by apply Forall_delete.
Qed.

Lemma conserved_day_loop prod_name prod_data transport_rate distributors n ttc :
  Forall (λ d, 0 <= proportion d)%Q distributors →
  conserved prod_data n (day_loop prod_name prod_data transport_rate distributors n ttc).
Proof.
  intros Hds. destruct (Z_lt_le_dec n 0) as [Hneg|Hn].
  - unfold day_loop, days, Py.range. rewrite seqZ_nil by lia. simpl.
    unfold conserved. split; [done|].
    intros d. unfold produced, wasted, purchased, remaining. simpl.
    rewrite bool_decide_eq_false_2 by lia. done.
  - by apply ledger_inv_day_loop.
Qed.



(** X23 (what the recommendation depends on).  The recommendation that
    [optimize_production] stores depends on the distributors and on the
    simulation days of the screen only: two configurations with the same
    distributors and days get the same recommendation, whatever their
    products, production plans, shelf lives and transport rates. *)
Theorem recommendation_ignores_products (solve : lp_problem → Z → option Q)
    (a1 a2 : app) (rec1 rec2 : string * list (Z * Z)) :
  app_distributors a1 = app_distributors a2 →
  app_sim_days a1 = app_sim_days a2 →
  app_optimize_production solve a1 = Some rec1 →
  app_optimize_production solve a2 = Some rec2 →
  (∃ p, head (app_products a1) = Some (rec1.1, p)) ∧ rec1.2 = rec2.2.
Proof.
  unfold app_optimize_production. intros Hds Hn.
  destruct (app_products a1) as [|[k1 p1] ps1]; [done|].
  destruct (app_products a2) as [|[k2 p2] ps2]; [done|].
  rewrite <- Hds, <- Hn. destruct (bool_decide _); [done|].
  intros [= <-] [= <-]. simpl. split; [by eexists|done].
Qed.
End ScreenRuns.


Lemma weekly_calendar_witness :
  closed_today demo_distributor 8 = false ↔
  8 ≤ app_sim_days demo_app ∧
  ∃ i, (i < 6)%nat ∧ (8 - 1) mod 7 = Z.of_nat i ∧ day_vars demo_app !! i = Some true.
Proof.
  apply (weekly_calendar id demo_parse_int demo_parse_float
           demo_app demo_configured demo_distributor).
  - vm_compute. reflexivity.
  - vm_compute. reflexivity.
  - lia.
Defined.

Lemma tiny_proportion_never_buys_witness : (proportion tiny_distributor == 0)%Q.
Proof.
  refine (proj1 (proj2 (tiny_proportion_never_buys id demo_parse_int demo_parse_float
                          tiny_app tiny_configured (1 # 250) tiny_distributor _ _ _ _))).
  - vm_compute. reflexivity.
  - vm_compute. reflexivity.
  - vm_compute. reflexivity.
  - reflexivity.
Defined.

Lemma add_product_replaces_witness : app_run_simulation demo_readded = None.
Proof.
  destruct (add_product_replaces id demo_parse_int demo_app demo_readded)
    as (sl & _ & _ & _ & _ & _ & _ & _ & _ & Hrun).
  - vm_compute. reflexivity.
  - exact Hrun.
Defined.

Lemma add_production_sets_plan_witness :
  ∃ p, dict_get "P" (app_products demo_planned) = Some p ∧
       production_plan p !! 3 = Some 100%Q.
Proof.
  destruct (add_production_sets_plan id demo_parse_int demo_parse_float
              demo_app demo_planned)
    as (day & qty & p & p' & Hday & Hqty & _ & _ & _ & Hp' & _ & Hplan & _).
  - vm_compute. reflexivity.
  - exists p'. split; [exact Hp'|].
    injection Hday as <-. injection Hqty as <-. exact Hplan.
Defined.



Lemma recommendation_ignores_products_witness :
  (default (EmptyString, []) (app_optimize_production weekday_solver demo_configured)).2
  = (default (EmptyString, []) (app_optimize_production weekday_solver other_configured)).2.
Proof.
  refine (proj2 (recommendation_ignores_products weekday_solver
                   demo_configured other_configured _ _ _ _ _ _)).
  - reflexivity.
  - reflexivity.
  - vm_compute. reflexivity.
  - vm_compute. reflexivity.
Defined.
